(** * Atlas components: overlay lifecycle, focus trap, style manager, scroll lock

    A shallow embedding of the DOM-facing core of the Atlas component
    library (shared/dom.ts, shared/focus-trap.ts, the effects StyleManager,
    modal/index.ts, drawer/index.ts, dropdown/index.ts) and the properties
    of its open/close state machines.

    The browser is a record [World] that the TypeScript closures read and
    write; every closure variable of a component ([let isOpen], [let
    backdropElement], ...) is a field of that component's state record;
    callbacks handed to [setTimeout], [requestAnimationFrame] and [await]
    are queued as tasks and run by an explicit step. *)

From stdpp Require Import gmap strings list pretty.

Local Open Scope string_scope.
Local Open Scope list_scope.

(** ** JavaScript [Map]: an insertion-ordered association list

    [set] on a present key replaces the value in place, on an absent key
    appends; [forEach] visits the entries from the head. *)
Module JsMap.
Section JsMap.
Context {K V : Type} `{EqDecision K}.

Definition t := list (K * V).

Definition empty : t := [].

Fixpoint get (k : K) (m : t) : option V :=
  match m with
  | [] => None
  | (k', v) :: m' => if decide (k' = k) then Some v else get k m'
  end.

Definition has (k : K) (m : t) : bool :=
  match get k m with Some _ => true | None => false end.

Fixpoint set (k : K) (v : V) (m : t) : t :=
  match m with
  | [] => [(k, v)]
  | (k', v') :: m' =>
      if decide (k' = k) then (k, v) :: m' else (k', v') :: set k v m'
  end.

Fixpoint delete (k : K) (m : t) : t :=
  match m with
  | [] => []
  | (k', v') :: m' =>
      if decide (k' = k) then delete k m' else (k', v') :: delete k m'
  end.

Definition keys (m : t) : list K := m.*1.
End JsMap.
Arguments t : clear implicits.
End JsMap.

(** ** The browser environment (shared/dom.ts) *)
Module Dom.

(** DOM nodes are identified by reference. *)
Abbreviation Elem := positive (only parsing).

Inductive Target := Document | Node (e : Elem).

Inductive EventType := keydown | click | focusout.

(** The listener closures the components register, by source name. *)
Inductive Handler :=
  | TrapKeyDown          (* focus-trap  handleKeyDown *)
  | TrapFocusOut         (* focus-trap  handleFocusOut *)
  | OverlayBackdropClick (* modal/drawer handleBackdropClick *)
  | OverlayEscapeKey     (* modal/drawer handleEscapeKey *)
  | DropdownClickOutside
  | DropdownMenuKeyDown
  | DropdownItemClick
  | DropdownTriggerClick
  | DropdownTriggerKeyDown.

(** One [addEventListener] registration; also the data of the cleanup
    closure [addListener] returns, which removes exactly this triple. *)
Record Registration := mkReg {
  reg_target : Target;
  reg_type : EventType;
  reg_listener : Handler;
}.

#[global] Instance Target_eq_dec : EqDecision Target.
Proof. solve_decision. Defined.
#[global] Instance EventType_eq_dec : EqDecision EventType.
Proof. solve_decision. Defined.
#[global] Instance Handler_eq_dec : EqDecision Handler.
Proof. solve_decision. Defined.
#[global] Instance Registration_eq_dec : EqDecision Registration.
Proof. solve_decision. Defined.

Record World := mkWorld {
  isBrowser : bool;  (* typeof window/document !== 'undefined' *)
  activeElement : option Elem;  (* document.activeElement *)
  scrollX : Z;  (* window.scrollX *)
  scrollY : Z;  (* window.scrollY *)
  bodyCssText : string;  (* document.body.style.cssText *)
  inlineStyle : gmap Elem (gmap string string);  (* element.style declarations *)
  attributes : gmap Elem (gmap string string);  (* element attributes *)
  classList : gmap Elem (gset string);  (* element.classList *)
  tagName : gmap Elem string;  (* lower-case tag names *)
  rendered : gset Elem;  (* offsetParent !== null *)
  descendants : gmap Elem (list Elem);  (* subtree below a node, document order *)
  bodyChildren : list Elem;  (* nodes appended to document.body *)
  listeners : list Registration;  (* live addEventListener registrations *)
  nextId : Elem;  (* allocator of document.createElement *)
  idCounter : nat;  (* aria.ts: let idCounter *)
  announcements : list string;  (* messages passed to announce() *)
}.

Definition set_activeElement (v : option Elem) (w : World) : World :=
  mkWorld (isBrowser w) v (scrollX w) (scrollY w) (bodyCssText w)
    (inlineStyle w) (attributes w) (classList w) (tagName w) (rendered w)
    (descendants w) (bodyChildren w) (listeners w) (nextId w) (idCounter w)
    (announcements w).

Definition set_bodyCssText (v : string) (w : World) : World :=
  mkWorld (isBrowser w) (activeElement w) (scrollX w) (scrollY w) v
    (inlineStyle w) (attributes w) (classList w) (tagName w) (rendered w)
    (descendants w) (bodyChildren w) (listeners w) (nextId w) (idCounter w)
    (announcements w).

Definition set_inlineStyle (v : gmap Elem (gmap string string)) (w : World) : World :=
  mkWorld (isBrowser w) (activeElement w) (scrollX w) (scrollY w)
    (bodyCssText w) v (attributes w) (classList w) (tagName w) (rendered w)
    (descendants w) (bodyChildren w) (listeners w) (nextId w) (idCounter w)
    (announcements w).

Definition set_attributes (v : gmap Elem (gmap string string)) (w : World) : World :=
  mkWorld (isBrowser w) (activeElement w) (scrollX w) (scrollY w)
    (bodyCssText w) (inlineStyle w) v (classList w) (tagName w) (rendered w)
    (descendants w) (bodyChildren w) (listeners w) (nextId w) (idCounter w)
    (announcements w).

Definition set_classList (v : gmap Elem (gset string)) (w : World) : World :=
  mkWorld (isBrowser w) (activeElement w) (scrollX w) (scrollY w)
    (bodyCssText w) (inlineStyle w) (attributes w) v (tagName w) (rendered w)
    (descendants w) (bodyChildren w) (listeners w) (nextId w) (idCounter w)
    (announcements w).

Definition set_tagName (v : gmap Elem string) (w : World) : World :=
  mkWorld (isBrowser w) (activeElement w) (scrollX w) (scrollY w)
    (bodyCssText w) (inlineStyle w) (attributes w) (classList w) v
    (rendered w) (descendants w) (bodyChildren w) (listeners w) (nextId w)
    (idCounter w) (announcements w).

Definition set_bodyChildren (v : list Elem) (w : World) : World :=
  mkWorld (isBrowser w) (activeElement w) (scrollX w) (scrollY w)
    (bodyCssText w) (inlineStyle w) (attributes w) (classList w) (tagName w)
    (rendered w) (descendants w) v (listeners w) (nextId w) (idCounter w)
    (announcements w).

Definition set_listeners (v : list Registration) (w : World) : World :=
  mkWorld (isBrowser w) (activeElement w) (scrollX w) (scrollY w)
    (bodyCssText w) (inlineStyle w) (attributes w) (classList w) (tagName w)
    (rendered w) (descendants w) (bodyChildren w) v (nextId w) (idCounter w)
    (announcements w).

Definition set_nextId (v : Elem) (w : World) : World :=
  mkWorld (isBrowser w) (activeElement w) (scrollX w) (scrollY w)
    (bodyCssText w) (inlineStyle w) (attributes w) (classList w) (tagName w)
    (rendered w) (descendants w) (bodyChildren w) (listeners w) v
    (idCounter w) (announcements w).

Definition set_idCounter (v : nat) (w : World) : World :=
  mkWorld (isBrowser w) (activeElement w) (scrollX w) (scrollY w)
    (bodyCssText w) (inlineStyle w) (attributes w) (classList w) (tagName w)
    (rendered w) (descendants w) (bodyChildren w) (listeners w) (nextId w) v
    (announcements w).

Definition set_announcements (v : list string) (w : World) : World :=
  mkWorld (isBrowser w) (activeElement w) (scrollX w) (scrollY w)
    (bodyCssText w) (inlineStyle w) (attributes w) (classList w) (tagName w)
    (rendered w) (descendants w) (bodyChildren w) (listeners w) (nextId w)
    (idCounter w) v.

Definition set_scroll (x y : Z) (w : World) : World :=
  mkWorld (isBrowser w) (activeElement w) x y (bodyCssText w) (inlineStyle w)
    (attributes w) (classList w) (tagName w) (rendered w) (descendants w)
    (bodyChildren w) (listeners w) (nextId w) (idCounter w) (announcements w).

(** *** Inline style ([CSSStyleDeclaration])

    A declaration block maps a property name to its non-empty value.
    Property names are taken as written and values as accepted by the
    parser; priorities are not represented. *)

Definition styleOf (e : Elem) (w : World) : gmap string string :=
  default ∅ (inlineStyle w !! e).

(** [element.style.getPropertyValue(p)]: the empty string when unset. *)
Definition getPropertyValue (e : Elem) (p : string) (w : World) : string :=
  default EmptyString (styleOf e w !! p).

(** [element.style.removeProperty(p)]. Declarations are kept by property
    name as written; the expansion of a shorthand into its longhands is
    the browser's and is not represented. *)
Definition removeProperty (e : Elem) (p : string) (w : World) : World :=
  set_inlineStyle (<[e := delete p (styleOf e w)]> (inlineStyle w)) w.

(** [element.style.setProperty(p, v)] and [element.style.p = v]: setting
    the empty string removes the declaration. *)
Definition setProperty (e : Elem) (p v : string) (w : World) : World :=
  if decide (v = EmptyString) then removeProperty e p w
  else set_inlineStyle (<[e := <[p := v]> (styleOf e w)]> (inlineStyle w)) w.

(** [Object.assign(element.style, styles)] *)
Definition assignStyles (e : Elem) (styles : list (string * string)) (w : World) : World :=
  fold_left (λ w' '(p, v), setProperty e p v w') styles w.

(** *** Attributes *)

Definition attrsOf (e : Elem) (w : World) : gmap string string :=
  default ∅ (attributes w !! e).

Definition getAttribute (e : Elem) (k : string) (w : World) : option string :=
  attrsOf e w !! k.

Definition hasAttribute (e : Elem) (k : string) (w : World) : bool :=
  bool_decide (is_Some (getAttribute e k w)).

Definition setAttribute (e : Elem) (k v : string) (w : World) : World :=
  set_attributes (<[e := <[k := v]> (attrsOf e w)]> (attributes w)) w.

Definition removeAttribute (e : Elem) (k : string) (w : World) : World :=
  set_attributes (<[e := delete k (attrsOf e w)]> (attributes w)) w.

Definition setAttributes (e : Elem) (kvs : list (string * string)) (w : World) : World :=
  fold_left (λ w' '(k, v), setAttribute e k v w') kvs w.

(** *** Class list *)

Definition classesOf (e : Elem) (w : World) : gset string :=
  default ∅ (classList w !! e).

Definition classList_add (e : Elem) (c : string) (w : World) : World :=
  set_classList (<[e := {[c]} ∪ classesOf e w]> (classList w)) w.

Definition classList_remove (e : Elem) (c : string) (w : World) : World :=
  set_classList (<[e := classesOf e w ∖ {[c]}]> (classList w)) w.

(** *** Focus

    [el.focus()] makes [el] the active element; the elements the
    components focus are taken to be focusable and attached. *)
Definition focus (e : Elem) (w : World) : World := set_activeElement (Some e) w.

(** *** Tree *)

Definition descendantsOf (c : Elem) (w : World) : list Elem :=
  default [] (descendants w !! c).

(** [container.contains(x)]: [x] is the container or below it. *)
Definition contains (c x : Elem) (w : World) : bool :=
  bool_decide (x = c) || bool_decide (x ∈ descendantsOf c w).

Definition tagOf (e : Elem) (w : World) : string :=
  default EmptyString (tagName w !! e).

(** [document.body.appendChild(e)] of a fresh node and [e.remove()]. *)
Definition appendToBody (e : Elem) (w : World) : World :=
  set_bodyChildren (bodyChildren w ++ [e]) w.

Definition remove (e : Elem) (w : World) : World :=
  set_bodyChildren (filter (λ x, x ≠ e) (bodyChildren w)) w.

(** *** shared/dom.ts *)

(** [getDocument()] returns the document exactly when [isBrowser()]. *)
Definition getDocument (w : World) : bool := isBrowser w.

(** [createElement(tag, {className, attributes, styles})]: [None] stands
    for the [null] returned without a document. *)
Definition createElement (tag : string) (className : option string)
    (attrs styles : list (string * string)) (w : World) : option Elem * World :=
  if getDocument w then
    let element := nextId w in
    let w := set_nextId (Pos.succ element) w in
    let w := set_tagName (<[element := tag]> (tagName w)) w in
    let w := match className with
             | Some c => set_classList (<[element := {[c]}]> (classList w)) w
             | None => w
             end in
    let w := setAttributes element attrs w in
    let w := assignStyles element styles w in
    (Some element, w)
  else (None, w).

(** The selector of [getFocusableElements]. *)
Definition matchesFocusable (e : Elem) (w : World) : bool :=
  let tag := tagOf e w in
  let enabled := negb (hasAttribute e "disabled" w) in
  (bool_decide (tag = "a") && hasAttribute e "href" w)
  || (bool_decide (tag = "button") && enabled)
  || (bool_decide (tag = "input") && enabled)
  || (bool_decide (tag = "select") && enabled)
  || (bool_decide (tag = "textarea") && enabled)
  || (hasAttribute e "tabindex" w
      && negb (bool_decide (getAttribute e "tabindex" w = Some "-1"))).

Definition getFocusableElements (container : Elem) (w : World) : list Elem :=
  filter (λ el, matchesFocusable el w = true ∧ el ∈ rendered w)
         (descendantsOf container w).

(** The closure returned by [lockScroll]: [None] is the no-op returned
    without a document, [Some (scrollY, originalStyle)] the captured
    variables of the real one. *)
Definition Unlock := option (Z * string).

Definition lockScroll (w : World) : Unlock * World :=
  if getDocument w then
    let scrollY := scrollY w in
    let originalStyle := bodyCssText w in
    let nl := String (Ascii.ascii_of_nat 10) EmptyString in
    let w := set_bodyCssText
      (nl +:+ "    position: fixed;" +:+ nl
          +:+ "    top: -" +:+ pretty scrollY +:+ "px;" +:+ nl
          +:+ "    left: 0;" +:+ nl
          +:+ "    right: 0;" +:+ nl
          +:+ "    overflow: hidden;" +:+ nl +:+ "  ") w in
    (Some (scrollY, originalStyle), w)
  else (None, w).

(** Calling the closure: [body.style.cssText = originalStyle;
    window.scrollTo(0, scrollY)]. *)
Definition unlock (u : Unlock) (w : World) : World :=
  match u with
  | Some (scrollY, originalStyle) =>
      set_scroll 0 scrollY (set_bodyCssText originalStyle w)
  | None => w
  end.

(** [addListener(target, type, listener)]: registering a triple already
    present is ignored by the DOM; the returned cleanup is the triple. *)
Definition addListener (target : Target) (type : EventType) (h : Handler)
    (w : World) : Registration * World :=
  let r := mkReg target type h in
  (r, if bool_decide (r ∈ listeners w) then w
      else set_listeners (listeners w ++ [r]) w).

(** Running a cleanup closure: [target.removeEventListener(...)]. *)
Definition cleanup (r : Registration) (w : World) : World :=
  set_listeners (filter (λ x, x ≠ r) (listeners w)) w.

(** [cleanups.forEach((cleanup) => cleanup())] *)
Definition runCleanups (rs : list Registration) (w : World) : World :=
  fold_left (λ w' r, cleanup r w') rs w.

(** shared/aria.ts [announce(message)]: the message is logged; the live
    region node and its two timers are not represented. *)
Definition announce (message : string) (w : World) : World :=
  if isBrowser w then set_announcements (announcements w ++ [message]) w else w.

End Dom.

(** ** StyleManager (effects/utils) *)
Module StyleManager.
Import Dom.

(** [private originalStyles = new Map<HTMLElement, Map<string, string>>()] *)
Record t := mk {
  originalStyles : JsMap.t Elem (JsMap.t string string);
}.

(** [new StyleManager()] *)
Definition create : t := mk JsMap.empty.

(** The record kept for one (element, property) pair, if any. *)
Definition recorded (element : Elem) (property : string) (sm : t) : option string :=
  match JsMap.get element (originalStyles sm) with
  | Some elementStyles => JsMap.get property elementStyles
  | None => None
  end.

Definition saveStyle (element : Elem) (property : string) (sm : t) (w : World) : t :=
  let originals :=
    if negb (JsMap.has element (originalStyles sm))
    then JsMap.set element JsMap.empty (originalStyles sm)
    else originalStyles sm in
  match JsMap.get element originals with
  | Some elementStyles =>
      if negb (JsMap.has property elementStyles) then
        let computedValue := getPropertyValue element property w in
        (* the inner Map is mutated in place: the outer entry keeps its slot *)
        mk (JsMap.set element (JsMap.set property computedValue elementStyles) originals)
      else mk originals
  | None => mk originals
  end.

Definition setStyle (element : Elem) (property value : string)
    (s : t * World) : t * World :=
  let '(sm, w) := s in
  (saveStyle element property sm w, setProperty element property value w).

(** [styles] is [Object.entries(styles)], in order. *)
Definition setStyles (element : Elem) (styles : list (string * string))
    (s : t * World) : t * World :=
  fold_left (λ s' '(property, value), setStyle element property value s') styles s.

(** The body of the [forEach] in [restore]. *)
Definition writeBack (element : Elem) (w : World) (entry : string * string) : World :=
  let '(property, value) := entry in
  if decide (value = EmptyString) then removeProperty element property w
  else setProperty element property value w.

Definition restore (element : Elem) (s : t * World) : t * World :=
  let '(sm, w) := s in
  match JsMap.get element (originalStyles sm) with
  | None => (sm, w)
  | Some elementStyles =>
      (mk (JsMap.delete element (originalStyles sm)),
       fold_left (writeBack element) elementStyles w)
  end.

(** [restoreAll]: every element that has a record when the loop starts is
    restored once ([restore] deletes only the entry being visited). *)
Definition restoreAll (s : t * World) : t * World :=
  fold_left (λ s' element, restore element s')
            (JsMap.keys (originalStyles (fst s))) s.

Definition clear (element : option Elem) (sm : t) : t :=
  match element with
  | Some e => mk (JsMap.delete e (originalStyles sm))
  | None => mk JsMap.empty
  end.

(** Every [Map] of a manager has pairwise distinct keys. *)
Definition wf (sm : t) : Prop :=
  NoDup (JsMap.keys (originalStyles sm))
  ∧ Forall (λ entry, NoDup (JsMap.keys entry.2)) (originalStyles sm).

End StyleManager.

(** ** Abrupt completion

    A handler either returns or throws; the only throw the modelled code
    can reach is the [TypeError] of a method call on [undefined]. *)
Inductive Completion (A : Type) :=
  | Normal (a : A)
  | Throw.
Arguments Normal {A} a.
Arguments Throw {A}.

#[global] Instance Completion_bind : MBind Completion :=
  λ A B f c, match c with Normal a => f a | Throw => Throw end.

(** ** Focus trap (shared/focus-trap.ts) *)
Module FocusTrap.
Import Dom.

Inductive InitialFocus := InitialFirst | InitialContainer | InitialElement (e : Elem).
Inductive ReturnFocus := ReturnPrevious | ReturnElement (e : Elem).

Record KeyboardEvent := mkKey { key : string; shiftKey : bool }.

(** Options and closure variables of one [createFocusTrap] call. *)
Record t := mk {
  container : Elem;
  initialFocus : InitialFocus;
  returnFocus : ReturnFocus;
  onEscape : bool;                       (* is an onEscape callback supplied? *)
  isActive : bool;
  previouslyFocused : option Elem;
  focusableElements : list Elem;
  cleanupListeners : list Registration;
}.

Definition set_isActive (v : bool) (t0 : t) : t :=
  mk (container t0) (initialFocus t0) (returnFocus t0) (onEscape t0)
     v (previouslyFocused t0) (focusableElements t0) (cleanupListeners t0).

Definition set_previouslyFocused (v : option Elem) (t0 : t) : t :=
  mk (container t0) (initialFocus t0) (returnFocus t0) (onEscape t0)
     (isActive t0) v (focusableElements t0) (cleanupListeners t0).

Definition set_focusableElements (v : list Elem) (t0 : t) : t :=
  mk (container t0) (initialFocus t0) (returnFocus t0) (onEscape t0)
     (isActive t0) (previouslyFocused t0) v (cleanupListeners t0).

Definition set_cleanupListeners (v : list Registration) (t0 : t) : t :=
  mk (container t0) (initialFocus t0) (returnFocus t0) (onEscape t0)
     (isActive t0) (previouslyFocused t0) (focusableElements t0) v.

(** [createFocusTrap(options)], with the defaults ['first'], ['previous']. *)
Definition createFocusTrap (container : Elem) (initialFocus : option InitialFocus)
    (returnFocus : option ReturnFocus) (onEscape : bool) : t :=
  mk container (default InitialFirst initialFocus)
     (default ReturnPrevious returnFocus) onEscape false None [] [].

(** What a handler did to its event and asked of its owner. *)
Record Effects := mkEffects {
  defaultPrevented : bool;     (* e.preventDefault() was called *)
  escapeInvoked : bool;        (* onEscape() was called *)
}.

Definition noEffects : Effects := mkEffects false false.
Definition prevented : Effects := mkEffects true false.

(** [a === b] between [document.activeElement] ([None] is [null]) and an
    array read ([None] is [undefined]): [null === undefined] is false. *)
Definition strictEq (a b : option Elem) : bool :=
  match a, b with
  | Some x, Some y => bool_decide (x = y)
  | _, _ => false
  end.

(** [x.focus()] on an array read: a [TypeError] on [undefined]. *)
Definition focusOrThrow (x : option Elem) (w : World) : Completion World :=
  match x with
  | Some el => Normal (focus el w)
  | None => Throw
  end.

Definition updateElements (t0 : t) (w : World) : t :=
  set_focusableElements (getFocusableElements (container t0) w) t0.

Definition handleKeyDown (e : KeyboardEvent) (t0 : t) (w : World)
    : Completion (t * World * Effects) :=
  if negb (isActive t0) then Normal (t0, w, noEffects)
  else if bool_decide (key e = "Escape") then
    Normal (t0, w, mkEffects true (onEscape t0))
  else if bool_decide (key e = "Tab") then
    let t1 := updateElements t0 w in
    if bool_decide (length (focusableElements t1) = 0) then
      Normal (t1, w, prevented)
    else
      let firstElement := focusableElements t1 !! 0 in
      let lastElement := focusableElements t1 !! (length (focusableElements t1) - 1) in
      if negb (getDocument w) then Normal (t1, w, noEffects)
      else if shiftKey e then
        if strictEq (activeElement w) firstElement
           || strictEq (activeElement w) (Some (container t1))
        then w' ← focusOrThrow lastElement w ; Normal (t1, w', prevented)
        else Normal (t1, w, noEffects)
      else
        if strictEq (activeElement w) lastElement
        then w' ← focusOrThrow firstElement w ; Normal (t1, w', prevented)
        else Normal (t1, w, noEffects)
  else Normal (t0, w, noEffects).

(** [relatedTarget] is the node receiving focus, [None] for [null]. *)
Definition handleFocusOut (relatedTarget : option Elem) (t0 : t) (w : World)
    : t * World * Effects :=
  if negb (isActive t0) then (t0, w, noEffects)
  else match relatedTarget with
       | Some r =>
           if negb (contains (container t0) r w) then
             (t0,
              match focusableElements t0 !! 0 with
              | Some el => focus el w
              | None => w
              end,
              prevented)
           else (t0, w, noEffects)
       | None => (t0, w, noEffects)
       end.

(** The callback [activate] hands to [requestAnimationFrame]. *)
Definition initialFocusFrame (t0 : t) (w : World) : Completion World :=
  match initialFocus t0 with
  | InitialFirst =>
      if bool_decide (0 < length (focusableElements t0))
      then focusOrThrow (focusableElements t0 !! 0) w
      else Normal w
  | InitialContainer =>
      Normal (focus (container t0) (setAttribute (container t0) "tabindex" "-1" w))
  | InitialElement el => Normal (focus el w)
  end.

(** [activate()]; the boolean tells whether the initial-focus frame was
    requested. *)
Definition activate (t0 : t) (w : World) : t * World * bool :=
  if isActive t0 then (t0, w, false)
  else
    let t1 := set_isActive true t0 in
    if negb (getDocument w) then (t1, w, false)
    else
      let t2 := set_previouslyFocused (activeElement w) t1 in
      let t3 := updateElements t2 w in
      let '(c1, w1) := addListener Document keydown TrapKeyDown w in
      let '(c2, w2) := addListener (Node (container t3)) focusout TrapFocusOut w1 in
      (set_cleanupListeners (cleanupListeners t3 ++ [c1; c2]) t3, w2, true).

Definition deactivate (t0 : t) (w : World) : t * World :=
  if negb (isActive t0) then (t0, w)
  else
    let t1 := set_isActive false t0 in
    let w1 := runCleanups (cleanupListeners t1) w in
    let t2 := set_cleanupListeners [] t1 in
    let w2 := if bool_decide (getAttribute (container t2) "tabindex" w1 = Some "-1")
              then removeAttribute (container t2) "tabindex" w1 else w1 in
    let w3 := match returnFocus t2, previouslyFocused t2 with
              | ReturnPrevious, Some el => focus el w2
              | ReturnPrevious, None => w2
              | ReturnElement el, _ => focus el w2
              end in
    (set_previouslyFocused None t2, w3).

(** What [deactivate] reads to decide where focus goes. *)
Definition returnTarget (tr : t) : bool * option Elem * ReturnFocus :=
  (isActive tr, previouslyFocused tr, returnFocus tr).

(** What can happen to a trap between [activate()] and [deactivate()]
    without touching the stored return target. *)
Inductive Event :=
  | KeyDown (e : KeyboardEvent)
  | FocusOut (relatedTarget : option Elem)
  | Frame
  | UpdateElements
  | Activate
  | FocusMoves (target : option Elem).      (* the user or a script moves focus *)

Definition step (ev : Event) (s : t * World) : Completion (t * World) :=
  let '(t0, w) := s in
  match ev with
  | KeyDown e => r ← handleKeyDown e t0 w ; Normal (r.1)
  | FocusOut related => Normal (handleFocusOut related t0 w).1
  | Frame => w' ← initialFocusFrame t0 w ; Normal (t0, w')
  | UpdateElements => Normal (updateElements t0 w, w)
  | Activate => Normal (activate t0 w).1
  | FocusMoves target => Normal (t0, set_activeElement target w)
  end.

Fixpoint run (evs : list Event) (s : t * World) : Completion (t * World) :=
  match evs with
  | [] => Normal s
  | ev :: evs' => s' ← step ev s ; run evs' s'
  end.

End FocusTrap.

(** ** shared/types.ts and shared/aria.ts *)
Module Shared.
Import Dom.

Inductive AnimationTiming := instant | fast | normal | slow.

Definition ANIMATION_DURATION (a : AnimationTiming) : Z :=
  match a with
  | instant => 0
  | fast => 150
  | normal => 250
  | slow => 400
  end.

Module EASING.
Definition standard := "cubic-bezier(0.4, 0, 0.2, 1)".
Definition decelerate := "cubic-bezier(0, 0, 0.2, 1)".
Definition accelerate := "cubic-bezier(0.4, 0, 1, 1)".
Definition bounce := "cubic-bezier(0.68, -0.55, 0.265, 1.55)".
Definition spring := "cubic-bezier(0.175, 0.885, 0.32, 1.275)".
End EASING.

Module Z_INDEX.
Definition dropdown : Z := 100.
Definition sticky : Z := 200.
Definition drawer : Z := 300.
Definition modal : Z := 400.
Definition toast : Z := 500.
Definition tooltip : Z := 600.
End Z_INDEX.

(** [`${duration}ms`] *)
Definition ms (duration : Z) : string := pretty duration +:+ "ms".

(** [generateId(prefix)]: [`atlas-${prefix}-${++idCounter}`] *)
Definition generateId (prefix : string) (w : World) : string * World :=
  let n := S (idCounter w) in
  ("atlas-" +:+ prefix +:+ "-" +:+ pretty n, set_idCounter n w).

(** A string option is truthy when present and not empty. *)
Definition truthy (o : option string) : bool :=
  match o with
  | Some s => negb (bool_decide (s = EmptyString))
  | None => false
  end.

Definition optionalEntry (k : string) (o : option string) : list (string * string) :=
  match o with
  | Some s => if truthy o then [(k, s)] else []
  | None => []
  end.

Definition getModalAriaAttributes (labelledBy describedBy : option string)
    : list (string * string) :=
  [("role", "dialog"); ("aria-modal", "true")]
  ++ optionalEntry "aria-labelledby" labelledBy
  ++ optionalEntry "aria-describedby" describedBy.

Definition getDrawerAriaAttributes (labelledBy : option string)
    : list (string * string) :=
  [("role", "dialog"); ("aria-modal", "true")]
  ++ optionalEntry "aria-labelledby" labelledBy.

(** [String(isOpen)] *)
Definition String_bool (b : bool) : string := if b then "true" else "false".

Definition getDropdownTriggerAttributes (isOpen : bool) (menuId : string)
    : list (string * string) :=
  [("aria-haspopup", "true"); ("aria-expanded", String_bool isOpen);
   ("aria-controls", menuId)].

Definition getDropdownMenuAttributes (id labelledBy : string)
    : list (string * string) :=
  [("role", "menu"); ("id", id); ("aria-labelledby", labelledBy)].

Definition getMenuItemAttributes (disabled : bool) : list (string * string) :=
  [("role", "menuitem"); ("tabindex", if disabled then "-1" else "0")]
  ++ (if disabled then [("aria-disabled", "true")] else []).

(** [element.id]: the empty string without an id attribute. *)
Definition idOf (e : Elem) (w : World) : string :=
  default EmptyString (getAttribute e "id" w).

End Shared.

(** ** Modal (modal/index.ts) *)
Module Modal.
Import Dom Shared.

Record ModalOptions := mkOptions {
  backdrop : bool;
  closeOnBackdrop : bool;
  closeOnEscape : bool;
  trapFocus : bool;
  animation : AnimationTiming;
  backdropBlur : bool;
  ariaLabel : option string;
  ariaLabelledBy : option string;
  ariaDescribedBy : option string;
  onOpen : bool;                      (* is an onOpen callback supplied? *)
  onClose : bool;
}.

(** [options = {}]: every default. *)
Definition defaultOptions : ModalOptions :=
  mkOptions true true true true normal true None None None false false.

(** The closure variables of one [createModal] call, and counters of the
    calls made to [close()] and to the caller's callbacks. *)
Record t := mk {
  options : ModalOptions;
  element : Elem;
  isOpen : bool;
  backdropElement : option Elem;
  focusTrap : option FocusTrap.t;
  unlockScroll : option Unlock;
  cleanupListeners : list Registration;
  closeCalls : nat;
  onOpenCalls : nat;
  onCloseCalls : nat;
}.

Definition duration (m : t) : Z := ANIMATION_DURATION (animation (options m)).

(** Callbacks waiting in the event loop. *)
Inductive Task :=
  | AnimateInFrame        (* requestAnimationFrame callback of animateIn *)
  | InitialFocusFrame     (* requestAnimationFrame callback of focusTrap.activate *)
  | CloseTail.            (* rest of close() after [await animateOut()] *)

#[global] Instance Task_eq_dec : EqDecision Task.
Proof. solve_decision. Defined.

Record System := mkSystem {
  modal : t;
  world : World;
  tasks : list Task;
}.

Definition set_isOpen (v : bool) (m : t) : t :=
  mk (options m) (element m) v (backdropElement m) (focusTrap m)
     (unlockScroll m) (cleanupListeners m) (closeCalls m) (onOpenCalls m)
     (onCloseCalls m).

Definition set_backdropElement (v : option Elem) (m : t) : t :=
  mk (options m) (element m) (isOpen m) v (focusTrap m)
     (unlockScroll m) (cleanupListeners m) (closeCalls m) (onOpenCalls m)
     (onCloseCalls m).

Definition set_focusTrap (v : option FocusTrap.t) (m : t) : t :=
  mk (options m) (element m) (isOpen m) (backdropElement m) v
     (unlockScroll m) (cleanupListeners m) (closeCalls m) (onOpenCalls m)
     (onCloseCalls m).

Definition set_unlockScroll (v : option Unlock) (m : t) : t :=
  mk (options m) (element m) (isOpen m) (backdropElement m) (focusTrap m)
     v (cleanupListeners m) (closeCalls m) (onOpenCalls m) (onCloseCalls m).

Definition set_cleanupListeners (v : list Registration) (m : t) : t :=
  mk (options m) (element m) (isOpen m) (backdropElement m) (focusTrap m)
     (unlockScroll m) v (closeCalls m) (onOpenCalls m) (onCloseCalls m).

Definition count_close (m : t) : t :=
  mk (options m) (element m) (isOpen m) (backdropElement m) (focusTrap m)
     (unlockScroll m) (cleanupListeners m) (S (closeCalls m)) (onOpenCalls m)
     (onCloseCalls m).

(** [onOpen?.()] *)
Definition call_onOpen (m : t) : t :=
  mk (options m) (element m) (isOpen m) (backdropElement m) (focusTrap m)
     (unlockScroll m) (cleanupListeners m) (closeCalls m)
     (if onOpen (options m) then S (onOpenCalls m) else onOpenCalls m)
     (onCloseCalls m).

(** [onClose?.()] *)
Definition call_onClose (m : t) : t :=
  mk (options m) (element m) (isOpen m) (backdropElement m) (focusTrap m)
     (unlockScroll m) (cleanupListeners m) (closeCalls m) (onOpenCalls m)
     (if onClose (options m) then S (onCloseCalls m) else onCloseCalls m).

(** [createModal(element, options)] in a browser; without one the SSR
    guard returns the inert object [createNoopModalState] ([None] here). *)
Definition createModal (element : Elem) (options : ModalOptions) (w : World)
    : option System :=
  if negb (isBrowser w) then None
  else
    let '(modalId, w) := generateId "modal" w in
    let ariaAttrs := getModalAriaAttributes (ariaLabelledBy options)
                                            (ariaDescribedBy options) in
    let w := setAttribute element "id"
               (if bool_decide (idOf element w = EmptyString) then modalId
                else idOf element w) w in
    let w := setAttributes element ariaAttrs w in
    let w := match ariaLabel options with
             | Some l => if truthy (Some l)
                         then setAttribute element "aria-label" l w else w
             | None => w
             end in
    let w := setAttribute element "aria-hidden" "true" w in
    let w := setProperty element "display" "none" w in
    let focusTrap :=
      if trapFocus options then
        Some (FocusTrap.createFocusTrap element (Some FocusTrap.InitialFirst)
                (Some FocusTrap.ReturnPrevious) (closeOnEscape options))
      else None in
    Some (mkSystem (mk options element false None focusTrap None [] 0 0 0) w []).

Definition createBackdropElement (m : t) (w : World) : option Elem * World :=
  if negb (backdrop (options m)) then (None, w)
  else
    createElement "div" (Some "atlas-modal-backdrop")
      [("data-atlas-modal-backdrop", EmptyString); ("aria-hidden", "true")]
      [("position", "fixed");
       ("inset", "0");
       ("z-index", pretty (Z_INDEX.modal - 1)%Z);
       ("background-color", "rgba(0, 0, 0, 0)");
       ("backdrop-filter", if backdropBlur (options m) then "blur(0px)" else "none");
       ("display", "flex");
       ("align-items", "center");
       ("justify-content", "center");
       ("transition",
        "background-color " +:+ ms (duration m) +:+ " " +:+ EASING.standard
        +:+ ", backdrop-filter " +:+ ms (duration m) +:+ " " +:+ EASING.standard)]
      w.

(** [animateIn()]: returns at once without a backdrop, else asks for a frame. *)
Definition animateIn (s : System) : System :=
  match backdropElement (modal s) with
  | None => s
  | Some _ => mkSystem (modal s) (world s) (tasks s ++ [AnimateInFrame])
  end.

(** The frame callback of [animateIn]. *)
Definition animateInFrame (s : System) : System :=
  let m := modal s in
  let w := world s in
  let w := match backdropElement m with
           | Some b =>
               let w := setProperty b "background-color" "rgba(0, 0, 0, 0.5)" w in
               if backdropBlur (options m)
               then setProperty b "backdrop-filter" "blur(4px)" w else w
           | None => w
           end in
  let w := setProperty (element m) "opacity" "1" w in
  let w := setProperty (element m) "transform" "scale(1)" w in
  mkSystem m w (tasks s).

(** The executor of the promise [animateOut()] returns: it runs at once
    and leaves [resolve] on a [duration] timer, after which the awaiting
    [close()] resumes. *)
Definition animateOut (s : System) : System :=
  let m := modal s in
  let w := world s in
  let w := match backdropElement m with
           | Some b =>
               let w := setProperty b "background-color" "rgba(0, 0, 0, 0)" w in
               if backdropBlur (options m)
               then setProperty b "backdrop-filter" "blur(0px)" w else w
           | None => w
           end in
  let w := setProperty (element m) "opacity" "0" w in
  let w := setProperty (element m) "transform" "scale(0.95)" w in
  mkSystem m w (tasks s ++ [CloseTail]).

(** [focusTrap?.activate()] *)
Definition activateTrap (s : System) : System :=
  match focusTrap (modal s) with
  | Some tr =>
      let '(tr', w', frame) := FocusTrap.activate tr (world s) in
      mkSystem (set_focusTrap (Some tr') (modal s)) w'
               (if frame then tasks s ++ [InitialFocusFrame] else tasks s)
  | None => s
  end.

(** [focusTrap?.deactivate()] *)
Definition deactivateTrap (s : System) : System :=
  match focusTrap (modal s) with
  | Some tr =>
      let '(tr', w') := FocusTrap.deactivate tr (world s) in
      mkSystem (set_focusTrap (Some tr') (modal s)) w' (tasks s)
  | None => s
  end.

(** The blocks of [open()], one per comment of the source. *)

(* Lock body scroll *)
Definition lockBodyScroll (s : System) : System :=
  let '(u, w) := lockScroll (world s) in
  mkSystem (set_unlockScroll (Some u) (modal s)) w (tasks s).

(* Create and append backdrop *)
Definition mountBackdrop (s : System) : System :=
  let m := modal s in
  if backdrop (options m) then
    let '(b, w) := createBackdropElement m (world s) in
    let m := set_backdropElement b m in
    match b with
    | Some b =>
        let w := appendToBody b w in
        if closeOnBackdrop (options m) then
          let '(c, w) := addListener (Node b) click OverlayBackdropClick w in
          mkSystem (set_cleanupListeners (cleanupListeners m ++ [c]) m) w (tasks s)
        else mkSystem m w (tasks s)
    | None => mkSystem m w (tasks s)
    end
  else s.

(* Show modal with initial animation state *)
Definition showModal (s : System) : System :=
  let m := modal s in
  let w := world s in
  let w := setProperty (element m) "display" EmptyString w in
  let w := setProperty (element m) "position" "fixed" w in
  let w := setProperty (element m) "z-index" (pretty Z_INDEX.modal) w in
  let w := setProperty (element m) "opacity" "0" w in
  let w := setProperty (element m) "transform" "scale(0.95)" w in
  let w := setProperty (element m) "transition"
             ("opacity " +:+ ms (duration m) +:+ " " +:+ EASING.decelerate
              +:+ ", transform " +:+ ms (duration m) +:+ " " +:+ EASING.spring) w in
  let w := setAttribute (element m) "aria-hidden" "false" w in
  mkSystem m w (tasks s).

(* Add escape key listener (if not using focus trap) *)
Definition addEscapeListener (s : System) : System :=
  let m := modal s in
  if closeOnEscape (options m) && negb (trapFocus (options m)) then
    let '(c, w) := addListener Document keydown OverlayEscapeKey (world s) in
    mkSystem (set_cleanupListeners (cleanupListeners m ++ [c]) m) w (tasks s)
  else s.

Definition open (s : System) : System :=
  if isOpen (modal s) then s
  else
    let s := mkSystem (set_isOpen true (modal s)) (world s) (tasks s) in
    let s := lockBodyScroll s in
    let s := mountBackdrop s in
    let s := showModal s in
    let s := addEscapeListener s in
    (* Trigger animation *)
    let s := animateIn s in
    (* Activate focus trap *)
    let s := activateTrap s in
    (* Announce to screen readers *)
    let s := mkSystem (modal s) (announce "Dialog opened" (world s)) (tasks s) in
    mkSystem (call_onOpen (modal s)) (world s) (tasks s).

(** [close()] up to its [await]. *)
Definition close (s : System) : System :=
  let s := mkSystem (count_close (modal s)) (world s) (tasks s) in
  if negb (isOpen (modal s)) then s
  else
    let s := mkSystem (set_isOpen false (modal s)) (world s) (tasks s) in
    let s := deactivateTrap s in
    animateOut s.

(** The blocks of the rest of [close()]. *)

(* Hide modal *)
Definition hideModal (s : System) : System :=
  let m := modal s in
  let w := setProperty (element m) "display" "none" (world s) in
  let w := setAttribute (element m) "aria-hidden" "true" w in
  mkSystem m w (tasks s).

(* Remove backdrop *)
Definition removeBackdrop (s : System) : System :=
  match backdropElement (modal s) with
  | Some b => mkSystem (set_backdropElement None (modal s)) (remove b (world s)) (tasks s)
  | None => s
  end.

(* Clean up listeners *)
Definition cleanUpListeners (s : System) : System :=
  mkSystem (set_cleanupListeners [] (modal s))
           (runCleanups (cleanupListeners (modal s)) (world s)) (tasks s).

(* Unlock scroll *)
Definition unlockBodyScroll (s : System) : System :=
  mkSystem (set_unlockScroll None (modal s))
           (match unlockScroll (modal s) with
            | Some u => unlock u (world s)
            | None => world s
            end)
           (tasks s).

(** [close()] after its [await]. *)
Definition closeTail (s : System) : System :=
  let s := hideModal s in
  let s := removeBackdrop s in
  let s := cleanUpListeners s in
  let s := unlockBodyScroll s in
  (* Announce to screen readers *)
  let s := mkSystem (modal s) (announce "Dialog closed" (world s)) (tasks s) in
  mkSystem (call_onClose (modal s)) (world s) (tasks s).

Definition toggle (s : System) : System :=
  if isOpen (modal s) then close s else open s.

Definition update (s : System) : System :=
  match focusTrap (modal s) with
  | Some tr =>
      mkSystem (set_focusTrap (Some (FocusTrap.updateElements tr (world s))) (modal s))
               (world s) (tasks s)
  | None => s
  end.

(** The body of [if (isOpen)] in [destroy()]: none of the closure
    variables is assigned. *)
Definition immediateClose (s : System) : System :=
  (* Immediate close without animation *)
  let s := deactivateTrap s in
  let m := modal s in
  let w := world s in
  let w := setProperty (element m) "display" "none" w in
  let w := setAttribute (element m) "aria-hidden" "true" w in
  let w := match backdropElement m with
           | Some b => remove b w
           | None => w
           end in
  let w := runCleanups (cleanupListeners m) w in
  let w := match unlockScroll m with
           | Some u => unlock u w
           | None => w
           end in
  mkSystem m w (tasks s).

Definition destroy (s : System) : System :=
  let s := if isOpen (modal s) then immediateClose s else s in
  (* Remove ARIA attributes we added *)
  let w := removeAttribute (element (modal s)) "aria-modal" (world s) in
  let w := removeAttribute (element (modal s)) "aria-hidden" w in
  mkSystem (modal s) w (tasks s).

(** [e.target] of the click. *)
Definition handleBackdropClick (target : Elem) (s : System) : System :=
  if closeOnBackdrop (options (modal s))
     && bool_decide (Some target = backdropElement (modal s))
  then close s else s.

Definition handleEscapeKey (e : FocusTrap.KeyboardEvent) (s : System) : System :=
  if closeOnEscape (options (modal s))
     && bool_decide (FocusTrap.key e = "Escape")
     && isOpen (modal s)
  then close s (* after e.preventDefault() *)
  else s.

(** The trap's [handleKeyDown] bound to this modal: [onEscape] is
    [() => close()] when [closeOnEscape] is set. *)
Definition trapKeyDown (e : FocusTrap.KeyboardEvent) (s : System) : Completion System :=
  match focusTrap (modal s) with
  | Some tr =>
      r ← FocusTrap.handleKeyDown e tr (world s);
      let '(tr', w', eff) := r in
      let s' := mkSystem (set_focusTrap (Some tr') (modal s)) w' (tasks s) in
      Normal (if FocusTrap.escapeInvoked eff then close s' else s')
  | None => Normal s
  end.

Definition trapFocusOut (relatedTarget : option Elem) (s : System) : System :=
  match focusTrap (modal s) with
  | Some tr =>
      let '(tr', w', _) := FocusTrap.handleFocusOut relatedTarget tr (world s) in
      mkSystem (set_focusTrap (Some tr') (modal s)) w' (tasks s)
  | None => s
  end.

(** A DOM event reaching this modal's listeners. *)
Inductive DomEvent :=
  | KeyDownEv (e : FocusTrap.KeyboardEvent)    (* keydown bubbling to document *)
  | ClickEv (target : Elem)
  | FocusOutEv (relatedTarget : option Elem).  (* focusout on the modal element *)

Definition eventType (ev : DomEvent) : EventType :=
  match ev with
  | KeyDownEv _ => keydown
  | ClickEv _ => click
  | FocusOutEv _ => focusout
  end.

(** The targets on the event's path that this model knows of. *)
Definition onPath (ev : DomEvent) (s : System) (tg : Target) : bool :=
  match ev, tg with
  | KeyDownEv _, Document => true
  | ClickEv target, Node n => bool_decide (n = target)
  | FocusOutEv _, Node n => bool_decide (n = element (modal s))
  | _, _ => false
  end.

(** Calling one registered listener; the listeners of other components
    do not touch this one. *)
Definition invoke (ev : DomEvent) (h : Handler) (s : System) : Completion System :=
  match h, ev with
  | TrapKeyDown, KeyDownEv e => trapKeyDown e s
  | OverlayEscapeKey, KeyDownEv e => Normal (handleEscapeKey e s)
  | OverlayBackdropClick, ClickEv target => Normal (handleBackdropClick target s)
  | TrapFocusOut, FocusOutEv related => Normal (trapFocusOut related s)
  | _, _ => Normal s
  end.

(** Dispatch: the listeners registered when the event fires are called in
    registration order, skipping any removed in the meantime. *)
Fixpoint callListeners (ev : DomEvent) (snapshot : list Registration) (s : System)
    : Completion System :=
  match snapshot with
  | [] => Normal s
  | r :: rest =>
      if bool_decide (r ∈ listeners (world s)) then
        s' ← invoke ev (reg_listener r) s; callListeners ev rest s'
      else callListeners ev rest s
  end.

Definition dispatch (ev : DomEvent) (s : System) : Completion System :=
  callListeners ev
    (filter (λ r, reg_type r = eventType ev ∧ onPath ev s (reg_target r) = true)
            (listeners (world s)))
    s.

(** Running a queued callback. *)
Definition runTask (task : Task) (s : System) : Completion System :=
  match task with
  | AnimateInFrame => Normal (animateInFrame s)
  | InitialFocusFrame =>
      match focusTrap (modal s) with
      | Some tr =>
          w' ← FocusTrap.initialFocusFrame tr (world s);
          Normal (mkSystem (modal s) w' (tasks s))
      | None => Normal s
      end
  | CloseTail => Normal (closeTail s)
  end.

(** Remove the first occurrence of a task from the queue. *)
Fixpoint dequeue (task : Task) (q : list Task) : list Task :=
  match q with
  | [] => []
  | x :: q' => if decide (x = task) then q' else x :: dequeue task q'
  end.

Inductive Event :=
  | Open | Close | Toggle | Update | Destroy    (* the public operations *)
  | Dom (ev : DomEvent)
  | Run (task : Task).                          (* a queued callback fires *)

Definition step (ev : Event) (s : System) : Completion System :=
  match ev with
  | Open => Normal (open s)
  | Close => Normal (close s)
  | Toggle => Normal (toggle s)
  | Update => Normal (update s)
  | Destroy => Normal (destroy s)
  | Dom d => dispatch d s
  | Run task =>
      if bool_decide (task ∈ tasks s)
      then runTask task (mkSystem (modal s) (world s) (dequeue task (tasks s)))
      else Normal s
  end.

Fixpoint run (evs : list Event) (s : System) : Completion System :=
  match evs with
  | [] => Normal s
  | ev :: evs' => s' ← step ev s; run evs' s'
  end.

(** The closes whose tail still waits for the animation timer. *)
Definition pendingCloses (s : System) : nat :=
  length (filter (λ task, task = CloseTail) (tasks s)).

Definition closePending (s : System) : Prop := 0 < pendingCloses s.

(** The part of the state the open/close state machine is about. *)
Definition control (s : System) : bool * option Elem * nat :=
  (isOpen (modal s), backdropElement (modal s), pendingCloses s).

(** What never changes after creation. *)
Definition setting (s : System) : bool * ModalOptions :=
  (isBrowser (world s), options (modal s)).

(** How one step can change the control state: not at all, by entering
    [open()], by entering [close()] on an open modal, or by the tail of a
    pending close. [mounts] tells whether [open()] creates a backdrop. *)
Inductive move (mounts : bool) (ev : Event)
    : bool * option Elem * nat → bool * option Elem * nat → Prop :=
  | move_stay c : move mounts ev c c
  | move_open bd p bd' :
      ev = Open ∨ ev = Toggle → (mounts = true → is_Some bd') →
      move mounts ev (false, bd, p) (true, bd', p)
  | move_close bd p : move mounts ev (true, bd, p) (false, bd, S p)
  | move_settle o bd p : move mounts ev (o, bd, S p) (o, None, p).

(** One listener call either leaves the control state or is one [close()]. *)
Definition closeOrStay (c c' : bool * option Elem * nat) : Prop :=
  c' = c ∨ ∃ bd p, c = (true, bd, p) ∧ c' = (false, bd, S p).

(** The registrations of the two Escape routes. *)
Definition escapeRegistration : Registration := mkReg Document keydown OverlayEscapeKey.
Definition trapRegistration : Registration := mkReg Document keydown TrapKeyDown.

(** The modal is open with its trap active, the trap routes Escape to
    [close()], and the trap's keydown listener is in place. *)
Definition armed (s : System) : Prop :=
  isOpen (modal s) = true
  ∧ ∃ tr, focusTrap (modal s) = Some tr
      ∧ FocusTrap.isActive tr = true
      ∧ FocusTrap.onEscape tr = true
      ∧ trapRegistration ∈ FocusTrap.cleanupListeners tr
      ∧ trapRegistration ∈ listeners (world s).

(** Escape has the trap as its only route: the trap exists, calls
    [close()] on Escape, and is active only while the modal is open; the
    document-level Escape listener is not registered. *)
Definition routed (s : System) : Prop :=
  (∃ tr, focusTrap (modal s) = Some tr
      ∧ FocusTrap.onEscape tr = true
      ∧ (FocusTrap.isActive tr = true → isOpen (modal s) = true))
  ∧ escapeRegistration ∉ listeners (world s).

(** [open()] is entered by [Open], and by [Toggle] on a closed modal. *)
Definition reopens (ev : Event) (s : System) : Prop :=
  (ev = Open ∨ ev = Toggle) ∧ closePending s.

(** States reached from a freshly created modal. *)
Inductive reachable (s0 : System) : System → Prop :=
  | reachable_init : reachable s0 s0
  | reachable_step s ev s' :
      reachable s0 s → step ev s = Normal s' → reachable s0 s'.

(** The same, in runs that never enter [open()] while a close is pending. *)
Inductive reachable_sequential (s0 : System) : System → Prop :=
  | sequential_init : reachable_sequential s0 s0
  | sequential_step s ev s' :
      reachable_sequential s0 s → ¬ reopens ev s →
      step ev s = Normal s' → reachable_sequential s0 s'.

End Modal.

(** ** Drawer (drawer/index.ts) *)
Module Drawer.
Import Dom Shared.

Inductive DrawerSide := left | right | top | bottom.

Definition sideName (side : DrawerSide) : string :=
  match side with
  | left => "left" | right => "right" | top => "top" | bottom => "bottom"
  end.

Record Transform := mkTransform { opened : string; closed : string }.

Definition TRANSFORMS (side : DrawerSide) : Transform :=
  match side with
  | left => mkTransform "translateX(0)" "translateX(-100%)"
  | right => mkTransform "translateX(0)" "translateX(100%)"
  | top => mkTransform "translateY(0)" "translateY(-100%)"
  | bottom => mkTransform "translateY(0)" "translateY(100%)"
  end.

Definition POSITIONS (side : DrawerSide) : list (string * string) :=
  match side with
  | left => [("top", "0"); ("left", "0"); ("bottom", "0"); ("width", "auto"); ("height", "100%")]
  | right => [("top", "0"); ("right", "0"); ("bottom", "0"); ("width", "auto"); ("height", "100%")]
  | top => [("top", "0"); ("left", "0"); ("right", "0"); ("width", "100%"); ("height", "auto")]
  | bottom => [("bottom", "0"); ("left", "0"); ("right", "0"); ("width", "100%"); ("height", "auto")]
  end.

Record DrawerOptions := mkOptions {
  side : DrawerSide;
  backdrop : bool;
  closeOnBackdrop : bool;
  closeOnEscape : bool;
  trapFocus : bool;
  animation : AnimationTiming;
  backdropBlur : bool;
  ariaLabel : option string;
  ariaLabelledBy : option string;
  onOpen : bool;
  onClose : bool;
}.

Definition defaultOptions : DrawerOptions :=
  mkOptions right true true true true normal true None None false false.

Record t := mk {
  options : DrawerOptions;
  element : Elem;
  isOpen : bool;
  backdropElement : option Elem;
  focusTrap : option FocusTrap.t;
  unlockScroll : option Unlock;
  cleanupListeners : list Registration;
  closeCalls : nat;
  onOpenCalls : nat;
  onCloseCalls : nat;
}.

Definition duration (d : t) : Z := ANIMATION_DURATION (animation (options d)).
Definition transforms (d : t) : Transform := TRANSFORMS (side (options d)).

Inductive Task :=
  | BackdropFrame         (* first requestAnimationFrame of animateIn *)
  | SlideFrame            (* second requestAnimationFrame of animateIn *)
  | ActivateTrap          (* setTimeout(() => focusTrap?.activate(), 50) *)
  | InitialFocusFrame     (* requestAnimationFrame of focusTrap.activate *)
  | CloseTail.            (* timer of animateOut, then the rest of close() *)

#[global] Instance Task_eq_dec : EqDecision Task.
Proof. solve_decision. Defined.

Record System := mkSystem {
  drawer : t;
  world : World;
  tasks : list Task;
}.

Definition set_isOpen (v : bool) (d : t) : t :=
  mk (options d) (element d) v (backdropElement d) (focusTrap d)
     (unlockScroll d) (cleanupListeners d) (closeCalls d) (onOpenCalls d)
     (onCloseCalls d).

Definition set_backdropElement (v : option Elem) (d : t) : t :=
  mk (options d) (element d) (isOpen d) v (focusTrap d)
     (unlockScroll d) (cleanupListeners d) (closeCalls d) (onOpenCalls d)
     (onCloseCalls d).

Definition set_focusTrap (v : option FocusTrap.t) (d : t) : t :=
  mk (options d) (element d) (isOpen d) (backdropElement d) v
     (unlockScroll d) (cleanupListeners d) (closeCalls d) (onOpenCalls d)
     (onCloseCalls d).

Definition set_unlockScroll (v : option Unlock) (d : t) : t :=
  mk (options d) (element d) (isOpen d) (backdropElement d) (focusTrap d)
     v (cleanupListeners d) (closeCalls d) (onOpenCalls d) (onCloseCalls d).

Definition set_cleanupListeners (v : list Registration) (d : t) : t :=
  mk (options d) (element d) (isOpen d) (backdropElement d) (focusTrap d)
     (unlockScroll d) v (closeCalls d) (onOpenCalls d) (onCloseCalls d).

Definition count_close (d : t) : t :=
  mk (options d) (element d) (isOpen d) (backdropElement d) (focusTrap d)
     (unlockScroll d) (cleanupListeners d) (S (closeCalls d)) (onOpenCalls d)
     (onCloseCalls d).

Definition call_onOpen (d : t) : t :=
  mk (options d) (element d) (isOpen d) (backdropElement d) (focusTrap d)
     (unlockScroll d) (cleanupListeners d) (closeCalls d)
     (if onOpen (options d) then S (onOpenCalls d) else onOpenCalls d)
     (onCloseCalls d).

Definition call_onClose (d : t) : t :=
  mk (options d) (element d) (isOpen d) (backdropElement d) (focusTrap d)
     (unlockScroll d) (cleanupListeners d) (closeCalls d) (onOpenCalls d)
     (if onClose (options d) then S (onCloseCalls d) else onCloseCalls d).

(** [createDrawer(element, options)] in a browser ([None]: the inert
    object of the SSR guard). *)
Definition createDrawer (element : Elem) (options : DrawerOptions) (w : World)
    : option System :=
  if negb (isBrowser w) then None
  else
    let '(drawerId, w) := generateId "drawer" w in
    let ariaAttrs := getDrawerAriaAttributes (ariaLabelledBy options) in
    let w := setAttribute element "id"
               (if bool_decide (idOf element w = EmptyString) then drawerId
                else idOf element w) w in
    let w := setAttributes element ariaAttrs w in
    let w := match ariaLabel options with
             | Some l => if truthy (Some l)
                         then setAttribute element "aria-label" l w else w
             | None => w
             end in
    let w := setAttribute element "aria-hidden" "true" w in
    let w := setProperty element "position" "fixed" w in
    let w := setProperty element "z-index" (pretty Z_INDEX.drawer) w in
    let w := setProperty element "transform" (closed (TRANSFORMS (side options))) w in
    let w := setProperty element "visibility" "hidden" w in
    let w := assignStyles element (POSITIONS (side options)) w in
    let focusTrap :=
      if trapFocus options then
        Some (FocusTrap.createFocusTrap element (Some FocusTrap.InitialFirst)
                (Some FocusTrap.ReturnPrevious) (closeOnEscape options))
      else None in
    Some (mkSystem (mk options element false None focusTrap None [] 0 0 0) w []).

Definition createBackdropElement (d : t) (w : World) : option Elem * World :=
  if negb (backdrop (options d)) then (None, w)
  else
    createElement "div" (Some "atlas-drawer-backdrop")
      [("data-atlas-drawer-backdrop", EmptyString);
       ("data-side", sideName (side (options d)));
       ("aria-hidden", "true")]
      [("position", "fixed");
       ("inset", "0");
       ("z-index", pretty (Z_INDEX.drawer - 1)%Z);
       ("background-color", "rgba(0, 0, 0, 0)");
       ("backdrop-filter", if backdropBlur (options d) then "blur(0px)" else "none");
       ("transition",
        "background-color " +:+ ms (duration d) +:+ " " +:+ EASING.standard
        +:+ ", backdrop-filter " +:+ ms (duration d) +:+ " " +:+ EASING.standard)]
      w.

Definition animateIn (s : System) : System :=
  let d := drawer s in
  let q := match backdropElement d with
           | Some _ => tasks s ++ [BackdropFrame]
           | None => tasks s
           end in
  let w := setProperty (element d) "transition"
             ("transform " +:+ ms (duration d) +:+ " " +:+ EASING.spring
              +:+ ", visibility 0ms") (world s) in
  let w := setProperty (element d) "visibility" "visible" w in
  mkSystem d w (q ++ [SlideFrame]).

Definition backdropFrame (s : System) : System :=
  let d := drawer s in
  match backdropElement d with
  | Some b =>
      let w := setProperty b "background-color" "rgba(0, 0, 0, 0.5)" (world s) in
      let w := if backdropBlur (options d)
               then setProperty b "backdrop-filter" "blur(4px)" w else w in
      mkSystem d w (tasks s)
  | None => s
  end.

Definition slideFrame (s : System) : System :=
  mkSystem (drawer s)
    (setProperty (element (drawer s)) "transform" (opened (transforms (drawer s))) (world s))
    (tasks s).

(** The synchronous part of [animateOut()]. *)
Definition animateOut (s : System) : System :=
  let d := drawer s in
  let w := world s in
  let w := match backdropElement d with
           | Some b =>
               let w := setProperty b "background-color" "rgba(0, 0, 0, 0)" w in
               if backdropBlur (options d)
               then setProperty b "backdrop-filter" "blur(0px)" w else w
           | None => w
           end in
  let w := setProperty (element d) "transition"
             ("transform " +:+ ms (duration d) +:+ " " +:+ EASING.accelerate
              +:+ ", visibility 0ms " +:+ ms (duration d)) w in
  let w := setProperty (element d) "transform" (closed (transforms d)) w in
  mkSystem d w (tasks s ++ [CloseTail]).

Definition activateTrap (s : System) : System :=
  match focusTrap (drawer s) with
  | Some tr =>
      let '(tr', w', frame) := FocusTrap.activate tr (world s) in
      mkSystem (set_focusTrap (Some tr') (drawer s)) w'
               (if frame then tasks s ++ [InitialFocusFrame] else tasks s)
  | None => s
  end.

Definition deactivateTrap (s : System) : System :=
  match focusTrap (drawer s) with
  | Some tr =>
      let '(tr', w') := FocusTrap.deactivate tr (world s) in
      mkSystem (set_focusTrap (Some tr') (drawer s)) w' (tasks s)
  | None => s
  end.

Definition open (s : System) : System :=
  let d := drawer s in
  if isOpen d then s
  else
    let d := set_isOpen true d in
    let w := world s in
    let '(u, w) := lockScroll w in
    let d := set_unlockScroll (Some u) d in
    let '(d, w) :=
      if backdrop (options d) then
        let '(b, w) := createBackdropElement d w in
        let d := set_backdropElement b d in
        match b with
        | Some b =>
            let w := appendToBody b w in
            if closeOnBackdrop (options d) then
              let '(c, w) := addListener (Node b) click OverlayBackdropClick w in
              (set_cleanupListeners (cleanupListeners d ++ [c]) d, w)
            else (d, w)
        | None => (d, w)
        end
      else (d, w) in
    let w := setAttribute (element d) "aria-hidden" "false" w in
    let '(d, w) :=
      if closeOnEscape (options d) && negb (trapFocus (options d)) then
        let '(c, w) := addListener Document keydown OverlayEscapeKey w in
        (set_cleanupListeners (cleanupListeners d ++ [c]) d, w)
      else (d, w) in
    let s := animateIn (mkSystem d w (tasks s)) in
    (* Activate focus trap after animation starts *)
    let s := mkSystem (drawer s) (world s) (tasks s ++ [ActivateTrap]) in
    let w := announce (sideName (side (options d)) +:+ " drawer opened") (world s) in
    mkSystem (call_onOpen (drawer s)) w (tasks s).

Definition close (s : System) : System :=
  let s := mkSystem (count_close (drawer s)) (world s) (tasks s) in
  if negb (isOpen (drawer s)) then s
  else
    let s := mkSystem (set_isOpen false (drawer s)) (world s) (tasks s) in
    let s := deactivateTrap s in
    animateOut s.

(** The timer callback of [animateOut] and the rest of [close()]. *)
Definition closeTail (s : System) : System :=
  let d := drawer s in
  let w := world s in
  let w := setProperty (element d) "visibility" "hidden" w in
  let w := setAttribute (element d) "aria-hidden" "true" w in
  let '(d, w) := match backdropElement d with
                 | Some b => (set_backdropElement None d, remove b w)
                 | None => (d, w)
                 end in
  let w := runCleanups (cleanupListeners d) w in
  let d := set_cleanupListeners [] d in
  let w := match unlockScroll d with
           | Some u => unlock u w
           | None => w
           end in
  let d := set_unlockScroll None d in
  let w := announce "Drawer closed" w in
  mkSystem (call_onClose d) w (tasks s).

Definition toggle (s : System) : System :=
  if isOpen (drawer s) then close s else open s.

Definition update (s : System) : System :=
  match focusTrap (drawer s) with
  | Some tr =>
      mkSystem (set_focusTrap (Some (FocusTrap.updateElements tr (world s))) (drawer s))
               (world s) (tasks s)
  | None => s
  end.

Definition destroy (s : System) : System :=
  let s :=
    if isOpen (drawer s) then
      let s := deactivateTrap s in
      let d := drawer s in
      let w := world s in
      let w := setProperty (element d) "visibility" "hidden" w in
      let w := setProperty (element d) "transform" (closed (transforms d)) w in
      let w := setAttribute (element d) "aria-hidden" "true" w in
      let w := match backdropElement d with
               | Some b => remove b w
               | None => w
               end in
      let w := runCleanups (cleanupListeners d) w in
      let w := match unlockScroll d with
               | Some u => unlock u w
               | None => w
               end in
      mkSystem d w (tasks s)
    else s in
  let w := removeAttribute (element (drawer s)) "aria-modal" (world s) in
  let w := removeAttribute (element (drawer s)) "aria-hidden" w in
  mkSystem (drawer s) w (tasks s).

Definition handleBackdropClick (target : Elem) (s : System) : System :=
  if closeOnBackdrop (options (drawer s))
     && bool_decide (Some target = backdropElement (drawer s))
  then close s else s.

Definition handleEscapeKey (e : FocusTrap.KeyboardEvent) (s : System) : System :=
  if closeOnEscape (options (drawer s))
     && bool_decide (FocusTrap.key e = "Escape")
     && isOpen (drawer s)
  then close s
  else s.

Definition runTask (task : Task) (s : System) : Completion System :=
  match task with
  | BackdropFrame => Normal (backdropFrame s)
  | SlideFrame => Normal (slideFrame s)
  | ActivateTrap => Normal (activateTrap s)
  | InitialFocusFrame =>
      match focusTrap (drawer s) with
      | Some tr =>
          w' ← FocusTrap.initialFocusFrame tr (world s);
          Normal (mkSystem (drawer s) w' (tasks s))
      | None => Normal s
      end
  | CloseTail => Normal (closeTail s)
  end.

End Drawer.

(** ** Dropdown (dropdown/index.ts) *)
Module Dropdown.
Import Dom Shared.

Inductive Placement := top | bottom | left | right.

Definition TRANSFORM_ORIGINS (p : Placement) : string :=
  match p with
  | top => "bottom center"
  | bottom => "top center"
  | left => "right center"
  | right => "left center"
  end.

Record DropdownOptions := mkOptions {
  placement : Placement;
  closeOnClickOutside : bool;
  closeOnSelect : bool;
  animation : AnimationTiming;
  offset : Z;
  onOpen : bool;
  onClose : bool;
  onSelect : bool;
}.

Definition defaultOptions : DropdownOptions :=
  mkOptions bottom true true fast 4 false false false.

(** The [top] and [left] pixel strings [positionMenu] derives from the
    bounding rectangles of trigger and menu, the placement, the offset
    and the viewport; layout is the browser's, so they come with the call. *)
Record Position := mkPosition { pos_top : string; pos_left : string }.

Record t := mk {
  options : DropdownOptions;
  trigger : Elem;
  menu : Elem;
  triggerId : string;
  menuId : string;
  isOpen : bool;
  focusedIndex : Z;
  menuItems : list Elem;
  cleanupListeners : list Registration;
  triggerClickCleanup : Registration;
  triggerKeydownCleanup : Registration;
  closeCalls : nat;
  onOpenCalls : nat;
  onCloseCalls : nat;
  onSelectCalls : list (Elem * Z);      (* arguments of each onSelect call *)
}.

Definition duration (d : t) : Z := ANIMATION_DURATION (animation (options d)).

Inductive Task :=
  | AnimateInFrame
  | FocusFirstTimer       (* setTimeout(() => focusItem(0), 50) *)
  | FocusLastTimer        (* setTimeout(() => focusItem(menuItems.length - 1), 50) *)
  | CloseTail.            (* timer of animateOut, then onClose *)

#[global] Instance Task_eq_dec : EqDecision Task.
Proof. solve_decision. Defined.

Record System := mkSystem {
  dropdown : t;
  world : World;
  tasks : list Task;
}.

Definition set_isOpen (v : bool) (d : t) : t :=
  mk (options d) (trigger d) (menu d) (triggerId d) (menuId d) v
     (focusedIndex d) (menuItems d) (cleanupListeners d)
     (triggerClickCleanup d) (triggerKeydownCleanup d)
     (closeCalls d) (onOpenCalls d) (onCloseCalls d) (onSelectCalls d).

Definition set_focusedIndex (v : Z) (d : t) : t :=
  mk (options d) (trigger d) (menu d) (triggerId d) (menuId d) (isOpen d)
     v (menuItems d) (cleanupListeners d)
     (triggerClickCleanup d) (triggerKeydownCleanup d)
     (closeCalls d) (onOpenCalls d) (onCloseCalls d) (onSelectCalls d).

Definition set_menuItems (v : list Elem) (d : t) : t :=
  mk (options d) (trigger d) (menu d) (triggerId d) (menuId d) (isOpen d)
     (focusedIndex d) v (cleanupListeners d)
     (triggerClickCleanup d) (triggerKeydownCleanup d)
     (closeCalls d) (onOpenCalls d) (onCloseCalls d) (onSelectCalls d).

Definition set_cleanupListeners (v : list Registration) (d : t) : t :=
  mk (options d) (trigger d) (menu d) (triggerId d) (menuId d) (isOpen d)
     (focusedIndex d) (menuItems d) v
     (triggerClickCleanup d) (triggerKeydownCleanup d)
     (closeCalls d) (onOpenCalls d) (onCloseCalls d) (onSelectCalls d).

Definition count_close (d : t) : t :=
  mk (options d) (trigger d) (menu d) (triggerId d) (menuId d) (isOpen d)
     (focusedIndex d) (menuItems d) (cleanupListeners d)
     (triggerClickCleanup d) (triggerKeydownCleanup d)
     (S (closeCalls d)) (onOpenCalls d) (onCloseCalls d) (onSelectCalls d).

Definition call_onOpen (d : t) : t :=
  mk (options d) (trigger d) (menu d) (triggerId d) (menuId d) (isOpen d)
     (focusedIndex d) (menuItems d) (cleanupListeners d)
     (triggerClickCleanup d) (triggerKeydownCleanup d)
     (closeCalls d)
     (if onOpen (options d) then S (onOpenCalls d) else onOpenCalls d)
     (onCloseCalls d) (onSelectCalls d).

Definition call_onClose (d : t) : t :=
  mk (options d) (trigger d) (menu d) (triggerId d) (menuId d) (isOpen d)
     (focusedIndex d) (menuItems d) (cleanupListeners d)
     (triggerClickCleanup d) (triggerKeydownCleanup d)
     (closeCalls d) (onOpenCalls d)
     (if onClose (options d) then S (onCloseCalls d) else onCloseCalls d)
     (onSelectCalls d).

Definition call_onSelect (item : Elem) (index : Z) (d : t) : t :=
  mk (options d) (trigger d) (menu d) (triggerId d) (menuId d) (isOpen d)
     (focusedIndex d) (menuItems d) (cleanupListeners d)
     (triggerClickCleanup d) (triggerKeydownCleanup d)
     (closeCalls d) (onOpenCalls d) (onCloseCalls d)
     (if onSelect (options d) then onSelectCalls d ++ [(item, index)]
      else onSelectCalls d).

Definition updateTriggerAria (d : t) (w : World) : World :=
  setAttributes (trigger d) (getDropdownTriggerAttributes (isOpen d) (menuId d)) w.

(** The selector ['[role="menuitem"], [data-dropdown-item]']. *)
Definition matchesMenuItem (e : Elem) (w : World) : bool :=
  bool_decide (getAttribute e "role" w = Some "menuitem")
  || hasAttribute e "data-dropdown-item" w.

Definition getMenuItems (d : t) (w : World) : list Elem :=
  filter (λ item, negb (hasAttribute item "disabled" w) = true
                  ∧ getAttribute item "aria-disabled" w ≠ Some "true")
    (filter (λ item, matchesMenuItem item w = true) (descendantsOf (menu d) w)).

(** Apply ARIA to one item: only the attributes it lacks. *)
Definition applyItemAria (w : World) (item : Elem) : World :=
  fold_left (λ w' '(k, v), if negb (hasAttribute item k w')
                           then setAttribute item k v w' else w')
            (getMenuItemAttributes false) w.

Definition updateMenuItems (d : t) (w : World) : t * World :=
  let items := getMenuItems d w in
  (set_menuItems items d, fold_left applyItemAria items w).

Definition positionMenu (pos : Position) (d : t) (w : World) : World :=
  let w := setProperty (menu d) "top" (pos_top pos) w in
  setProperty (menu d) "left" (pos_left pos) w.

(** [menuItems.forEach((item) => item.classList.remove(...))] *)
Definition clearFocusIndicators (d : t) (w : World) : World :=
  fold_left (λ w' item, classList_remove item "atlas-dropdown-focused" w')
            (menuItems d) w.

(** [arr[i]] for a numeric index: [undefined] outside the array. *)
Definition at_index (l : list Elem) (i : Z) : option Elem :=
  if bool_decide (i < 0)%Z then None else l !! Z.to_nat i.

Definition focusItem (index : Z) (s : System) : Completion System :=
  let d := dropdown s in
  if bool_decide (length (menuItems d) = 0) then Normal s
  else
    let len := Z.of_nat (length (menuItems d)) in
    (* Wrap around *)
    let index := if bool_decide (index < 0)%Z then (len - 1)%Z else index in
    let index := if bool_decide (index >= len)%Z then 0%Z else index in
    (* Remove previous focus indicator *)
    let w := clearFocusIndicators d (world s) in
    (* Focus new item *)
    let d := set_focusedIndex index d in
    match at_index (menuItems d) (focusedIndex d) with
    | Some item =>
        let w := classList_add item "atlas-dropdown-focused" w in
        Normal (mkSystem d (focus item w) (tasks s))
    | None => Throw
    end.

Definition animateIn (s : System) : System :=
  let d := dropdown s in
  let w := setProperty (menu d) "visibility" "visible" (world s) in
  let w := setProperty (menu d) "pointer-events" "auto" w in
  let w := setProperty (menu d) "transition"
             ("opacity " +:+ ms (duration d) +:+ " " +:+ EASING.decelerate
              +:+ ", transform " +:+ ms (duration d) +:+ " " +:+ EASING.spring) w in
  mkSystem d w (tasks s ++ [AnimateInFrame]).

Definition animateInFrame (s : System) : System :=
  let d := dropdown s in
  let w := setProperty (menu d) "opacity" "1" (world s) in
  let w := setProperty (menu d) "transform" "scale(1)" w in
  mkSystem d w (tasks s).

Definition animateOut (s : System) : System :=
  let d := dropdown s in
  let w := setProperty (menu d) "transition"
             ("opacity " +:+ ms (duration d) +:+ " " +:+ EASING.accelerate
              +:+ ", transform " +:+ ms (duration d) +:+ " " +:+ EASING.accelerate)
             (world s) in
  let w := setProperty (menu d) "opacity" "0" w in
  let w := setProperty (menu d) "transform" "scale(0.95)" w in
  mkSystem d w (tasks s ++ [CloseTail]).

Definition open (pos : Position) (s : System) : System :=
  let d := dropdown s in
  if isOpen d then s
  else
    let d := set_isOpen true d in
    (* Update items list *)
    let '(d, w) := updateMenuItems d (world s) in
    (* Reset focus *)
    let d := set_focusedIndex (-1) d in
    (* Update ARIA *)
    let w := updateTriggerAria d w in
    (* Position menu *)
    let w := positionMenu pos d w in
    (* Add listeners *)
    let '(c1, w) := addListener Document click DropdownClickOutside w in
    let '(c2, w) := addListener (Node (menu d)) keydown DropdownMenuKeyDown w in
    let '(c3, w) := addListener (Node (menu d)) click DropdownItemClick w in
    let d := set_cleanupListeners (cleanupListeners d ++ [c1; c2; c3]) d in
    (* Animate *)
    let s := animateIn (mkSystem d w (tasks s)) in
    mkSystem (call_onOpen (dropdown s)) (world s) (tasks s).

(** [close()] up to its [await]. *)
Definition close (s : System) : System :=
  let s := mkSystem (count_close (dropdown s)) (world s) (tasks s) in
  let d := dropdown s in
  if negb (isOpen d) then s
  else
    let d := set_isOpen false d in
    let w := updateTriggerAria d (world s) in
    let w := clearFocusIndicators d w in
    let d := set_focusedIndex (-1) d in
    let w := runCleanups (cleanupListeners d) w in
    let d := set_cleanupListeners [] d in
    animateOut (mkSystem d w (tasks s)).

(** The timer callback of [animateOut] and the rest of [close()]. *)
Definition closeTail (s : System) : System :=
  let d := dropdown s in
  let w := setProperty (menu d) "visibility" "hidden" (world s) in
  let w := setProperty (menu d) "pointer-events" "none" w in
  mkSystem (call_onClose d) w (tasks s).

Definition toggle (pos : Position) (s : System) : System :=
  if isOpen (dropdown s) then close s else open pos s.

(** [menuItems.indexOf(item)] *)
Fixpoint indexOf (item : Elem) (l : list Elem) : Z :=
  match l with
  | [] => -1
  | x :: l' =>
      if decide (x = item) then 0
      else let i := indexOf item l' in
           if bool_decide (i < 0)%Z then -1 else (i + 1)%Z
  end.

Definition selectItem (item : Elem) (s : System) : System :=
  let d := dropdown s in
  let index := indexOf item (menuItems d) in
  let s := mkSystem (call_onSelect item index d) (world s) (tasks s) in
  if closeOnSelect (options d) then close s else s.

(** The handler's result and whether it called [e.preventDefault()]. *)
Definition handleMenuKeyDown (e : FocusTrap.KeyboardEvent) (s : System)
    : Completion (System * bool) :=
  let d := dropdown s in
  let key := FocusTrap.key e in
  if bool_decide (key = "ArrowDown") then
    s' ← focusItem (focusedIndex d + 1) s; Normal (s', true)
  else if bool_decide (key = "ArrowUp") then
    s' ← focusItem (focusedIndex d - 1) s; Normal (s', true)
  else if bool_decide (key = "Home") then
    s' ← focusItem 0 s; Normal (s', true)
  else if bool_decide (key = "End") then
    s' ← focusItem (Z.of_nat (length (menuItems d)) - 1) s; Normal (s', true)
  else if bool_decide (key = "Enter") || bool_decide (key = " ") then
    match at_index (menuItems d) (focusedIndex d) with
    | Some item =>
        if bool_decide (focusedIndex d >= 0)%Z
        then Normal (selectItem item s, true) else Normal (s, true)
    | None => Normal (s, true)
    end
  else if bool_decide (key = "Escape") then
    let s := close s in
    Normal (mkSystem (dropdown s) (focus (trigger (dropdown s)) (world s)) (tasks s), true)
  else if bool_decide (key = "Tab") then
    (* Close on tab and let focus move naturally *)
    Normal (close s, false)
  else Normal (s, false).

Definition handleTriggerClick (pos : Position) (s : System) : System :=
  toggle pos s.

Definition handleTriggerKeyDown (pos : Position) (e : FocusTrap.KeyboardEvent)
    (s : System) : System * bool :=
  let key := FocusTrap.key e in
  if bool_decide (key = "Enter") || bool_decide (key = " ")
     || bool_decide (key = "ArrowDown") then
    if negb (isOpen (dropdown s)) then
      let s := open pos s in
      (mkSystem (dropdown s) (world s) (tasks s ++ [FocusFirstTimer]), true)
    else (s, true)
  else if bool_decide (key = "ArrowUp") then
    if negb (isOpen (dropdown s)) then
      let s := open pos s in
      (mkSystem (dropdown s) (world s) (tasks s ++ [FocusLastTimer]), true)
    else (s, true)
  else (s, false).

(** [closest] is [e.target.closest('[role="menuitem"], [data-dropdown-item]')]. *)
Definition handleItemClick (closest : option Elem) (s : System) : System :=
  match closest with
  | Some item =>
      if bool_decide (item ∈ menuItems (dropdown s)) then selectItem item s else s
  | None => s
  end.

Definition handleClickOutside (target : Elem) (s : System) : System :=
  let d := dropdown s in
  if closeOnClickOutside (options d)
     && negb (contains (trigger d) target (world s))
     && negb (contains (menu d) target (world s))
  then close s else s.

(** [destroy] as returned: [destroyWithTrigger]. *)
Definition destroy (s : System) : System :=
  let d := dropdown s in
  let w := cleanup (triggerClickCleanup d) (world s) in
  let w := cleanup (triggerKeydownCleanup d) w in
  let w :=
    if isOpen d then
      let w := setProperty (menu d) "visibility" "hidden" w in
      let w := setProperty (menu d) "pointer-events" "none" w in
      runCleanups (cleanupListeners d) w
    else w in
  let w := removeAttribute (trigger d) "aria-haspopup" w in
  let w := removeAttribute (trigger d) "aria-expanded" w in
  let w := removeAttribute (trigger d) "aria-controls" w in
  mkSystem d w (tasks s).

(** [createDropdown(trigger, menu, options)] in a browser. *)
Definition createDropdown (trigger menu : Elem) (options : DropdownOptions)
    (w : World) : option System :=
  if negb (isBrowser w) then None
  else
    let '(triggerId, w) :=
      if bool_decide (idOf trigger w = EmptyString)
      then generateId "dropdown-trigger" w else (idOf trigger w, w) in
    let '(menuId, w) :=
      if bool_decide (idOf menu w = EmptyString)
      then generateId "dropdown-menu" w else (idOf menu w, w) in
    let w := setAttribute trigger "id" triggerId w in
    let w := setAttribute menu "id" menuId w in
    let w := setAttributes menu (getDropdownMenuAttributes menuId triggerId) w in
    let w := setAttributes trigger (getDropdownTriggerAttributes false menuId) w in
    let w := setProperty menu "position" "absolute" w in
    let w := setProperty menu "z-index" (pretty Z_INDEX.dropdown) w in
    let w := setProperty menu "opacity" "0" w in
    let w := setProperty menu "transform" "scale(0.95)" w in
    let w := setProperty menu "transform-origin" (TRANSFORM_ORIGINS (placement options)) w in
    let w := setProperty menu "visibility" "hidden" w in
    let w := setProperty menu "pointer-events" "none" w in
    let '(c1, w) := addListener (Node trigger) click DropdownTriggerClick w in
    let '(c2, w) := addListener (Node trigger) keydown DropdownTriggerKeyDown w in
    Some (mkSystem
            (mk options trigger menu triggerId menuId false (-1) [] [] c1 c2 0 0 0 [])
            w []).

(** The registration of [handleMenuKeyDown] on the menu element. *)
Definition menuRegistration (s : System) : Registration :=
  mkReg (Node (menu (dropdown s))) keydown DropdownMenuKeyDown.

(** A keydown sent to the menu element reaches [handleMenuKeyDown] while
    the listener [open()] registered is in place. *)
Definition sendKeyToMenu (e : FocusTrap.KeyboardEvent) (s : System)
    : Completion System :=
  if bool_decide (menuRegistration s ∈ listeners (world s))
  then r ← handleMenuKeyDown e s; Normal r.1
  else Normal s.

Definition ArrowDown : FocusTrap.KeyboardEvent := FocusTrap.mkKey "ArrowDown" false.

(** Running a queued callback. *)
Definition runTask (task : Task) (s : System) : Completion System :=
  match task with
  | AnimateInFrame => Normal (animateInFrame s)
  | FocusFirstTimer => focusItem 0 s
  | FocusLastTimer =>
      focusItem (Z.of_nat (length (menuItems (dropdown s))) - 1) s
  | CloseTail => Normal (closeTail s)
  end.

End Dropdown.

(** ** Example pages *)
Module Examples.
Import Dom.

(** A browser page with no nodes of interest. *)
Definition blank : World :=
  mkWorld true None 0 0 EmptyString ∅ ∅ ∅ ∅ ∅ ∅ [] [] 100 0 [].

(** A page scrolled to 120px whose focused button 1 sits outside a
    dialog element 10 holding the buttons 11 and 12; 11 carries an
    inline opacity. *)
Definition page : World :=
  mkWorld true (Some 1%positive) 0 120 "margin: 0px;"
    {[ 11%positive := {[ "opacity" := "1" ]} ]}
    ∅ ∅
    {[ 1%positive := "button"; 10%positive := "div";
       11%positive := "button"; 12%positive := "button" ]}
    {[ 1%positive; 10%positive; 11%positive; 12%positive ]}
    {[ 10%positive := [11%positive; 12%positive] ]}
    [] [] 100 0 [].

(** The same page with the dialog emptied of focusable nodes. *)
Definition emptyDialogPage : World :=
  mkWorld true (Some 1%positive) 0 120 "margin: 0px;" ∅ ∅ ∅
    {[ 1%positive := "button"; 10%positive := "div" ]}
    {[ 1%positive; 10%positive ]}
    ∅ [] [] 100 0 [].

(** A page with a trigger button 2 and a menu 20 of three items, the
    first two marked by role and the third by data attribute. *)
Definition menuPage : World :=
  mkWorld true (Some 2%positive) 0 0 EmptyString ∅
    {[ 21%positive := {[ "role" := "menuitem" ]};
       22%positive := {[ "role" := "menuitem" ]};
       23%positive := {[ "data-dropdown-item" := "x" ]} ]}
    ∅
    {[ 2%positive := "button"; 20%positive := "div";
       21%positive := "div"; 22%positive := "div"; 23%positive := "div" ]}
    {[ 2%positive; 20%positive; 21%positive; 22%positive; 23%positive ]}
    {[ 20%positive := [21%positive; 22%positive; 23%positive] ]}
    [] [] 100 0 [].

(** A trap with the default policies on [page]'s dialog, activated. *)
Definition pageTrap : FocusTrap.t * World :=
  (FocusTrap.activate (FocusTrap.createFocusTrap 10 None None false) page).1.

(** The same on the page whose dialog has nothing to focus. *)
Definition emptyDialogTrap : FocusTrap.t * World :=
  (FocusTrap.activate (FocusTrap.createFocusTrap 10 None None false)
     emptyDialogPage).1.

Definition menuPosition : Dropdown.Position := Dropdown.mkPosition "48px" "8px".

(** A modal with every default on [page]'s dialog element. *)
Definition pageModal : Modal.System :=
  default (Modal.mkSystem
             (Modal.mk Modal.defaultOptions 10 false None None None [] 0 0 0)
             page [])
          (Modal.createModal 10 Modal.defaultOptions page).

Definition pageDrawer : Drawer.System :=
  default (Drawer.mkSystem
             (Drawer.mk Drawer.defaultOptions 10 false None None None [] 0 0 0)
             page [])
          (Drawer.createDrawer 10 Drawer.defaultOptions page).

Definition pageDropdown : Dropdown.System :=
  default (Dropdown.mkSystem
             (Dropdown.mk Dropdown.defaultOptions 2 20 EmptyString EmptyString
                false (-1) [] []
                (mkReg (Node 2) click DropdownTriggerClick)
                (mkReg (Node 2) keydown DropdownTriggerKeyDown) 0 0 0 [])
             menuPage [])
          (Dropdown.createDropdown 2 20 Dropdown.defaultOptions menuPage).

End Examples.

(** ** [ensurePositioned] (effects/utils/style) *)
Module StyleUtils.
Import Dom StyleManager.

(** The cleanup closure of [ensurePositioned]: [None] is the no-op,
    [Some originalValue] the one that writes the inline position back. *)
Definition PositionCleanup := option string.

(** [ensurePositioned(element)]; [computedPosition] is
    [window.getComputedStyle(element).position], which is the browser's. *)
Definition ensurePositioned (computedPosition : string) (element : Elem) (w : World)
    : PositionCleanup * World :=
  if bool_decide (computedPosition = "static") then
    let originalValue := getPropertyValue element "position" w in
    (Some originalValue, setProperty element "position" "relative" w)
  else (None, w).

Definition runPositionCleanup (element : Elem) (c : PositionCleanup) (w : World) : World :=
  match c with
  | Some originalValue => setProperty element "position" originalValue w
  | None => w
  end.

End StyleUtils.

(** ** What a component must leave behind *)
Module Page.
Import Dom.

(** The parts of the page an overlay borrows while it is open: focus, the
    children of the body, the body's inline style and the scroll offsets. *)
Definition layout (w : World)
    : option Elem * list Elem * string * Z * Z * Elem :=
  (activeElement w, bodyChildren w, bodyCssText w, scrollX w, scrollY w, nextId w).

End Page.

(** ** Whole open/close cycles of a modal *)
Module ModalCycle.
Import Dom Modal.

(** What of the page a cycle is accountable for. *)
Definition view (w : World)
    : bool * list Registration * (option Elem * list Elem * string * Z * Z * Elem) :=
  (isBrowser w, listeners w, Page.layout w).

(** The listeners an overlay registers for itself. *)
Definition own (r : Registration) : bool :=
  match reg_listener r with
  | TrapKeyDown | TrapFocusOut | OverlayBackdropClick | OverlayEscapeKey => true
  | _ => false
  end.

(** What each block of [open()] registers; [n] is the backdrop node. *)
Definition backdropListeners (o : ModalOptions) (n : Elem) : list Registration :=
  if backdrop o && closeOnBackdrop o
  then [mkReg (Node n) click OverlayBackdropClick] else [].

Definition escapeListeners (o : ModalOptions) : list Registration :=
  if closeOnEscape o && negb (trapFocus o) then [escapeRegistration] else [].

Definition trapListeners (ft : option FocusTrap.t) : list Registration :=
  match ft with
  | Some tr => [mkReg Document keydown TrapKeyDown;
                mkReg (Node (FocusTrap.container tr)) focusout TrapFocusOut]
  | None => []
  end.

(** A closed modal with nothing pending, on a page that holds none of its
    listeners, whose body children were all created before, and where
    some element has focus. *)
Definition idle (s : System) : Prop :=
  isBrowser (world s) = true
  ∧ isOpen (modal s) = false
  ∧ backdropElement (modal s) = None
  ∧ cleanupListeners (modal s) = []
  ∧ tasks s = []
  ∧ match focusTrap (modal s) with
    | Some tr =>
        FocusTrap.isActive tr = false
        ∧ FocusTrap.cleanupListeners tr = []
        ∧ FocusTrap.returnFocus tr = FocusTrap.ReturnPrevious
    | None => True
    end
  ∧ Forall (λ r, own r = false) (listeners (world s))
  ∧ Forall (λ b, (b < nextId (world s))%positive) (bodyChildren (world s))
  ∧ is_Some (activeElement (world s)).

(** What a cycle has to give back. *)
Definition footprint (s : System)
    : list Registration * option Elem * list Elem * string * Z :=
  (listeners (world s), activeElement (world s), bodyChildren (world s),
   bodyCssText (world s), scrollY (world s)).

(** One cycle: [open()], the two frames it asked for, [close()], and the
    rest of [close()] when the animation timer fires. *)
Definition cycle : list Event :=
  [Open; Run AnimateInFrame; Run InitialFocusFrame; Close; Run CloseTail].

Fixpoint cycles (n : nat) : list Event :=
  match n with
  | 0 => []
  | S n' => cycle ++ cycles n'
  end.

End ModalCycle.

(** ** Events on a modal just opened *)
Module ModalEvents.
Import Dom Modal.

(** The trap is there exactly when [trapFocus] is set, and calls
    [close()] on Escape exactly when [closeOnEscape] is set: what
    [createModal] builds. *)
Definition consistent (s : System) : Prop :=
  match focusTrap (modal s) with
  | Some tr =>
      trapFocus (options (modal s)) = true
      ∧ FocusTrap.onEscape tr = closeOnEscape (options (modal s))
  | None => trapFocus (options (modal s)) = false
  end.

Definition Escape : FocusTrap.KeyboardEvent := FocusTrap.mkKey "Escape" false.

End ModalEvents.

(** * Properties *)

(** ** Facts about [JsMap] *)
Section JsMapFacts.
Context {K V : Type} `{EqDecision K}.
Implicit Types (k : K) (v : V) (m : JsMap.t K V).
Import JsMap.

Lemma get_set_eq k v m : get k (set k v m) = Some v.
Proof.
  induction m as [|[k' v'] m IH]; simpl.
  - by rewrite decide_True.
  - destruct (decide (k' = k)) as [->|Hne]; simpl.
    + by rewrite decide_True.
    + by rewrite decide_False.
Qed.

Lemma get_set_ne k k' v m : k ≠ k' → get k' (set k v m) = get k' m.
Proof.
  intros Hne. induction m as [|[k0 v0] m IH]; simpl.
  - by rewrite decide_False.
  - destruct (decide (k0 = k)) as [->|Hne0]; simpl.
    + by rewrite !decide_False.
    + destruct (decide (k0 = k')); [done | exact IH].
Qed.

Lemma get_delete_eq k m : get k (delete k m) = None.
Proof.
  induction m as [|[k' v'] m IH]; simpl; [done|].
  destruct (decide (k' = k)); simpl; [done|]. by rewrite decide_False.
Qed.

Lemma get_delete_ne k k' m : k ≠ k' → get k' (delete k m) = get k' m.
Proof.
  intros Hne. induction m as [|[k0 v0] m IH]; simpl; [done|].
  destruct (decide (k0 = k)) as [->|Hne0]; simpl.
  - by rewrite decide_False.
  - by rewrite IH.
Qed.

Lemma delete_absent k m : get k m = None → delete k m = m.
Proof.
  induction m as [|[k' v'] m IH]; simpl; [done|].
  destruct (decide (k' = k)); [done|]. intros H. by rewrite IH.
Qed.

Lemma get_None_keys k m : get k m = None ↔ k ∉ keys m.
Proof.
  unfold keys. induction m as [|[k' v'] m IH]; simpl.
  - split; [intros _; apply not_elem_of_nil | done].
  - rewrite not_elem_of_cons. destruct (decide (k' = k)) as [->|Hne].
    + split; [done | by intros [? _]].
    + rewrite IH. split; [by intros ?; split | by intros [_ ?]].
Qed.

Lemma keys_set_present k v m :
  is_Some (get k m) → keys (set k v m) = keys m.
Proof.
  unfold keys. induction m as [|[k' v'] m IH]; simpl.
  - by intros [? ?].
  - destruct (decide (k' = k)) as [->|Hne]; simpl; [done|].
    intros H. f_equal. by apply IH.
Qed.

Lemma keys_set_absent k v m :
  get k m = None → keys (set k v m) = keys m ++ [k].
Proof.
  unfold keys. induction m as [|[k' v'] m IH]; simpl; [done|].
  destruct (decide (k' = k)); [done|]. intros H. simpl. f_equal. by apply IH.
Qed.

Lemma NoDup_keys_set k v m : NoDup (keys m) → NoDup (keys (set k v m)).
Proof.
  intros Hnd. destruct (get k m) as [v0|] eqn:Hg.
  - by rewrite keys_set_present.
  - rewrite keys_set_absent by done. apply NoDup_app. split; [done|].
    split; [|apply NoDup_singleton].
    intros x Hx ->%list_elem_of_singleton. by apply get_None_keys in Hg.
Qed.

Lemma keys_delete_subseteq k m : keys (delete k m) ⊆ keys m.
Proof.
  unfold keys. induction m as [|[k' v'] m IH]; simpl; [done|].
  destruct (decide (k' = k)); simpl.
  - intros x Hx. apply elem_of_cons. right. by apply IH.
  - intros x [->|Hx]%elem_of_cons; apply elem_of_cons; [by left|].
    right. by apply IH.
Qed.

Lemma NoDup_keys_delete k m : NoDup (keys m) → NoDup (keys (delete k m)).
Proof.
  unfold keys. induction m as [|[k' v'] m IH]; simpl; [done|].
  rewrite NoDup_cons. intros [Hk Hnd].
  destruct (decide (k' = k)); simpl; [by apply IH|].
  apply NoDup_cons. split; [|by apply IH].
  intros Hin. apply Hk. by apply (keys_delete_subseteq k m).
Qed.
End JsMapFacts.

(** ** Facts about inline styles *)
Section StyleFacts.
Import Dom.
Implicit Types (e : Elem) (p v : string) (w : World).

Lemma styleOf_set_inlineStyle_eq e d w :
  styleOf e (set_inlineStyle (<[e := d]> (inlineStyle w)) w) = d.
Proof. unfold styleOf. simpl. by rewrite lookup_insert_eq. Qed.

Lemma styleOf_set_inlineStyle_ne e e' d w :
  e ≠ e' → styleOf e' (set_inlineStyle (<[e := d]> (inlineStyle w)) w) = styleOf e' w.
Proof. intros Hne. unfold styleOf. simpl. by rewrite lookup_insert_ne. Qed.

Lemma styleOf_removeProperty e p w :
  styleOf e (removeProperty e p w) = delete p (styleOf e w).
Proof. apply styleOf_set_inlineStyle_eq. Qed.

Lemma getPropertyValue_removeProperty_eq e p w :
  getPropertyValue e p (removeProperty e p w) = EmptyString.
Proof.
  unfold getPropertyValue. by rewrite styleOf_removeProperty, lookup_delete_eq.
Qed.

Lemma getPropertyValue_removeProperty_ne e p q w :
  p ≠ q → getPropertyValue e q (removeProperty e p w) = getPropertyValue e q w.
Proof.
  intros Hne. unfold getPropertyValue.
  by rewrite styleOf_removeProperty, lookup_delete_ne.
Qed.

Lemma getPropertyValue_setProperty_eq e p v w :
  getPropertyValue e p (setProperty e p v w) = v.
Proof.
  unfold setProperty. destruct (decide (v = EmptyString)) as [->|Hv].
  - apply getPropertyValue_removeProperty_eq.
  - unfold getPropertyValue.
    by rewrite styleOf_set_inlineStyle_eq, lookup_insert_eq.
Qed.

Lemma getPropertyValue_setProperty_ne e p q v w :
  p ≠ q → getPropertyValue e q (setProperty e p v w) = getPropertyValue e q w.
Proof.
  intros Hne. unfold setProperty. destruct (decide (v = EmptyString)).
  - by apply getPropertyValue_removeProperty_ne.
  - unfold getPropertyValue.
    by rewrite styleOf_set_inlineStyle_eq, lookup_insert_ne.
Qed.
End StyleFacts.

(** ** StyleManager: records and restoration *)
Section StyleManagerFacts.
Import Dom StyleManager.
Implicit Types (e : Elem) (p v : string) (w : World) (sm : StyleManager.t).

Lemma writeBack_eq e p v w : getPropertyValue e p (writeBack e w (p, v)) = v.
Proof.
  simpl. destruct (decide (v = EmptyString)) as [->|Hv].
  - apply getPropertyValue_removeProperty_eq.
  - apply getPropertyValue_setProperty_eq.
Qed.

Lemma writeBack_ne e p q v w :
  p ≠ q → getPropertyValue e q (writeBack e w (p, v)) = getPropertyValue e q w.
Proof.
  intros Hne. simpl. destruct (decide (v = EmptyString)).
  - by apply getPropertyValue_removeProperty_ne.
  - by apply getPropertyValue_setProperty_ne.
Qed.

(** A written-back empty value leaves no declaration behind. *)
Lemma writeBack_empty_removed e p w :
  styleOf e (writeBack e w (p, EmptyString)) !! p = None.
Proof. simpl. by rewrite styleOf_removeProperty, lookup_delete_eq. Qed.

Lemma writeBack_styleOf_ne e p q v w :
  p ≠ q → styleOf e (writeBack e w (p, v)) !! q = styleOf e w !! q.
Proof.
  intros Hne. simpl. unfold setProperty.
  destruct (decide (v = EmptyString)).
  - by rewrite styleOf_removeProperty, lookup_delete_ne.
  - by rewrite styleOf_set_inlineStyle_eq, lookup_insert_ne.
Qed.

Lemma restore_loop_other e q (es : JsMap.t string string) w :
  q ∉ JsMap.keys es →
  styleOf e (fold_left (writeBack e) es w) !! q = styleOf e w !! q.
Proof.
  revert w. induction es as [|[p v] es IH]; intros w Hq; [done|].
  unfold JsMap.keys in *. simpl in *. apply not_elem_of_cons in Hq as [Hne Hq].
  rewrite IH by done. by apply writeBack_styleOf_ne.
Qed.

Lemma restore_loop_recorded e q v0 (es : JsMap.t string string) w :
  NoDup (JsMap.keys es) → JsMap.get q es = Some v0 →
  getPropertyValue e q (fold_left (writeBack e) es w) = v0
  ∧ (v0 = EmptyString → styleOf e (fold_left (writeBack e) es w) !! q = None).
Proof.
  revert w. induction es as [|[p v] es IH]; intros w Hnd Hget; [done|].
  unfold JsMap.keys in Hnd. simpl in Hnd, Hget. apply NoDup_cons in Hnd as [Hp Hnd].
  destruct (decide (p = q)) as [->|Hne].
  - injection Hget as ->. cbn [fold_left]. unfold getPropertyValue.
    rewrite restore_loop_other by done. split.
    + apply (writeBack_eq e q v0 w).
    + intros ->. apply writeBack_empty_removed.
  - cbn [fold_left]. by apply IH.
Qed.

Lemma recorded_saveStyle_first e p sm w :
  recorded e p sm = None →
  recorded e p (saveStyle e p sm w) = Some (getPropertyValue e p w).
Proof.
  unfold recorded, saveStyle, JsMap.has.
  destruct (JsMap.get e (originalStyles sm)) as [es|] eqn:He; simpl.
  - intros Hp. rewrite He, Hp. simpl. by rewrite !get_set_eq.
  - intros _. rewrite get_set_eq. simpl. rewrite get_set_eq. simpl.
    by rewrite decide_True.
Qed.

Lemma saveStyle_recorded_unchanged e p v0 sm w :
  recorded e p sm = Some v0 → saveStyle e p sm w = sm.
Proof.
  unfold recorded, saveStyle, JsMap.has.
  destruct (JsMap.get e (originalStyles sm)) as [es|] eqn:He; [|done].
  simpl. intros Hp. rewrite He, Hp. simpl. by destruct sm.
Qed.

Lemma wf_create : wf create.
Proof. split; [apply NoDup_nil_2 | apply Forall_nil_2]. Qed.

Lemma Forall_JsMap_set {A} (P : Elem * A → Prop) e (a : A) (m : JsMap.t Elem A) :
  P (e, a) → Forall P m → Forall P (JsMap.set e a m).
Proof.
  intros Ha. induction 1 as [|[e' a'] m Hx Hm IH]; simpl.
  - by apply Forall_singleton.
  - destruct (decide (e' = e)); by apply Forall_cons.
Qed.

Lemma Forall_JsMap_delete {A} (P : Elem * A → Prop) e (m : JsMap.t Elem A) :
  Forall P m → Forall P (JsMap.delete e m).
Proof.
  induction 1 as [|[e' a'] m Hx Hm IH]; simpl; [done|].
  destruct (decide (e' = e)); [done | by apply Forall_cons].
Qed.

Lemma Forall_JsMap_get {A} (P : Elem * A → Prop) e (a : A) (m : JsMap.t Elem A) :
  Forall P m → JsMap.get e m = Some a → P (e, a).
Proof.
  induction 1 as [|[e' a'] m Hx Hm IH]; simpl; [done|].
  destruct (decide (e' = e)) as [->|]; [by intros [= ->] | done].
Qed.

Lemma wf_saveStyle e p sm w : wf sm → wf (saveStyle e p sm w).
Proof.
  intros [Hout Hin]. unfold saveStyle, JsMap.has.
  set (originals := if negb _ then _ else _).
  assert (Hwf : wf (mk originals)).
  { subst originals. destruct (JsMap.get e (originalStyles sm)); simpl; [done|].
    split; simpl; [by apply NoDup_keys_set|].
    apply Forall_JsMap_set; [apply NoDup_nil_2 | done]. }
  destruct (JsMap.get e originals) as [es|] eqn:He; [|done].
  destruct (JsMap.get p es); simpl; [done|].
  destruct Hwf as [Hout' Hin']. split; simpl.
  - by apply NoDup_keys_set.
  - apply Forall_JsMap_set; [|done]. simpl. apply NoDup_keys_set.
    apply (Forall_JsMap_get _ _ _ _ Hin' He).
Qed.

Lemma wf_setStyle e p v sm w : wf sm → wf (setStyle e p v (sm, w)).1.
Proof. apply wf_saveStyle. Qed.

Lemma wf_setStyles e styles sm w : wf sm → wf (setStyles e styles (sm, w)).1.
Proof.
  unfold setStyles. revert sm w.
  induction styles as [|[p v] styles IH]; intros sm w Hwf; [done|].
  simpl. apply IH. by apply wf_saveStyle.
Qed.

Lemma wf_clear o sm : wf sm → wf (clear o sm).
Proof.
  intros [Hout Hin]. destruct o as [e|]; simpl.
  - split; simpl; [by apply NoDup_keys_delete | by apply Forall_JsMap_delete].
  - apply wf_create.
Qed.

Lemma wf_restore e sm w : wf sm → wf (restore e (sm, w)).1.
Proof.
  intros [Hout Hin]. unfold restore.
  destruct (JsMap.get e (originalStyles sm)); simpl; [|done].
  split; simpl; [by apply NoDup_keys_delete | by apply Forall_JsMap_delete].
Qed.

Lemma restore_clears e sm w :
  JsMap.get e (originalStyles (restore e (sm, w)).1) = None.
Proof.
  unfold restore. destruct (JsMap.get e (originalStyles sm)) eqn:He; simpl.
  - apply get_delete_eq.
  - done.
Qed.

Lemma restore_writes_back e q v0 sm w :
  wf sm → recorded e q sm = Some v0 →
  getPropertyValue e q (restore e (sm, w)).2 = v0
  ∧ (v0 = EmptyString → styleOf e (restore e (sm, w)).2 !! q = None).
Proof.
  intros [_ Hin]. unfold recorded, restore.
  destruct (JsMap.get e (originalStyles sm)) as [es|] eqn:He; [|done].
  simpl. apply restore_loop_recorded.
  apply (Forall_JsMap_get _ _ _ _ Hin He).
Qed.

Lemma restore_idempotent e (s : StyleManager.t * World) :
  restore e (restore e s) = restore e s.
Proof.
  destruct s as [sm w]. pose proof (restore_clears e sm w) as Hc.
  destruct (restore e (sm, w)) as [sm' w']. simpl in Hc.
  unfold restore at 1. by rewrite Hc.
Qed.

(** C5. The first [setStyle] on an (element, property) pair records the
    inline value found there and later calls leave that record alone;
    [restore] writes every recorded value back (an empty one by removing
    the declaration) and drops the element's record; hence two
    [setStyle]s on a fresh pair followed by [restore] give the property
    its value from before the first call (in particular for opacity with
    0.5 then 0.9), and a second [restore] changes nothing. *)
Theorem StyleManager_first_write_wins_and_restore
    (sm : StyleManager.t) (w : World) (el : Elem) (p v1 v2 : string) :
  wf sm →
  (recorded el p sm = None →
     recorded el p (setStyle el p v1 (sm, w)).1 = Some (getPropertyValue el p w))
  ∧ (∀ v0, recorded el p sm = Some v0 →
       recorded el p (setStyle el p v1 (sm, w)).1 = Some v0)
  ∧ (∀ q v0, recorded el q sm = Some v0 →
       getPropertyValue el q (restore el (sm, w)).2 = v0
       ∧ (v0 = EmptyString → styleOf el (restore el (sm, w)).2 !! q = None))
  ∧ JsMap.get el (originalStyles (restore el (sm, w)).1) = None
  ∧ (recorded el p sm = None →
       getPropertyValue el p
         (restore el (setStyle el p v2 (setStyle el p v1 (sm, w)))).2
       = getPropertyValue el p w)
  ∧ (recorded el "opacity" sm = None →
       getPropertyValue el "opacity"
         (restore el (setStyle el "opacity" "0.9"
                        (setStyle el "opacity" "0.5" (sm, w)))).2
       = getPropertyValue el "opacity" w)
  ∧ (∀ s, restore el (restore el s) = restore el s).
Proof.
  intros Hwf.
  assert (Hscenario : ∀ q u1 u2, recorded el q sm = None →
    getPropertyValue el q
      (restore el (setStyle el q u2 (setStyle el q u1 (sm, w)))).2
    = getPropertyValue el q w).
  { intros q u1 u2 Hnone.
    pose proof (recorded_saveStyle_first el q sm w Hnone) as Hrec.
    pose proof (wf_saveStyle el q sm w Hwf) as Hwf1.
    unfold setStyle at 2. unfold setStyle.
    rewrite (saveStyle_recorded_unchanged _ _ _ _ _ Hrec).
    by apply restore_writes_back. }
  split; [apply recorded_saveStyle_first|].
  split.
  { intros v0 Hrec. simpl.
    by rewrite (saveStyle_recorded_unchanged _ _ _ _ _ Hrec). }
  split; [intros q v0; by apply restore_writes_back|].
  split; [apply restore_clears|].
  split; [apply Hscenario|].
  split; [apply Hscenario|].
  apply restore_idempotent.
Qed.

(** C5 for a fresh manager and the button whose inline opacity is 1. *)
Lemma StyleManager_first_write_wins_and_restore_witness :
  wf create
  ∧ getPropertyValue 11 "opacity" Examples.page = "1"
  ∧ getPropertyValue 11 "opacity"
      (restore 11 (setStyle 11 "opacity" "0.9"
                     (setStyle 11 "opacity" "0.5" (create, Examples.page)))).2
    = getPropertyValue 11 "opacity" Examples.page.
Proof.
  assert (Hwf : wf create) by (split; constructor).
  split; [exact Hwf|]. split; [reflexivity|].
  destruct (StyleManager_first_write_wins_and_restore create Examples.page 11
              "opacity" "0.5" "0.9" Hwf) as (_ & _ & _ & _ & _ & Hopacity & _).
  exact (Hopacity eq_refl).
Defined.
End StyleManagerFacts.

(** ** Focus trap: Tab cycling *)
Section FocusTrapFacts.
Import Dom FocusTrap.
Implicit Types (w : World) (e : KeyboardEvent).

Lemma strictEq_Some_true (a : option Elem) (x : Elem) :
  strictEq a (Some x) = true ↔ a = Some x.
Proof.
  destruct a as [y|]; simpl; [|done].
  rewrite bool_decide_eq_true. split; congruence.
Qed.

Lemma strictEq_Some_false (a : option Elem) (x : Elem) :
  strictEq a (Some x) = false ↔ a ≠ Some x.
Proof.
  rewrite <- not_true_iff_false. by rewrite strictEq_Some_true.
Qed.

(** The Tab branch of [handleKeyDown], by cases on the list it has just
    re-read from the container. *)
Lemma handleKeyDown_Tab (t0 : FocusTrap.t) w (shift : bool) :
  isActive t0 = true →
  handleKeyDown (mkKey "Tab" shift) t0 w =
    let l := getFocusableElements (container t0) w in
    let t1 := updateElements t0 w in
    match head l, last l with
    | Some firstElement, Some lastElement =>
        if negb (isBrowser w) then Normal (t1, w, noEffects)
        else if shift then
          if strictEq (activeElement w) (Some firstElement)
             || strictEq (activeElement w) (Some (container t0))
          then Normal (t1, focus lastElement w, prevented)
          else Normal (t1, w, noEffects)
        else
          if strictEq (activeElement w) (Some lastElement)
          then Normal (t1, focus firstElement w, prevented)
          else Normal (t1, w, noEffects)
    | _, _ => Normal (t1, w, prevented)
    end.
Proof.
  intros Hact. unfold handleKeyDown. rewrite Hact. simpl.
  rewrite last_lookup, head_lookup.
  replace (Init.Nat.pred (length (getFocusableElements (container t0) w)))
    with (length (getFocusableElements (container t0) w) - 1) by lia.
  destruct (getFocusableElements (container t0) w) as [|x l] eqn:Hl; [done|].
  rewrite bool_decide_eq_false_2 by (simpl; lia).
  destruct (lookup_lt_is_Some_2 (x :: l) (length (x :: l) - 1)) as [y Hy];
    [simpl; lia|].
  rewrite Hy. cbn [lookup list_lookup]. unfold getDocument.
  destruct (isBrowser w); [|done]. simpl.
  destruct shift; by repeat case_match.
Qed.

Lemma handleKeyDown_returns e (t0 : FocusTrap.t) w :
  ∃ t1 w1 eff, handleKeyDown e t0 w = Normal (t1, w1, eff)
    ∧ isActive t1 = isActive t0
    ∧ previouslyFocused t1 = previouslyFocused t0
    ∧ returnFocus t1 = returnFocus t0
    ∧ container t1 = container t0
    ∧ isBrowser w1 = isBrowser w.
Proof.
  destruct (isActive t0) eqn:Hact.
  - destruct (decide (key e = "Tab")) as [Htab|Hntab].
    + destruct e as [k shift]. simpl in Htab. subst k.
      rewrite handleKeyDown_Tab by done. cbv zeta.
      repeat case_match; eexists _, _, _; (split; [reflexivity|]); by simpl.
    + unfold handleKeyDown. rewrite Hact. simpl.
      rewrite (bool_decide_eq_false_2 (key e = "Tab")) by done.
      case_bool_decide; eexists _, _, _; (split; [reflexivity|]); by simpl.
  - unfold handleKeyDown. rewrite Hact. simpl.
    eexists _, _, _; (split; [reflexivity|]); by simpl.
Qed.

(** C3. With the trap active over a container that has a first and a
    last focusable descendant: Tab on the last one is prevented and
    focuses the first; Shift+Tab on the first one, or on the container,
    is prevented and focuses the last; a Tab anywhere else is neither
    prevented nor does the handler move focus. *)
Theorem FocusTrap_tab_wraps_at_the_ends
    (t0 : FocusTrap.t) (w : World) (firstElement lastElement : Elem) :
  isActive t0 = true →
  isBrowser w = true →
  head (getFocusableElements (container t0) w) = Some firstElement →
  last (getFocusableElements (container t0) w) = Some lastElement →
  (activeElement w = Some lastElement →
     ∃ t1 w1, handleKeyDown (mkKey "Tab" false) t0 w = Normal (t1, w1, prevented)
       ∧ activeElement w1 = Some firstElement)
  ∧ (activeElement w = Some firstElement ∨ activeElement w = Some (container t0) →
     ∃ t1 w1, handleKeyDown (mkKey "Tab" true) t0 w = Normal (t1, w1, prevented)
       ∧ activeElement w1 = Some lastElement)
  ∧ (activeElement w ≠ Some lastElement →
     ∃ t1, handleKeyDown (mkKey "Tab" false) t0 w = Normal (t1, w, noEffects))
  ∧ (activeElement w ≠ Some firstElement →
     activeElement w ≠ Some (container t0) →
     ∃ t1, handleKeyDown (mkKey "Tab" true) t0 w = Normal (t1, w, noEffects)).
Proof.
  intros Hact Hb Hfirst Hlast.
  rewrite !handleKeyDown_Tab by done. cbv zeta. rewrite Hfirst, Hlast, Hb. simpl.
  repeat split.
  - intros Ha. apply strictEq_Some_true in Ha. rewrite Ha. by eexists _, _.
  - intros [Ha|Ha]; apply strictEq_Some_true in Ha; rewrite Ha;
      rewrite ?orb_true_r; by eexists _, _.
  - intros Ha. apply strictEq_Some_false in Ha. rewrite Ha. by eexists.
  - intros Ha Hc. apply strictEq_Some_false in Ha, Hc. rewrite Ha, Hc. by eexists.
Qed.

(** C3 on the example page, with focus on the last button of the dialog. *)
Lemma FocusTrap_tab_wraps_at_the_ends_witness :
  let tr := Examples.pageTrap.1 in
  let w := focus 12 Examples.pageTrap.2 in
  isActive tr = true
  ∧ isBrowser w = true
  ∧ head (getFocusableElements (container tr) w) = Some 11%positive
  ∧ last (getFocusableElements (container tr) w) = Some 12%positive
  ∧ ∃ t1 w1, handleKeyDown (mkKey "Tab" false) tr w = Normal (t1, w1, prevented)
      ∧ activeElement w1 = Some 11%positive.
Proof.
  intros tr w.
  assert (Hfirst : head (getFocusableElements (container tr) w) = Some 11%positive)
    by (vm_compute; reflexivity).
  assert (Hlast : last (getFocusableElements (container tr) w) = Some 12%positive)
    by (vm_compute; reflexivity).
  split; [reflexivity|]. split; [reflexivity|].
  split; [exact Hfirst|]. split; [exact Hlast|].
  exact (proj1 (FocusTrap_tab_wraps_at_the_ends tr w 11 12 eq_refl eq_refl
                  Hfirst Hlast) eq_refl).
Defined.

(** C8. With the trap active over a container that has no focusable
    descendant, a Tab keydown, shifted or not, returns normally with its
    default prevented and the world, so also the focus, as it was. *)
Theorem FocusTrap_tab_swallowed_on_empty_list
    (t0 : FocusTrap.t) (w : World) (shift : bool) :
  isActive t0 = true →
  getFocusableElements (container t0) w = [] →
  handleKeyDown (mkKey "Tab" shift) t0 w
  = Normal (updateElements t0 w, w, mkEffects true false).
Proof.
  intros Hact Hempty. rewrite handleKeyDown_Tab by done. cbv zeta.
  by rewrite Hempty.
Qed.

(** C8 on the example page whose dialog holds nothing focusable. *)
Lemma FocusTrap_tab_swallowed_on_empty_list_witness :
  isActive Examples.emptyDialogTrap.1 = true
  ∧ getFocusableElements (container Examples.emptyDialogTrap.1)
      Examples.emptyDialogTrap.2 = []
  ∧ handleKeyDown (mkKey "Tab" true) Examples.emptyDialogTrap.1
      Examples.emptyDialogTrap.2
    = Normal (updateElements Examples.emptyDialogTrap.1 Examples.emptyDialogTrap.2,
              Examples.emptyDialogTrap.2, mkEffects true false).
Proof.
  assert (He : getFocusableElements (container Examples.emptyDialogTrap.1)
                 Examples.emptyDialogTrap.2 = []) by (vm_compute; reflexivity).
  split; [reflexivity|]. split; [exact He|].
  exact (FocusTrap_tab_swallowed_on_empty_list Examples.emptyDialogTrap.1
           Examples.emptyDialogTrap.2 true eq_refl He).
Defined.

(** C10. A Tab keydown on an active trap reads the focusable list from
    the container as it is now: whatever snapshot the trap held, the
    handler's outcome is the same, the wrap-around is computed on the
    fresh list, and the trap leaves holding that fresh list. *)
Theorem FocusTrap_tab_resnapshots
    (t0 : FocusTrap.t) (w : World) (shift : bool) (stale : list Elem) :
  isActive t0 = true →
  handleKeyDown (mkKey "Tab" shift) (set_focusableElements stale t0) w
    = handleKeyDown (mkKey "Tab" shift) t0 w
  ∧ handleKeyDown (mkKey "Tab" shift) t0 w
    = handleKeyDown (mkKey "Tab" shift) (updateElements t0 w) w
  ∧ ∃ w1 eff,
      handleKeyDown (mkKey "Tab" shift) (set_focusableElements stale t0) w
        = Normal (updateElements t0 w, w1, eff)
      ∧ focusableElements (updateElements t0 w)
        = getFocusableElements (container t0) w.
Proof.
  intros Hact.
  assert (Hstale : ∀ l, handleKeyDown (mkKey "Tab" shift) (set_focusableElements l t0) w
                        = handleKeyDown (mkKey "Tab" shift) t0 w).
  { intros l. by rewrite !handleKeyDown_Tab. }
  split; [apply Hstale|]. split; [symmetry; apply Hstale|].
  rewrite Hstale, handleKeyDown_Tab by done. cbv zeta.
  repeat case_match; by eexists _, _.
Qed.

(** C10 on the example page, for a trap holding a stale snapshot. *)
Lemma FocusTrap_tab_resnapshots_witness :
  isActive Examples.pageTrap.1 = true
  ∧ handleKeyDown (mkKey "Tab" false)
      (set_focusableElements [99%positive] Examples.pageTrap.1)
      (focus 12 Examples.pageTrap.2)
    = handleKeyDown (mkKey "Tab" false) Examples.pageTrap.1
        (focus 12 Examples.pageTrap.2).
Proof.
  split; [reflexivity|].
  exact (proj1 (FocusTrap_tab_resnapshots Examples.pageTrap.1
                  (focus 12 Examples.pageTrap.2) false [99%positive] eq_refl)).
Defined.
End FocusTrapFacts.

(** ** Focus trap: returning focus *)
Section FocusTrapReturn.
Import Dom FocusTrap.
Implicit Types (w : World) (evs : list Event).

Lemma initialFocusFrame_returns (tr : FocusTrap.t) w :
  ∃ w1, initialFocusFrame tr w = Normal w1.
Proof.
  unfold initialFocusFrame. destruct (initialFocus tr); [|by eexists..].
  case_bool_decide as Hlen; [|by eexists].
  destruct (lookup_lt_is_Some_2 (focusableElements tr) 0 Hlen) as [x Hx].
  rewrite Hx. by eexists.
Qed.

Lemma step_keeps_returnTarget (ev : Event) (tr : FocusTrap.t) w :
  isActive tr = true →
  ∃ tr1 w1, step ev (tr, w) = Normal (tr1, w1) ∧ returnTarget tr1 = returnTarget tr.
Proof.
  intros Hact. destruct ev as [e|related| | | |target]; simpl.
  - destruct (handleKeyDown_returns e tr w)
      as (tr1 & w1 & eff & -> & Ha & Hp & Hr & _).
    eexists _, _. split; [reflexivity|]. unfold returnTarget. simpl. congruence.
  - unfold handleFocusOut. rewrite Hact. simpl.
    destruct related as [r|]; [destruct (contains _ _ _)|]; by eexists _, _.
  - destruct (initialFocusFrame_returns tr w) as [w1 ->]. by eexists _, _.
  - by eexists _, _.
  - unfold activate. rewrite Hact. by eexists _, _.
  - by eexists _, _.
Qed.

Lemma run_keeps_returnTarget evs (tr : FocusTrap.t) w :
  isActive tr = true →
  ∃ tr1 w1, run evs (tr, w) = Normal (tr1, w1) ∧ returnTarget tr1 = returnTarget tr.
Proof.
  revert tr w. induction evs as [|ev evs IH]; intros tr w Hact.
  - by eexists _, _.
  - destruct (step_keeps_returnTarget ev tr w Hact) as (tr1 & w1 & Hstep & Hrt).
    cbn [run]. rewrite Hstep. simpl.
    assert (isActive tr1 = true) as Hact1
      by (unfold returnTarget in Hrt; congruence).
    destruct (IH tr1 w1 Hact1) as (tr2 & w2 & Hrun & Hrt2).
    eexists _, _. split; [exact Hrun | congruence].
Qed.

Lemma activate_snapshots (tr : FocusTrap.t) w :
  isActive tr = false → isBrowser w = true →
  returnTarget (activate tr w).1.1 = (true, activeElement w, returnFocus tr).
Proof.
  intros Hact Hb. unfold activate, getDocument. rewrite Hact, Hb. by simpl.
Qed.

Lemma deactivate_returns_focus (tr : FocusTrap.t) w (E : Elem) :
  returnTarget tr = (true, Some E, ReturnPrevious) →
  activeElement (deactivate tr w).2 = Some E
  ∧ isActive (deactivate tr w).1 = false.
Proof.
  unfold returnTarget. intros [= Hact Hprev Hret].
  unfold deactivate. rewrite Hact. simpl. by rewrite Hret, Hprev.
Qed.

Lemma deactivate_inactive (tr : FocusTrap.t) w :
  isActive tr = false → deactivate tr w = (tr, w).
Proof. intros Hact. unfold deactivate. by rewrite Hact. Qed.

(** C4. Activate an inactive trap whose return policy is 'previous'
    while E is the active element; let any keydowns, focusouts, the
    initial-focus frame, [updateElements()] calls, repeated [activate()]
    calls and focus moves happen; then [deactivate()] makes E the active
    element again and leaves the trap inactive. On an inactive trap
    [deactivate()] changes neither the trap nor the world. *)
Theorem FocusTrap_deactivate_returns_focus
    (tr : FocusTrap.t) (w : World) (E : Elem) (evs : list Event) :
  isBrowser w = true →
  isActive tr = false →
  returnFocus tr = ReturnPrevious →
  activeElement w = Some E →
  (∃ tr1 w1, run evs (activate tr w).1 = Normal (tr1, w1)
     ∧ activeElement (deactivate tr1 w1).2 = Some E
     ∧ isActive (deactivate tr1 w1).1 = false)
  ∧ (∀ w', deactivate tr w' = (tr, w')).
Proof.
  intros Hb Hact Hret HE. split; [|intros w'; by apply deactivate_inactive].
  pose proof (activate_snapshots tr w Hact Hb) as Hsnap.
  destruct (activate tr w) as [[tr0 w0] frame]. simpl in *.
  assert (isActive tr0 = true) as Hact0
    by (unfold returnTarget in Hsnap; congruence).
  destruct (run_keeps_returnTarget evs tr0 w0 Hact0) as (tr1 & w1 & Hrun & Hrt).
  exists tr1, w1. split; [exact Hrun|].
  apply deactivate_returns_focus. congruence.
Qed.

(** C4 on the example page: focus comes back to button 1. *)
Lemma FocusTrap_deactivate_returns_focus_witness :
  let tr := createFocusTrap 10 None None false in
  let evs := [Frame; KeyDown (mkKey "Tab" false); FocusMoves (Some 12%positive)] in
  isBrowser Examples.page = true
  ∧ isActive tr = false
  ∧ returnFocus tr = ReturnPrevious
  ∧ activeElement Examples.page = Some 1%positive
  ∧ ∃ tr1 w1, run evs (activate tr Examples.page).1 = Normal (tr1, w1)
      ∧ activeElement (deactivate tr1 w1).2 = Some 1%positive
      ∧ isActive (deactivate tr1 w1).1 = false.
Proof.
  intros tr evs. repeat (split; [reflexivity|]).
  exact (proj1 (FocusTrap_deactivate_returns_focus tr Examples.page 1 evs
                  eq_refl eq_refl eq_refl eq_refl)).
Defined.
End FocusTrapReturn.

(** ** The environment flag is never written *)
Section BrowserFrame.
Import Dom.
Implicit Types (w : World) (e : Elem).

Lemma isBrowser_removeProperty e p w :
  isBrowser (removeProperty e p w) = isBrowser w.
Proof. done. Qed.

Lemma isBrowser_setProperty e p v w :
  isBrowser (setProperty e p v w) = isBrowser w.
Proof. unfold setProperty. by case_decide. Qed.

Lemma isBrowser_assignStyles e styles w :
  isBrowser (assignStyles e styles w) = isBrowser w.
Proof.
  unfold assignStyles. revert w.
  induction styles as [|[p v] styles IH]; intros w; [done|].
  simpl. by rewrite IH, isBrowser_setProperty.
Qed.

Lemma isBrowser_setAttribute e k v w :
  isBrowser (setAttribute e k v w) = isBrowser w.
Proof. done. Qed.

Lemma isBrowser_removeAttribute e k w :
  isBrowser (removeAttribute e k w) = isBrowser w.
Proof. done. Qed.

Lemma isBrowser_setAttributes e kvs w :
  isBrowser (setAttributes e kvs w) = isBrowser w.
Proof.
  unfold setAttributes. revert w.
  induction kvs as [|[k v] kvs IH]; intros w; [done|].
  simpl. by rewrite IH.
Qed.

Lemma isBrowser_focus e w : isBrowser (focus e w) = isBrowser w.
Proof. done. Qed.

Lemma isBrowser_appendToBody e w : isBrowser (appendToBody e w) = isBrowser w.
Proof. done. Qed.

Lemma isBrowser_remove e w : isBrowser (remove e w) = isBrowser w.
Proof. done. Qed.

Lemma isBrowser_addListener tg ty h w :
  isBrowser (addListener tg ty h w).2 = isBrowser w.
Proof. unfold addListener. simpl. by case_bool_decide. Qed.

Lemma isBrowser_cleanup r w : isBrowser (cleanup r w) = isBrowser w.
Proof. done. Qed.

Lemma isBrowser_runCleanups rs w : isBrowser (runCleanups rs w) = isBrowser w.
Proof.
  unfold runCleanups. revert w. induction rs as [|r rs IH]; intros w; [done|].
  simpl. by rewrite IH.
Qed.

Lemma isBrowser_announce msg w : isBrowser (announce msg w) = isBrowser w.
Proof. unfold announce. by destruct (isBrowser w) eqn:Hb. Qed.

Lemma isBrowser_unlock u w : isBrowser (unlock u w) = isBrowser w.
Proof. by destruct u as [[y css]|]. Qed.

Lemma isBrowser_lockScroll w : isBrowser (lockScroll w).2 = isBrowser w.
Proof. unfold lockScroll, getDocument. by destruct (isBrowser w) eqn:Hb. Qed.

Lemma isBrowser_createElement tag cls attrs styles w :
  isBrowser (createElement tag cls attrs styles w).2 = isBrowser w.
Proof.
  unfold createElement, getDocument. destruct (isBrowser w) eqn:Hb; [|done].
  simpl. rewrite isBrowser_assignStyles, isBrowser_setAttributes.
  by destruct cls.
Qed.

Lemma createElement_browser tag cls attrs styles w :
  isBrowser w = true → (createElement tag cls attrs styles w).1 = Some (nextId w).
Proof. intros Hb. unfold createElement, getDocument. by rewrite Hb. Qed.

Lemma isBrowser_activate (tr : FocusTrap.t) w :
  isBrowser (FocusTrap.activate tr w).1.2 = isBrowser w.
Proof.
  unfold FocusTrap.activate, getDocument.
  destruct (FocusTrap.isActive tr); [done|].
  destruct (isBrowser w) eqn:Hb; [|done]. simpl.
  repeat case_bool_decide; by simpl.
Qed.

Lemma isBrowser_deactivate (tr : FocusTrap.t) w :
  isBrowser (FocusTrap.deactivate tr w).2 = isBrowser w.
Proof.
  unfold FocusTrap.deactivate. destruct (FocusTrap.isActive tr); [|done]. simpl.
  assert (Hw2 : ∀ c, isBrowser (if bool_decide (getAttribute c "tabindex"
      (runCleanups (FocusTrap.cleanupListeners (FocusTrap.set_isActive false tr)) w)
      = Some "-1")
    then removeAttribute c "tabindex"
           (runCleanups (FocusTrap.cleanupListeners (FocusTrap.set_isActive false tr)) w)
    else runCleanups (FocusTrap.cleanupListeners (FocusTrap.set_isActive false tr)) w)
    = isBrowser w).
  { intros c. case_bool_decide; simpl; apply isBrowser_runCleanups. }
  destruct (FocusTrap.returnFocus tr), (FocusTrap.previouslyFocused tr);
    simpl; apply Hw2.
Qed.

Lemma isBrowser_handleFocusOut related (tr : FocusTrap.t) w :
  isBrowser (FocusTrap.handleFocusOut related tr w).1.2 = isBrowser w.
Proof.
  unfold FocusTrap.handleFocusOut.
  destruct (FocusTrap.isActive tr); [|done]. simpl.
  destruct related as [r|]; [|done]. destruct (contains _ _ _); [done|].
  simpl. by destruct (FocusTrap.focusableElements tr !! 0).
Qed.

Lemma isBrowser_initialFocusFrame (tr : FocusTrap.t) w w1 :
  FocusTrap.initialFocusFrame tr w = Normal w1 → isBrowser w1 = isBrowser w.
Proof.
  unfold FocusTrap.initialFocusFrame, FocusTrap.focusOrThrow.
  destruct (FocusTrap.initialFocus tr); [|by intros [= <-]..].
  case_bool_decide; [|by intros [= <-]].
  destruct (FocusTrap.focusableElements tr !! 0); [by intros [= <-]|done].
Qed.
End BrowserFrame.

(** ** Listener registrations are touched by [addListener] and cleanups only *)
Section ListenersFrame.
Import Dom.
Implicit Types (w : World) (e : Elem) (r : Registration).

Lemma listeners_setProperty e p v w :
  listeners (setProperty e p v w) = listeners w.
Proof. unfold setProperty. by case_decide. Qed.

Lemma listeners_assignStyles e styles w :
  listeners (assignStyles e styles w) = listeners w.
Proof.
  unfold assignStyles. revert w.
  induction styles as [|[p v] styles IH]; intros w; [done|].
  simpl. by rewrite IH, listeners_setProperty.
Qed.

Lemma listeners_setAttributes e kvs w :
  listeners (setAttributes e kvs w) = listeners w.
Proof.
  unfold setAttributes. revert w.
  induction kvs as [|[k v] kvs IH]; intros w; [done|].
  simpl. by rewrite IH.
Qed.

Lemma listeners_announce msg w : listeners (announce msg w) = listeners w.
Proof. unfold announce. by destruct (isBrowser w). Qed.

Lemma listeners_unlock u w : listeners (unlock u w) = listeners w.
Proof. by destruct u as [[y css]|]. Qed.

Lemma listeners_lockScroll w : listeners (lockScroll w).2 = listeners w.
Proof. unfold lockScroll, getDocument. by destruct (isBrowser w). Qed.

Lemma listeners_createElement tag cls attrs styles w :
  listeners (createElement tag cls attrs styles w).2 = listeners w.
Proof.
  unfold createElement, getDocument. destruct (isBrowser w); [|done].
  simpl. rewrite listeners_assignStyles, listeners_setAttributes.
  by destruct cls.
Qed.

Lemma elem_of_listeners_addListener r tg ty h w :
  r ∈ listeners (addListener tg ty h w).2 ↔ r ∈ listeners w ∨ r = mkReg tg ty h.
Proof.
  unfold addListener. simpl. case_bool_decide as Hin; simpl.
  - split; [by left | by intros [?| ->]].
  - rewrite elem_of_app, list_elem_of_singleton. done.
Qed.

Lemma elem_of_listeners_cleanup r r' w :
  r ∈ listeners (cleanup r' w) ↔ r ∈ listeners w ∧ r ≠ r'.
Proof. unfold cleanup. simpl. by rewrite list_elem_of_filter, (comm and). Qed.

Lemma elem_of_listeners_runCleanups r rs w :
  r ∈ listeners (runCleanups rs w) ↔ r ∈ listeners w ∧ r ∉ rs.
Proof.
  unfold runCleanups. revert w. induction rs as [|r' rs IH]; intros w; simpl.
  - split; [intros ?; split; [done | apply not_elem_of_nil] | by intros [? _]].
  - rewrite IH, elem_of_listeners_cleanup, not_elem_of_cons.
    split; [intros [[? ?] ?] | intros (? & ? & ?)]; auto.
Qed.

Lemma listeners_activate_elem r (tr : FocusTrap.t) w :
  r ∈ listeners (FocusTrap.activate tr w).1.2 →
  r ∈ listeners w ∨ r = mkReg Document keydown TrapKeyDown
  ∨ r = mkReg (Node (FocusTrap.container tr)) focusout TrapFocusOut.
Proof.
  unfold FocusTrap.activate, getDocument.
  destruct (FocusTrap.isActive tr); [by left|].
  destruct (isBrowser w); [|by left]. simpl.
  intros [[Hin| ->]%elem_of_listeners_addListener| ->]%elem_of_listeners_addListener;
    auto.
Qed.

Lemma listeners_deactivate_elem r (tr : FocusTrap.t) w :
  r ∈ listeners (FocusTrap.deactivate tr w).2 → r ∈ listeners w.
Proof.
  unfold FocusTrap.deactivate. destruct (FocusTrap.isActive tr); [|done]. simpl.
  set (w1 := runCleanups _ w).
  assert (Hw1 : r ∈ listeners w1 → r ∈ listeners w)
    by (subst w1; rewrite elem_of_listeners_runCleanups; by intros [? _]).
  intros Hin. apply Hw1.
  destruct (FocusTrap.returnFocus tr), (FocusTrap.previouslyFocused tr);
    simpl in Hin; by case_bool_decide.
Qed.

Lemma listeners_handleKeyDown key (tr tr1 : FocusTrap.t) w w1 eff :
  FocusTrap.handleKeyDown key tr w = Normal (tr1, w1, eff) →
  listeners w1 = listeners w.
Proof.
  unfold FocusTrap.handleKeyDown, FocusTrap.focusOrThrow.
  repeat case_match; simpl; intros [= <- <- <-]; done.
Qed.

Lemma listeners_handleFocusOut related (tr : FocusTrap.t) w :
  listeners (FocusTrap.handleFocusOut related tr w).1.2 = listeners w.
Proof.
  unfold FocusTrap.handleFocusOut. repeat case_match; done.
Qed.

Lemma listeners_initialFocusFrame (tr : FocusTrap.t) w w1 :
  FocusTrap.initialFocusFrame tr w = Normal w1 → listeners w1 = listeners w.
Proof.
  unfold FocusTrap.initialFocusFrame, FocusTrap.focusOrThrow.
  repeat case_match; simpl; intros [= <-]; done.
Qed.
End ListenersFrame.

Create Rewrite HintDb browser.
Create Rewrite HintDb listeners.

#[local] Hint Rewrite
  isBrowser_removeProperty isBrowser_setProperty isBrowser_assignStyles
  isBrowser_setAttribute isBrowser_removeAttribute isBrowser_setAttributes
  isBrowser_focus isBrowser_appendToBody isBrowser_remove isBrowser_cleanup
  isBrowser_runCleanups isBrowser_announce isBrowser_unlock : browser.

#[local] Hint Rewrite
  listeners_setProperty listeners_assignStyles listeners_setAttributes
  listeners_announce listeners_unlock : listeners.

(** ** Modal: the open/close state machine *)
Section ModalControl.
Import Dom Modal.
Implicit Types (s : System) (q : list Task).

Lemma pending_app q task :
  length (filter (λ x, x = CloseTail) (q ++ [task]))
  = length (filter (λ x, x = CloseTail) q) + (if decide (task = CloseTail) then 1 else 0).
Proof.
  rewrite filter_app, length_app. f_equal.
  rewrite filter_cons, filter_nil. by case_decide.
Qed.

Lemma pending_dequeue_other q task :
  task ≠ CloseTail →
  length (filter (λ x, x = CloseTail) (dequeue task q))
  = length (filter (λ x, x = CloseTail) q).
Proof.
  intros Hne. induction q as [|x q IH]; [done|]. simpl.
  destruct (decide (x = task)) as [->|Hx].
  - by rewrite filter_cons_False.
  - rewrite !filter_cons. case_decide; simpl; by rewrite IH.
Qed.

Lemma pending_dequeue_CloseTail q :
  CloseTail ∈ q →
  length (filter (λ x, x = CloseTail) q)
  = S (length (filter (λ x, x = CloseTail) (dequeue CloseTail q))).
Proof.
  induction q as [|x q IH]; [by intros ?%elem_of_nil|]. simpl.
  destruct (decide (x = CloseTail)) as [->|Hx].
  - intros _. by rewrite filter_cons_True.
  - intros [?|Hin]%elem_of_cons; [done|].
    rewrite !filter_cons_False by done. by apply IH.
Qed.

(** *** The blocks of [open()] *)

Lemma setting_lockBodyScroll s : setting (lockBodyScroll s) = setting s.
Proof.
  unfold setting, lockBodyScroll.
  pose proof (isBrowser_lockScroll (world s)) as Hb.
  destruct (lockScroll (world s)) as [u w]. simpl in *. by rewrite Hb.
Qed.

Lemma control_lockBodyScroll s : control (lockBodyScroll s) = control s.
Proof. unfold control, lockBodyScroll. by destruct (lockScroll (world s)). Qed.

(** What [mountBackdrop] leaves in [backdropElement]. *)
Lemma mountBackdrop_spec s :
  setting (mountBackdrop s) = setting s
  ∧ isOpen (modal (mountBackdrop s)) = isOpen (modal s)
  ∧ tasks (mountBackdrop s) = tasks s
  ∧ (backdrop (options (modal s)) = true → isBrowser (world s) = true →
       is_Some (backdropElement (modal (mountBackdrop s)))).
Proof.
  unfold setting, mountBackdrop.
  destruct (backdrop (options (modal s))) eqn:Hbd; [|done].
  unfold createBackdropElement. rewrite Hbd. simpl.
  match goal with |- context [createElement ?a ?b ?c ?d ?e] =>
    pose proof (isBrowser_createElement a b c d e) as Hc;
    pose proof (createElement_browser a b c d e) as Hsome;
    destruct (createElement a b c d e) as [[b0|] w]
  end; simpl in *.
  - destruct (closeOnBackdrop (options (modal s))); simpl.
    + case_bool_decide; simpl; by rewrite Hc.
    + by rewrite Hc.
  - rewrite Hc. repeat split; try done. intros _ Hb. by specialize (Hsome Hb).
Qed.

Lemma setting_showModal s : setting (showModal s) = setting s.
Proof.
  unfold setting, showModal. cbn [world modal]. by autorewrite with browser.
Qed.

Lemma setting_addEscapeListener s : setting (addEscapeListener s) = setting s.
Proof.
  unfold setting, addEscapeListener.
  destruct (_ && _); [|done]. simpl. by case_bool_decide.
Qed.

Lemma control_addEscapeListener s : control (addEscapeListener s) = control s.
Proof. unfold control, addEscapeListener. by destruct (_ && _). Qed.

Lemma setting_animateIn s : setting (animateIn s) = setting s.
Proof. unfold animateIn. by destruct (backdropElement (modal s)). Qed.

Lemma control_animateIn s : control (animateIn s) = control s.
Proof.
  unfold control, animateIn, pendingCloses.
  destruct (backdropElement (modal s)) eqn:Hb; simpl; rewrite Hb; [|done].
  by rewrite pending_app, Nat.add_0_r.
Qed.

Lemma setting_activateTrap s : setting (activateTrap s) = setting s.
Proof.
  unfold setting, activateTrap. destruct (focusTrap (modal s)) as [tr|]; [|done].
  pose proof (isBrowser_activate tr (world s)) as Hb.
  destruct (FocusTrap.activate tr (world s)) as [[tr' w'] frame].
  simpl in *. by rewrite Hb.
Qed.

Lemma control_activateTrap s : control (activateTrap s) = control s.
Proof.
  unfold control, activateTrap, pendingCloses.
  destruct (focusTrap (modal s)) as [tr|]; [|done].
  destruct (FocusTrap.activate tr (world s)) as [[tr' w'] [|]]; simpl; [|done].
  by rewrite pending_app, Nat.add_0_r.
Qed.

Lemma setting_deactivateTrap s : setting (deactivateTrap s) = setting s.
Proof.
  unfold setting, deactivateTrap. destruct (focusTrap (modal s)) as [tr|]; [|done].
  pose proof (isBrowser_deactivate tr (world s)) as Hb.
  destruct (FocusTrap.deactivate tr (world s)) as [tr' w'].
  simpl in *. by rewrite Hb.
Qed.

Lemma control_deactivateTrap s : control (deactivateTrap s) = control s.
Proof.
  unfold control, deactivateTrap. destruct (focusTrap (modal s)) as [tr|]; [|done].
  by destruct (FocusTrap.deactivate tr (world s)).
Qed.

Lemma setting_animateOut s : setting (animateOut s) = setting s.
Proof.
  unfold setting, animateOut. cbn [world modal]. autorewrite with browser.
  destruct (backdropElement (modal s)); [|done].
  destruct (backdropBlur _); by autorewrite with browser.
Qed.

Lemma control_animateOut s :
  control (animateOut s)
  = (isOpen (modal s), backdropElement (modal s), S (pendingCloses s)).
Proof.
  unfold control, animateOut, pendingCloses. simpl.
  rewrite pending_app. simpl. by rewrite Nat.add_1_r.
Qed.

(** *** [open()], [close()] and the tail of [close()] *)

Lemma open_already s : isOpen (modal s) = true → open s = s.
Proof. intros Ho. unfold open. by rewrite Ho. Qed.

Lemma open_spec s :
  isOpen (modal s) = false →
  setting (open s) = setting s
  ∧ isOpen (modal (open s)) = true
  ∧ pendingCloses (open s) = pendingCloses s
  ∧ (backdrop (options (modal s)) = true → isBrowser (world s) = true →
       is_Some (backdropElement (modal (open s)))).
Proof.
  intros Ho. unfold open. rewrite Ho.
  set (s1 := mkSystem (set_isOpen true (modal s)) (world s) (tasks s)).
  set (s2 := lockBodyScroll s1).
  destruct (mountBackdrop_spec s2) as (Hset3 & Hopen3 & Htasks3 & Hbd3).
  set (s3 := mountBackdrop s2) in *.
  set (s4 := showModal s3).
  set (s5 := addEscapeListener s4).
  set (s6 := animateIn s5).
  set (s7 := activateTrap s6).
  assert (Hset : setting s7 = setting s).
  { subst s7 s6 s5 s4. rewrite setting_activateTrap, setting_animateIn,
      setting_addEscapeListener, setting_showModal, Hset3.
    subst s2. by rewrite setting_lockBodyScroll. }
  assert (Hctl : control s7 = control s4).
  { subst s7 s6 s5. by rewrite control_activateTrap, control_animateIn,
      control_addEscapeListener. }
  assert (Hctl2 : control s2 = control s1)
    by (subst s2; apply control_lockBodyScroll).
  unfold control in Hctl, Hctl2. simpl in Hctl, Hctl2.
  injection Hctl as Ho7 Hb7 Hp7. injection Hctl2 as Ho2 Hb2 Hp2.
  unfold setting in *. simpl in *. injection Hset as Hbr Hopt.
  injection Hset3 as Hbr3 Hopt3.
  rewrite isBrowser_announce.
  repeat split.
  - by rewrite Hbr, Hopt.
  - congruence.
  - unfold pendingCloses in *. simpl in *. rewrite Hp7, Htasks3. done.
  - intros Hbd Hb. rewrite Hb7. apply Hbd3.
    + subst s2. pose proof (setting_lockBodyScroll s1) as H.
      unfold setting in H. simpl in H. congruence.
    + subst s2. pose proof (setting_lockBodyScroll s1) as H.
      unfold setting in H. simpl in H. congruence.
Qed.

Lemma close_spec s :
  setting (close s) = setting s
  ∧ closeCalls (modal (close s)) = S (closeCalls (modal s))
  ∧ control (close s)
    = if isOpen (modal s)
      then (false, backdropElement (modal s), S (pendingCloses s))
      else control s.
Proof.
  unfold close. cbn [modal world tasks].
  change (isOpen (count_close (modal s))) with (isOpen (modal s)).
  destruct (isOpen (modal s)) eqn:Ho; cbn [negb].
  2:{ unfold setting, control, pendingCloses. by simpl. }
  set (s1 := mkSystem _ _ _).
  rewrite setting_animateOut, setting_deactivateTrap, control_animateOut.
  pose proof (control_deactivateTrap s1) as Hc. unfold control in Hc.
  injection Hc as Ho1 Hb1 Hp1. rewrite Hb1, Hp1.
  split; [done|]. split; [|by rewrite Ho1].
  unfold animateOut, deactivateTrap. subst s1. cbn [modal world tasks].
  cbn [focusTrap set_isOpen count_close].
  destruct (focusTrap (modal s)) as [tr|]; [|done].
  by destruct (FocusTrap.deactivate tr (world s)).
Qed.

Lemma closeTail_spec s :
  setting (closeTail s) = setting s
  ∧ control (closeTail s) = (isOpen (modal s), None, pendingCloses s)
  ∧ closeCalls (modal (closeTail s)) = closeCalls (modal s).
Proof.
  unfold closeTail, setting, control, pendingCloses.
  unfold unlockBodyScroll, cleanUpListeners, removeBackdrop, hideModal.
  cbn [modal world tasks].
  destruct (backdropElement (modal s)) eqn:Hbd; cbn [modal world tasks];
    autorewrite with browser; simpl; rewrite ?Hbd;
    destruct (unlockScroll (modal s)); by autorewrite with browser.
Qed.

Lemma immediateClose_spec s :
  setting (immediateClose s) = setting s
  ∧ control (immediateClose s) = control s
  ∧ closeCalls (modal (immediateClose s)) = closeCalls (modal s).
Proof.
  pose proof (setting_deactivateTrap s) as Hs.
  pose proof (control_deactivateTrap s) as Hc.
  assert (Hcc : closeCalls (modal (deactivateTrap s)) = closeCalls (modal s)).
  { unfold deactivateTrap. destruct (focusTrap (modal s)) as [tr|]; [|done].
    by destruct (FocusTrap.deactivate tr (world s)). }
  unfold immediateClose, setting, control, pendingCloses in *.
  cbn [modal world tasks]. injection Hs as Hs1 Hs2. injection Hc as Hc1 Hc2 Hc3.
  rewrite Hs2, Hc1, Hc2, Hc3, Hcc. repeat split.
  destruct (unlockScroll _), (backdropElement (modal s));
    autorewrite with browser; by rewrite Hs1.
Qed.

Lemma destroy_spec s :
  setting (destroy s) = setting s
  ∧ control (destroy s) = control s
  ∧ closeCalls (modal (destroy s)) = closeCalls (modal s).
Proof.
  unfold destroy. set (s1 := if isOpen (modal s) then immediateClose s else s).
  assert (Hs1 : setting s1 = setting s ∧ control s1 = control s
                ∧ closeCalls (modal s1) = closeCalls (modal s)).
  { subst s1. destruct (isOpen (modal s)); [apply immediateClose_spec | done]. }
  destruct Hs1 as (Hs & Hc & Hcc). by rewrite <- Hs, <- Hc, <- Hcc.
Qed.

Lemma update_spec s :
  setting (update s) = setting s ∧ control (update s) = control s.
Proof. unfold update. by destruct (focusTrap (modal s)). Qed.

(** *** Listeners and queued callbacks *)

Lemma closeOrStay_trans c1 c2 c3 :
  closeOrStay c1 c2 → closeOrStay c2 c3 → closeOrStay c1 c3.
Proof.
  intros [->|(bd & p & -> & ->)] [->|(bd' & p' & Heq & ->)];
    try (by left); try (by right; eauto).
Qed.

Lemma close_closeOrStay s s1 :
  control s1 = control s → closeOrStay (control s) (control (close s1)).
Proof.
  intros Hc. destruct (close_spec s1) as (_ & _ & Hclose). rewrite Hclose.
  unfold control in Hc. injection Hc as Ho Hb Hp.
  destruct (isOpen (modal s1)) eqn:Ho1.
  - right. exists (backdropElement (modal s)), (pendingCloses s).
    unfold control. split; congruence.
  - left. unfold control. congruence.
Qed.

Lemma invoke_spec d h s s' :
  invoke d h s = Normal s' →
  setting s' = setting s ∧ closeOrStay (control s) (control s').
Proof.
  unfold invoke. destruct h, d; try (intros [= <-]; split; [done | by left]).
  - (* the trap's keydown handler *)
    unfold trapKeyDown. destruct (focusTrap (modal s)) as [tr|];
      [|intros [= <-]; split; [done | by left]].
    destruct (handleKeyDown_returns e tr (world s))
      as (tr1 & w1 & eff & Hk & _ & _ & _ & _ & Hb).
    rewrite Hk. simpl. intros [= <-].
    set (s1 := mkSystem _ w1 _).
    assert (Hs1 : setting s1 = setting s)
      by (unfold setting; simpl; by rewrite Hb).
    assert (Hc1 : control s1 = control s) by done.
    destruct (FocusTrap.escapeInvoked eff).
    + destruct (close_spec s1) as (Hs & _ & _). split; [congruence|].
      by apply close_closeOrStay.
    + split; [done | by left].
  - (* the trap's focusout handler *)
    unfold trapFocusOut. destruct (focusTrap (modal s)) as [tr|];
      [|intros [= <-]; split; [done | by left]].
    pose proof (isBrowser_handleFocusOut relatedTarget tr (world s)) as Hb.
    destruct (FocusTrap.handleFocusOut _ _ _) as [[tr1 w1] eff].
    intros [= <-]. split; [|by left].
    unfold setting. simpl in *. by rewrite Hb.
  - (* handleBackdropClick *)
    unfold handleBackdropClick. intros [= <-]. destruct (_ && _).
    + destruct (close_spec s) as (Hs & _ & _). split; [done|].
      by apply close_closeOrStay.
    + split; [done | by left].
  - (* handleEscapeKey *)
    unfold handleEscapeKey. intros [= <-]. destruct (_ && _).
    + destruct (close_spec s) as (Hs & _ & _). split; [done|].
      by apply close_closeOrStay.
    + split; [done | by left].
Qed.

Lemma callListeners_spec d snapshot s s' :
  callListeners d snapshot s = Normal s' →
  setting s' = setting s ∧ closeOrStay (control s) (control s').
Proof.
  revert s. induction snapshot as [|r rest IH]; intros s; simpl.
  - intros [= <-]. split; [done | by left].
  - case_bool_decide; [|apply IH].
    destruct (invoke d (reg_listener r) s) as [s1|] eqn:Hinv; [|done]. simpl.
    intros Hrest. destruct (invoke_spec _ _ _ _ Hinv) as [Hs1 Hc1].
    destruct (IH _ Hrest) as [Hs2 Hc2]. split; [congruence|].
    by eapply closeOrStay_trans.
Qed.

Lemma runTask_spec task s s' :
  task ∈ tasks s →
  runTask task (mkSystem (modal s) (world s) (dequeue task (tasks s))) = Normal s' →
  setting s' = setting s
  ∧ (if decide (task = CloseTail)
     then ∃ p, pendingCloses s = S p ∧ control s' = (isOpen (modal s), None, p)
     else control s' = control s).
Proof.
  intros Hin. destruct task; simpl.
  - intros [= <-]. unfold setting, control, pendingCloses, animateInFrame.
    cbn [modal world tasks]. rewrite pending_dequeue_other by done.
    split; [|done]. autorewrite with browser.
    destruct (backdropElement (modal s)); [|done].
    destruct (backdropBlur _); by autorewrite with browser.
  - destruct (focusTrap (modal s)) as [tr|].
    + destruct (FocusTrap.initialFocusFrame tr (world s)) as [w1|] eqn:Hf; [|done].
      simpl. intros [= <-]. apply isBrowser_initialFocusFrame in Hf.
      unfold setting, control, pendingCloses. simpl.
      by rewrite pending_dequeue_other, Hf.
    + intros [= <-]. unfold setting, control, pendingCloses. simpl.
      by rewrite pending_dequeue_other.
  - intros [= <-].
    destruct (closeTail_spec (mkSystem (modal s) (world s) (dequeue CloseTail (tasks s))))
      as (Hs & Hc & _).
    split; [done|]. exists (pendingCloses (mkSystem (modal s) (world s)
                                            (dequeue CloseTail (tasks s)))).
    split; [|done]. unfold pendingCloses. simpl.
    by apply pending_dequeue_CloseTail.
Qed.

(** *** One step of the system *)

Lemma step_spec ev s s' :
  step ev s = Normal s' →
  setting s' = setting s
  ∧ move (isBrowser (world s) && backdrop (options (modal s))) ev
         (control s) (control s').
Proof.
  destruct ev as [| | | | |d|task]; simpl.
  - (* Open *)
    intros [= <-]. destruct (isOpen (modal s)) eqn:Ho.
    + rewrite open_already by done. split; [done | constructor].
    + destruct (open_spec s Ho) as (Hs & Ho' & Hp & Hbd). split; [done|].
      unfold control. rewrite Ho, Ho', Hp. apply move_open; [by left|].
      intros [Hb Hopt]%andb_true_iff. by apply Hbd.
  - (* Close *)
    intros [= <-]. destruct (close_spec s) as (Hs & _ & Hc). split; [done|].
    rewrite Hc. unfold control. destruct (isOpen (modal s)); constructor.
  - (* Toggle *)
    intros [= <-]. unfold toggle. destruct (isOpen (modal s)) eqn:Ho.
    + destruct (close_spec s) as (Hs & _ & Hc). split; [done|].
      rewrite Hc, Ho. unfold control. rewrite Ho. constructor.
    + destruct (open_spec s Ho) as (Hs & Ho' & Hp & Hbd). split; [done|].
      unfold control. rewrite Ho, Ho', Hp. apply move_open; [by right|].
      intros [Hb Hopt]%andb_true_iff. by apply Hbd.
  - (* Update *)
    intros [= <-]. destruct (update_spec s) as [Hs Hc]. split; [done|].
    rewrite Hc. constructor.
  - (* Destroy *)
    intros [= <-]. destruct (destroy_spec s) as (Hs & Hc & _). split; [done|].
    rewrite Hc. constructor.
  - (* a DOM event *)
    intros Hd. destruct (callListeners_spec _ _ _ _ Hd) as [Hs Hc].
    split; [done|]. destruct Hc as [->|(bd & p & -> & ->)]; constructor.
  - (* a queued callback *)
    case_bool_decide as Hin; [|intros [= <-]; split; [done | constructor]].
    intros Hrun. destruct (runTask_spec _ _ _ Hin Hrun) as [Hs Hc].
    split; [done|]. case_decide.
    + destruct Hc as (p & Hp & ->). unfold control. rewrite Hp. constructor.
    + rewrite Hc. constructor.
Qed.

(** *** No step throws *)

Lemma invoke_returns d h s : ∃ s', invoke d h s = Normal s'.
Proof.
  unfold invoke. destruct h, d; try by eexists.
  unfold trapKeyDown. destruct (focusTrap (modal s)) as [tr|]; [|by eexists].
  destruct (handleKeyDown_returns e tr (world s)) as (tr1 & w1 & eff & -> & _).
  by eexists.
Qed.

Lemma callListeners_returns d snapshot s :
  ∃ s', callListeners d snapshot s = Normal s'.
Proof.
  revert s. induction snapshot as [|r rest IH]; intros s; simpl; [by eexists|].
  case_bool_decide; [|apply IH].
  destruct (invoke_returns d (reg_listener r) s) as [s1 ->]. simpl. apply IH.
Qed.

Lemma step_returns ev s : ∃ s', step ev s = Normal s'.
Proof.
  destruct ev as [| | | | |d|task]; simpl; try by eexists.
  - apply callListeners_returns.
  - case_bool_decide; [|by eexists]. destruct task; simpl; try by eexists.
    destruct (focusTrap (modal s)) as [tr|]; [|by eexists].
    destruct (initialFocusFrame_returns tr (world s)) as [w1 ->]. by eexists.
Qed.
End ModalControl.

(** ** Modal: when a backdrop element is held *)
Section ModalBackdrop.
Import Dom Modal.
Implicit Types (s : System).

Lemma createModal_initial element opts w s0 :
  createModal element opts w = Some s0 →
  isBrowser (world s0) = true
  ∧ options (modal s0) = opts
  ∧ control s0 = (false, None, 0).
Proof.
  unfold createModal. destruct (isBrowser w) eqn:Hb; [|done]. simpl.
  intros [= <-]. unfold control, pendingCloses. simpl.
  repeat split. destruct (ariaLabel opts) as [l|]; [case_match|];
    by autorewrite with browser.
Qed.

Lemma reachable_setting s0 s : reachable s0 s → setting s = setting s0.
Proof.
  induction 1 as [|s ev s' _ IH Hstep]; [done|].
  destruct (step_spec _ _ _ Hstep) as [Hs _]. congruence.
Qed.

Lemma sequential_reachable s0 s : reachable_sequential s0 s → reachable s0 s.
Proof.
  induction 1 as [|s ev s' _ IH _ Hstep]; [constructor|].
  by eapply reachable_step.
Qed.

Lemma move_cases mounts ev s s' :
  move mounts ev (control s) (control s') →
  control s' = control s
  ∨ ((ev = Open ∨ ev = Toggle)
     ∧ isOpen (modal s) = false ∧ isOpen (modal s') = true
     ∧ pendingCloses s' = pendingCloses s
     ∧ (mounts = true → is_Some (backdropElement (modal s'))))
  ∨ (isOpen (modal s) = true ∧ isOpen (modal s') = false
     ∧ backdropElement (modal s') = backdropElement (modal s)
     ∧ pendingCloses s' = S (pendingCloses s))
  ∨ (isOpen (modal s') = isOpen (modal s)
     ∧ backdropElement (modal s') = None
     ∧ pendingCloses s = S (pendingCloses s')).
Proof.
  intros Hmove.
  enough (∀ c c', move mounts ev c c' → c = control s → c' = control s' →
    c' = c
    ∨ ((ev = Open ∨ ev = Toggle)
       ∧ isOpen (modal s) = false ∧ isOpen (modal s') = true
       ∧ pendingCloses s' = pendingCloses s
       ∧ (mounts = true → is_Some (backdropElement (modal s'))))
    ∨ (isOpen (modal s) = true ∧ isOpen (modal s') = false
       ∧ backdropElement (modal s') = backdropElement (modal s)
       ∧ pendingCloses s' = S (pendingCloses s))
    ∨ (isOpen (modal s') = isOpen (modal s)
       ∧ backdropElement (modal s') = None
       ∧ pendingCloses s = S (pendingCloses s'))) as H
    by (apply (H _ _ Hmove); reflexivity).
  clear Hmove. intros c c' Hmove Hc Hc'. unfold control in Hc, Hc'.
  destruct Hmove as [c|bd p bd' Hev Hbd|bd p|o bd p].
  - by left.
  - right; left. injection Hc as Ho Hb Hp. injection Hc' as Ho' Hb' Hp'.
    subst. repeat split; (congruence || done).
  - right; right; left. injection Hc as Ho Hb Hp. injection Hc' as Ho' Hb' Hp'.
    subst. repeat split; congruence.
  - right; right; right. injection Hc as Ho Hb Hp. injection Hc' as Ho' Hb' Hp'.
    subst. repeat split; congruence.
Qed.

(** In every run: a held backdrop means open, or a close still pending. *)
Lemma reachable_backdrop s0 s :
  control s0 = (false, None, 0) →
  reachable s0 s →
  is_Some (backdropElement (modal s)) →
  isOpen (modal s) = true ∨ closePending s.
Proof.
  intros H0. induction 1 as [|s ev s' _ IH Hstep].
  - unfold control in H0. injection H0 as _ Hb _. rewrite Hb. by intros [? ?].
  - destruct (step_spec _ _ _ Hstep) as [_ Hmove]. apply move_cases in Hmove.
    unfold closePending, control in *.
    destruct Hmove as [Hc|[(_ & _ & Ho & _)|[(_ & _ & _ & Hp)|(_ & Hb & _)]]].
    + injection Hc as -> -> ->. exact IH.
    + intros _. by left.
    + intros _. right. lia.
    + rewrite Hb. by intros [? ?].
Qed.

(** In runs that never enter [open()] while a close is pending. *)
Lemma sequential_backdrop s0 s :
  isBrowser (world s0) = true →
  backdrop (options (modal s0)) = true →
  control s0 = (false, None, 0) →
  reachable_sequential s0 s →
  (is_Some (backdropElement (modal s)) ↔ isOpen (modal s) = true ∨ closePending s)
  ∧ (closePending s → isOpen (modal s) = false)
  ∧ (pendingCloses s ≤ 1)%nat.
Proof.
  intros Hb0 Hbd0 H0. induction 1 as [|s ev s' Hreach IH Hseq Hstep].
  - unfold control, closePending in *. injection H0 as -> -> ->.
    repeat split; try lia; try done.
  - destruct (step_spec _ _ _ Hstep) as [_ Hmove].
    pose proof (reachable_setting _ _ (sequential_reachable _ _ Hreach)) as Hset.
    unfold setting in Hset. injection Hset as Hb Hopt.
    rewrite Hb, Hopt, Hb0, Hbd0 in Hmove. simpl in Hmove.
    apply move_cases in Hmove.
    destruct IH as (IH1 & IH2 & IH3).
    unfold reopens, closePending, control in *.
    destruct Hmove as [Hc|[(Hev & Ho & Ho' & Hp & Hbd)
                          |[(Ho & Ho' & Hbd & Hp)|(Ho & Hbd & Hp)]]].
    + injection Hc as -> -> ->. done.
    + (* open(): no close was pending *)
      assert (pendingCloses s = 0) as Hp0 by (destruct (pendingCloses s); [done|];
        exfalso; apply Hseq; split; [done | lia]).
      rewrite Hp, Hp0, Ho'. repeat split; try lia; auto.
    + (* close(): the modal was open, so no close was pending *)
      assert (pendingCloses s = 0) as Hp0.
      { destruct (pendingCloses s); [done|].
        rewrite IH2 in Ho by lia. done. }
      rewrite Hp, Hp0, Ho', Hbd. repeat split; try lia; try done.
      intros _. apply IH1. by left.
    + (* the tail of the one pending close *)
      assert (pendingCloses s' = 0) as Hp0 by lia.
      assert (isOpen (modal s) = false) as Ho0 by (apply IH2; lia).
      rewrite Ho, Ho0, Hbd, Hp0. repeat split; try lia; try done.
Qed.
End ModalBackdrop.

(** ** Modal and drawer: [destroy()] *)
Section OverlayDestroy.
Import Dom.

Lemma Modal_destroy_isOpen (s : Modal.System) :
  Modal.isOpen (Modal.modal (Modal.destroy s)) = Modal.isOpen (Modal.modal s).
Proof.
  destruct (destroy_spec s) as (_ & Hc & _). unfold Modal.control in Hc.
  by injection Hc.
Qed.

Lemma Drawer_destroy_isOpen (s : Drawer.System) :
  Drawer.isOpen (Drawer.drawer (Drawer.destroy s)) = Drawer.isOpen (Drawer.drawer s).
Proof.
  unfold Drawer.destroy. destruct (Drawer.isOpen (Drawer.drawer s)) eqn:Ho; [|done].
  simpl. unfold Drawer.deactivateTrap.
  destruct (Drawer.focusTrap (Drawer.drawer s)) as [tr|]; [|done].
  by destruct (FocusTrap.deactivate tr (Drawer.world s)).
Qed.

(** C1. [destroy()] assigns none of the closure variables: the [isOpen]
    getter reports after it what it reported before it, for the modal and
    for the drawer. On the example page, [open()] then [destroy()] leaves
    [isOpen] true although the backdrop node 100 has left the document in
    the same call; [destroy()] on a closed overlay whose close is still
    waiting for its timer leaves that backdrop in the document. *)
Theorem Overlay_destroy_keeps_isOpen :
  (∀ s, Modal.isOpen (Modal.modal (Modal.destroy s)) = Modal.isOpen (Modal.modal s))
  ∧ (∀ s, Drawer.isOpen (Drawer.drawer (Drawer.destroy s))
          = Drawer.isOpen (Drawer.drawer s))
  ∧ (let opened := Modal.open Examples.pageModal in
     bodyChildren (Modal.world opened) = [100%positive]
     ∧ Modal.isOpen (Modal.modal (Modal.destroy opened)) = true
     ∧ bodyChildren (Modal.world (Modal.destroy opened)) = [])
  ∧ (let opened := Drawer.open Examples.pageDrawer in
     bodyChildren (Drawer.world opened) = [100%positive]
     ∧ Drawer.isOpen (Drawer.drawer (Drawer.destroy opened)) = true
     ∧ bodyChildren (Drawer.world (Drawer.destroy opened)) = [])
  ∧ (let closing := Modal.close (Modal.open Examples.pageModal) in
     Modal.isOpen (Modal.modal (Modal.destroy closing)) = false
     ∧ bodyChildren (Modal.world (Modal.destroy closing)) = [100%positive])
  ∧ (let closing := Drawer.close (Drawer.open Examples.pageDrawer) in
     Drawer.isOpen (Drawer.drawer (Drawer.destroy closing)) = false
     ∧ bodyChildren (Drawer.world (Drawer.destroy closing)) = [100%positive]).
Proof.
  split; [exact Modal_destroy_isOpen|]. split; [exact Drawer_destroy_isOpen|].
  vm_compute. repeat split.
Qed.
End OverlayDestroy.

(** ** Modal: the body children across the rest of [close()] *)
Section ModalCloseTailBody.
Import Dom Modal.

Lemma bodyChildren_setProperty e p v w :
  bodyChildren (setProperty e p v w) = bodyChildren w.
Proof. unfold setProperty, removeProperty. by case_decide. Qed.

Lemma bodyChildren_runCleanups rs w :
  bodyChildren (runCleanups rs w) = bodyChildren w.
Proof.
  unfold runCleanups. revert w. induction rs as [|r rs IH]; intros w; [done|].
  simpl. by rewrite IH.
Qed.

Lemma bodyChildren_unlock u w : bodyChildren (unlock u w) = bodyChildren w.
Proof. by destruct u as [[??]|]. Qed.

Lemma bodyChildren_announce msg w : bodyChildren (announce msg w) = bodyChildren w.
Proof. unfold announce. by destruct (isBrowser w). Qed.

(** The continuation of [close()] takes the held backdrop node out of
    the body. *)
Lemma closeTail_removes_backdrop s b :
  backdropElement (modal s) = Some b →
  b ∉ bodyChildren (world (closeTail s)).
Proof.
  intros Hb. unfold closeTail, unlockBodyScroll, cleanUpListeners, removeBackdrop, hideModal.
  cbn [modal world tasks]. rewrite Hb. cbn [modal world tasks].
  rewrite bodyChildren_announce.
  assert (∀ u w0, bodyChildren (match u with Some u0 => unlock u0 w0 | None => w0 end)
                  = bodyChildren w0) as Hu.
  { intros [u0|] w0; [apply bodyChildren_unlock | done]. }
  rewrite Hu, bodyChildren_runCleanups. unfold remove. cbn.
  rewrite bodyChildren_setProperty.
  intros Hin%list_elem_of_filter. by destruct Hin.
Qed.
End ModalCloseTailBody.

(** ** Modal: the backdrop invariant *)
Section ModalBackdropInvariant.
Import Dom Modal.

(** C2, as the code has it. For a modal created with a backdrop: in every
    run a held [backdropElement] means that [isOpen] is true or that a
    [close()] still waits for its animation timer; in runs that never
    enter [open()] while a [close()] waits, [backdropElement] is held
    exactly when [isOpen] is true or a [close()] waits. So from an open
    modal [close()] leaves [isOpen] false with the backdrop still held
    until the timer's continuation runs, which takes the held node out of
    the body and sets [backdropElement] to null. *)
Theorem Modal_backdrop_held_while_open_or_closing
    (element : Elem) (opts : ModalOptions) (w : World) (s0 s : System) :
  createModal element opts w = Some s0 →
  backdrop opts = true →
  (reachable s0 s → is_Some (backdropElement (modal s)) →
     isOpen (modal s) = true ∨ closePending s)
  ∧ (reachable_sequential s0 s →
       (is_Some (backdropElement (modal s))
        ↔ isOpen (modal s) = true ∨ closePending s)
       ∧ (isOpen (modal s) = true →
            isOpen (modal (close s)) = false
            ∧ is_Some (backdropElement (modal (close s)))
            ∧ closePending (close s))
       ∧ (∀ s', closePending s → step (Run CloseTail) s = Normal s' →
            isOpen (modal s') = false
            ∧ backdropElement (modal s') = None
            ∧ (∀ b, backdropElement (modal s) = Some b →
                 b ∉ bodyChildren (world s')))).
Proof.
  intros Hcreate Hbd.
  destruct (createModal_initial _ _ _ _ Hcreate) as (Hb0 & Hopt0 & Hc0).
  split; [by apply reachable_backdrop|].
  intros Hseq. rewrite <- Hopt0 in Hbd.
  destruct (sequential_backdrop s0 s Hb0 Hbd Hc0 Hseq) as (Hiff & Hpend & Hle).
  split; [done|]. split.
  - intros Ho. destruct (close_spec s) as (_ & _ & Hc). rewrite Ho in Hc.
    unfold control, closePending in *. injection Hc as -> -> ->.
    repeat split; [|lia]. apply Hiff. by left.
  - intros s' Hp Hstep. destruct (step_spec _ _ _ Hstep) as [_ Hmove].
    apply move_cases in Hmove. unfold closePending in *.
    simpl in Hstep. case_bool_decide as Hin.
    + assert (s' = closeTail (mkSystem (modal s) (world s)
                                (dequeue CloseTail (tasks s)))) as Hs'
        by (injection Hstep as <-; reflexivity).
      destruct (runTask_spec _ _ _ Hin Hstep) as [_ Hrun].
      rewrite decide_True in Hrun by done. destruct Hrun as (p & _ & Hc).
      unfold control in Hc. injection Hc as -> -> _.
      split; [by apply Hpend|]. split; [done|].
      intros b Hb. rewrite Hs'. by apply closeTail_removes_backdrop.
    + exfalso. apply Hin. unfold pendingCloses in Hp.
      destruct (filter _ (tasks s)) as [|x l] eqn:Hf; [simpl in Hp; lia|].
      assert (x ∈ filter (λ task, task = CloseTail) (tasks s)) as Hx
        by (rewrite Hf; apply list_elem_of_here).
      apply list_elem_of_filter in Hx as [-> Hx]. done.
Qed.

(** C2 fails as stated: after [open()] then [close()] on the example
    page the getter reports false while the backdrop node 100 is still
    held, and still in the document. *)
Lemma Modal_isOpen_false_with_backdrop_held :
  let s := close (open Examples.pageModal) in
  reachable Examples.pageModal s
  ∧ isOpen (modal s) = false
  ∧ backdropElement (modal s) = Some 100%positive
  ∧ bodyChildren (world s) = [100%positive]
  ∧ ¬ (is_Some (backdropElement (modal s)) ↔ isOpen (modal s) = true).
Proof.
  split.
  { eapply (reachable_step _ _ Close); [|reflexivity].
    eapply (reachable_step _ _ Open); [|reflexivity]. constructor. }
  vm_compute. repeat split; try reflexivity.
  intros [H _]. by specialize (H (ex_intro _ _ eq_refl)).
Qed.

(** The amended C2 for the default modal of the example page, once opened. *)
Lemma Modal_backdrop_held_while_open_or_closing_witness :
  createModal 10 defaultOptions Examples.page = Some Examples.pageModal
  ∧ backdrop defaultOptions = true
  ∧ reachable_sequential Examples.pageModal (open Examples.pageModal)
  ∧ (is_Some (backdropElement (modal (open Examples.pageModal)))
     ↔ isOpen (modal (open Examples.pageModal)) = true
       ∨ closePending (open Examples.pageModal)).
Proof.
  assert (Hcreate : createModal 10 defaultOptions Examples.page
                    = Some Examples.pageModal) by (vm_compute; reflexivity).
  assert (Hseq : reachable_sequential Examples.pageModal (open Examples.pageModal)).
  { eapply (sequential_step _ _ Open); [constructor| |reflexivity].
    intros [_ Hp]. vm_compute in Hp. lia. }
  split; [exact Hcreate|]. split; [reflexivity|]. split; [exact Hseq|].
  apply (Modal_backdrop_held_while_open_or_closing 10 defaultOptions
           Examples.page Examples.pageModal (open Examples.pageModal)
           Hcreate eq_refl).
  exact Hseq.
Defined.
End ModalBackdropInvariant.

(** ** Modal: Escape is routed through the focus trap only *)
Section ModalEscape.
Import Dom Modal.
Implicit Types (s : System) (r : Registration).

(** *** What [open()] registers *)

Lemma lockBodyScroll_frame s :
  focusTrap (modal (lockBodyScroll s)) = focusTrap (modal s)
  ∧ listeners (world (lockBodyScroll s)) = listeners (world s).
Proof.
  unfold lockBodyScroll. pose proof (listeners_lockScroll (world s)) as Hl.
  by destruct (lockScroll (world s)).
Qed.

Lemma mountBackdrop_frame s :
  focusTrap (modal (mountBackdrop s)) = focusTrap (modal s)
  ∧ (∀ r, r ∈ listeners (world (mountBackdrop s)) →
          r ∈ listeners (world s) ∨ reg_listener r = OverlayBackdropClick)
  ∧ (∀ r, r ∈ listeners (world s) → r ∈ listeners (world (mountBackdrop s))).
Proof.
  unfold mountBackdrop. destruct (backdrop (options (modal s))) eqn:Hbd; [|by auto].
  unfold createBackdropElement. rewrite Hbd. cbn [negb].
  match goal with |- context [createElement ?a ?b ?c ?d ?e] =>
    pose proof (listeners_createElement a b c d e) as Hl;
    destruct (createElement a b c d e) as [[b0|] w]
  end; cbn [snd] in Hl; [|cbn [modal world focusTrap set_backdropElement];
                          rewrite Hl; by auto].
  cbn [options set_backdropElement].
  destruct (closeOnBackdrop (options (modal s)));
    [|cbn [modal world focusTrap set_backdropElement];
      change (listeners (appendToBody b0 w)) with (listeners w);
      rewrite Hl; by auto].
  pose proof (λ r, elem_of_listeners_addListener r (Node b0) click
                     OverlayBackdropClick (appendToBody b0 w)) as Hadd.
  destruct (addListener _ _ _ _) as [c w1]. cbn [snd] in Hadd.
  change (listeners (appendToBody b0 w)) with (listeners w) in Hadd.
  cbn [modal world focusTrap set_backdropElement set_cleanupListeners].
  split; [done|]. split; intros r; rewrite (Hadd r), Hl.
  - intros [?| ->]; auto.
  - auto.
Qed.

Lemma showModal_frame s :
  focusTrap (modal (showModal s)) = focusTrap (modal s)
  ∧ listeners (world (showModal s)) = listeners (world s).
Proof.
  unfold showModal. cbn [modal world]. split; [done|].
  cbn [listeners setAttribute set_attributes]. by autorewrite with listeners.
Qed.

Lemma addEscapeListener_frame s :
  trapFocus (options (modal s)) = true → addEscapeListener s = s.
Proof.
  intros Htrap. unfold addEscapeListener. by rewrite Htrap, andb_false_r.
Qed.

Lemma animateIn_frame s :
  focusTrap (modal (animateIn s)) = focusTrap (modal s)
  ∧ listeners (world (animateIn s)) = listeners (world s).
Proof. unfold animateIn. by destruct (backdropElement (modal s)). Qed.

(** [activate()] on an inactive trap in a browser. *)
Lemma activate_arms (tr : FocusTrap.t) w :
  FocusTrap.isActive tr = false → isBrowser w = true →
  let tr1 := (FocusTrap.activate tr w).1.1 in
  let w1 := (FocusTrap.activate tr w).1.2 in
  FocusTrap.isActive tr1 = true
  ∧ FocusTrap.onEscape tr1 = FocusTrap.onEscape tr
  ∧ trapRegistration ∈ FocusTrap.cleanupListeners tr1
  ∧ trapRegistration ∈ listeners w1.
Proof.
  intros Hact Hb. unfold FocusTrap.activate, getDocument. rewrite Hact, Hb.
  simpl. repeat split.
  - rewrite elem_of_app. right. apply list_elem_of_here.
  - apply elem_of_listeners_addListener. left.
    apply elem_of_listeners_addListener. by right.
Qed.

Lemma open_arms s tr :
  isBrowser (world s) = true →
  trapFocus (options (modal s)) = true →
  isOpen (modal s) = false →
  focusTrap (modal s) = Some tr →
  FocusTrap.isActive tr = false →
  FocusTrap.onEscape tr = true →
  armed (open s)
  ∧ (∀ r, r ∈ listeners (world (open s)) →
          r ∈ listeners (world s) ∨ reg_listener r ≠ OverlayEscapeKey).
Proof.
  intros Hb Htrap Ho Htr Hact Hesc. unfold open. rewrite Ho.
  set (s1 := mkSystem (set_isOpen true (modal s)) (world s) (tasks s)).
  destruct (lockBodyScroll_frame s1) as [Ht2 Hl2].
  pose proof (setting_lockBodyScroll s1) as Hs2.
  set (s2 := lockBodyScroll s1) in *.
  destruct (mountBackdrop_frame s2) as (Ht3 & Hl3 & _).
  destruct (mountBackdrop_spec s2) as (Hs3 & Ho3 & _ & _).
  set (s3 := mountBackdrop s2) in *.
  destruct (showModal_frame s3) as [Ht4 Hl4].
  pose proof (setting_showModal s3) as Hs4.
  set (s4 := showModal s3) in *.
  assert (Hopt4 : trapFocus (options (modal s4)) = true).
  { unfold setting in *. simpl in *. congruence. }
  rewrite (addEscapeListener_frame s4 Hopt4).
  destruct (animateIn_frame s4) as [Ht6 Hl6].
  pose proof (setting_animateIn s4) as Hs6.
  set (s6 := animateIn s4) in *.
  assert (Htr6 : focusTrap (modal s6) = Some tr) by (simpl in *; congruence).
  assert (Hb6 : isBrowser (world s6) = true).
  { unfold setting in *. simpl in *. congruence. }
  assert (Ho6 : isOpen (modal s6) = true).
  { pose proof (control_animateIn s4) as Hc. fold s6 in Hc.
    unfold control in Hc. injection Hc as Hc _ _. rewrite Hc.
    subst s4. cbn [showModal modal]. rewrite Ho3.
    pose proof (control_lockBodyScroll s1) as Hc2. fold s2 in Hc2.
    unfold control in Hc2. by injection Hc2 as -> _ _. }
  pose proof (activate_arms tr (world s6) Hact Hb6) as Harm.
  pose proof (listeners_activate_elem) as Hadd.
  specialize (Hadd) with (tr := tr) (w := world s6).
  unfold activateTrap. rewrite Htr6.
  destruct (FocusTrap.activate tr (world s6)) as [[tr1 w1] frame].
  simpl in Harm, Hadd. destruct Harm as (Ha1 & He1 & Hc1 & Hw1).
  split.
  - split; [exact Ho6|]. exists tr1. cbn [modal world focusTrap set_focusTrap call_onOpen].
    rewrite listeners_announce. repeat split; try done. congruence.
  - intros r. cbn [world]. rewrite listeners_announce. intros Hin.
    destruct (Hadd r Hin) as [Hin6|[->| ->]]; [|by right..].
    rewrite Hl6, Hl4 in Hin6. destruct (Hl3 r Hin6) as [Hin2|Hbc].
    + left. by rewrite Hl2 in Hin2.
    + right. by rewrite Hbc.
Qed.

(** *** One Escape keydown on an armed modal *)

Lemma listeners_deactivate_active r (tr : FocusTrap.t) w :
  FocusTrap.isActive tr = true →
  r ∈ listeners (FocusTrap.deactivate tr w).2 →
  r ∈ listeners w ∧ r ∉ FocusTrap.cleanupListeners tr.
Proof.
  intros Hact. unfold FocusTrap.deactivate. rewrite Hact. simpl.
  set (w1 := runCleanups _ w). intros Hin.
  assert (r ∈ listeners w1) as Hin1.
  { destruct (FocusTrap.returnFocus tr), (FocusTrap.previouslyFocused tr);
      simpl in Hin; by case_bool_decide. }
  subst w1. by apply elem_of_listeners_runCleanups in Hin1.
Qed.

Lemma listeners_animateOut s :
  listeners (world (animateOut s)) = listeners (world s).
Proof.
  unfold animateOut. cbn [world]. autorewrite with listeners.
  destruct (backdropElement (modal s)); [|done].
  destruct (backdropBlur _); by autorewrite with listeners.
Qed.

(** The trap's handler on Escape: one [close()], after which the trap's
    listener is gone. *)
Lemma trapKeyDown_fires e s :
  FocusTrap.key e = "Escape" → armed s →
  ∃ s', trapKeyDown e s = Normal s'
    ∧ closeCalls (modal s') = S (closeCalls (modal s))
    ∧ (trapRegistration ∉ listeners (world s'))
    ∧ (∀ r, r ∈ listeners (world s') → r ∈ listeners (world s)).
Proof.
  intros Hkey (Ho & tr & Htr & Hact & Hesc & Hcl & Hin).
  unfold trapKeyDown. rewrite Htr.
  unfold FocusTrap.handleKeyDown. rewrite Hact, Hkey. simpl. rewrite Hesc.
  set (s1 := mkSystem _ _ _). eexists. split; [reflexivity|].
  destruct (close_spec s1) as (_ & Hcc & _). split; [exact Hcc|].
  assert (Hl : ∀ r, r ∈ listeners (world (close s1)) →
                    r ∈ listeners (world s) ∧ r ∉ FocusTrap.cleanupListeners tr).
  { intros r. unfold close. cbn [modal world tasks].
    change (isOpen (count_close (modal s1))) with (isOpen (modal s)).
    rewrite Ho. cbn [negb]. rewrite listeners_animateOut.
    unfold deactivateTrap. cbn [modal world tasks focusTrap set_isOpen count_close].
    subst s1. cbn [modal world tasks focusTrap set_focusTrap].
    pose proof (listeners_deactivate_active r tr (world s) Hact) as Hd.
    destruct (FocusTrap.deactivate tr (world s)) as [tr' w']. exact Hd. }
  split.
  - intros Hin'. by destruct (Hl _ Hin') as [_ Hn].
  - intros r Hr. by destruct (Hl _ Hr).
Qed.

(** With neither Escape listener registered a keydown changes nothing. *)
Lemma callListeners_quiet e snapshot s :
  Forall (λ r, reg_type r = keydown ∧ reg_target r = Document) snapshot →
  trapRegistration ∉ listeners (world s) →
  escapeRegistration ∉ listeners (world s) →
  callListeners (KeyDownEv e) snapshot s = Normal s.
Proof.
  intros Hshape Htrap Hesc. induction Hshape as [|r rest [Hty Htg] _ IH]; [done|].
  simpl. case_bool_decide as Hin; [|exact IH].
  destruct r as [tg ty h]. simpl in *. subst tg ty.
  destruct h; simpl; try exact IH; done.
Qed.

Lemma callListeners_escape e snapshot s :
  FocusTrap.key e = "Escape" →
  Forall (λ r, reg_type r = keydown ∧ reg_target r = Document) snapshot →
  armed s →
  escapeRegistration ∉ listeners (world s) →
  trapRegistration ∈ snapshot →
  ∃ s', callListeners (KeyDownEv e) snapshot s = Normal s'
    ∧ closeCalls (modal s') = S (closeCalls (modal s)).
Proof.
  intros Hkey Hshape Harmed Hesc Hin.
  induction Hshape as [|r rest [Hty Htg] Hrest IH]; [by apply elem_of_nil in Hin|].
  simpl. case_bool_decide as Hreg.
  - destruct r as [tg ty h]. simpl in *. subst tg ty.
    destruct h; simpl;
      try (apply IH; apply elem_of_cons in Hin as [[=]|Hin]; exact Hin).
    + (* the trap's listener *)
      destruct (trapKeyDown_fires e s Hkey Harmed) as (s' & -> & Hcc & Hgone & Hsub).
      simpl. exists s'. split; [|exact Hcc].
      apply callListeners_quiet; [done..|]. intros Hin'. apply Hesc. by apply Hsub.
    + (* the document-level Escape listener is not registered *)
      done.
  - apply IH. apply elem_of_cons in Hin as [Heq|Hin]; [|exact Hin].
    subst r. by destruct Harmed as (_ & tr & _ & _ & _ & _ & Htrap).
Qed.

Lemma dispatch_escape e s :
  FocusTrap.key e = "Escape" → armed s →
  escapeRegistration ∉ listeners (world s) →
  ∃ s', dispatch (KeyDownEv e) s = Normal s'
    ∧ closeCalls (modal s') = S (closeCalls (modal s)).
Proof.
  intros Hkey Harmed Hesc. unfold dispatch. apply callListeners_escape; try done.
  - apply Forall_forall. intros r [[Hty Hpath] _]%list_elem_of_filter.
    split; [done|]. simpl in Hpath. by destruct (reg_target r).
  - apply list_elem_of_filter. split; [done|].
    by destruct Harmed as (_ & tr & _ & _ & _ & _ & Htrap).
Qed.


(** *** The route is kept by every step *)

Lemma deactivate_result (tr : FocusTrap.t) w :
  FocusTrap.isActive (FocusTrap.deactivate tr w).1 = false
  ∧ FocusTrap.onEscape (FocusTrap.deactivate tr w).1 = FocusTrap.onEscape tr.
Proof.
  unfold FocusTrap.deactivate. by destruct (FocusTrap.isActive tr) eqn:Hact.
Qed.

Lemma handleKeyDown_trap key (tr tr1 : FocusTrap.t) w w1 eff :
  FocusTrap.handleKeyDown key tr w = Normal (tr1, w1, eff) →
  FocusTrap.isActive tr1 = FocusTrap.isActive tr
  ∧ FocusTrap.onEscape tr1 = FocusTrap.onEscape tr.
Proof.
  unfold FocusTrap.handleKeyDown, FocusTrap.focusOrThrow.
  repeat case_match; simpl; intros [= <- <- <-]; done.
Qed.

Lemma routed_weaken s s' :
  routed s →
  focusTrap (modal s') = focusTrap (modal s) →
  isOpen (modal s') = isOpen (modal s) →
  (∀ r, r ∈ listeners (world s') → r ∈ listeners (world s)) →
  routed s'.
Proof.
  intros [(tr & Htr & Hesc & Hact) Hnone] Ht Ho Hl. split.
  - exists tr. rewrite Ht, Ho. done.
  - intros Hin. apply Hnone. by apply Hl.
Qed.

Lemma deactivateTrap_result s tr :
  focusTrap (modal s) = Some tr → FocusTrap.onEscape tr = true →
  (∃ tr', focusTrap (modal (deactivateTrap s)) = Some tr'
      ∧ FocusTrap.onEscape tr' = true ∧ FocusTrap.isActive tr' = false)
  ∧ isOpen (modal (deactivateTrap s)) = isOpen (modal s)
  ∧ (∀ r, r ∈ listeners (world (deactivateTrap s)) → r ∈ listeners (world s)).
Proof.
  intros Htr Hesc. unfold deactivateTrap. rewrite Htr.
  destruct (deactivate_result tr (world s)) as [Ha He].
  pose proof (λ r, listeners_deactivate_elem r tr (world s)) as Hl.
  destruct (FocusTrap.deactivate tr (world s)) as [tr' w']. simpl in *.
  split; [|done]. exists tr'. by rewrite He.
Qed.

Lemma close_routed s : routed s → routed (close s).
Proof.
  intros Hr. unfold close. cbn [modal world tasks].
  change (isOpen (count_close (modal s))) with (isOpen (modal s)).
  destruct (isOpen (modal s)) eqn:Ho; cbn [negb].
  - set (s1 := mkSystem (set_isOpen false (count_close (modal s))) (world s) (tasks s)).
    destruct Hr as [(tr & Htr & Hesc & _) Hnone].
    destruct (deactivateTrap_result s1 tr Htr Hesc)
      as ((tr' & Htr' & Hesc' & Hact') & _ & Hl).
    split.
    + exists tr'. unfold animateOut. cbn [modal]. rewrite Hact'. done.
    + rewrite listeners_animateOut. intros Hin. apply Hnone. by apply Hl.
  - by apply (routed_weaken s).
Qed.

Lemma open_routed s :
  isBrowser (world s) = true → trapFocus (options (modal s)) = true →
  routed s → routed (open s).
Proof.
  intros Hb Htrap Hr. destruct (isOpen (modal s)) eqn:Ho.
  - by rewrite open_already.
  - destruct Hr as [(tr & Htr & Hesc & Hact) Hnone].
    assert (FocusTrap.isActive tr = false) as Hinactive.
    { destruct (FocusTrap.isActive tr); [|done]. by rewrite Hact in Ho. }
    destruct (open_arms s tr Hb Htrap Ho Htr Hinactive Hesc)
      as [(Ho' & tr' & Htr' & Hact' & Hesc' & _ & _) Hl].
    split; [by exists tr'|].
    intros Hin. by destruct (Hl _ Hin).
Qed.

Lemma immediateClose_routed s : routed s → routed (immediateClose s).
Proof.
  intros Hr. destruct Hr as [(tr0 & Htr0 & Hesc0 & _) Hnone].
  destruct (deactivateTrap_result s tr0 Htr0 Hesc0) as ((tr & Htr & Hesc & Hact) & _ & Hl).
  unfold immediateClose. split.
  - exists tr. cbn [modal]. rewrite Hact. done.
  - cbn [world]. intros Hin. apply Hnone, Hl.
    destruct (unlockScroll _); rewrite ?listeners_unlock in Hin;
      apply elem_of_listeners_runCleanups in Hin as [Hin _];
      destruct (backdropElement _);
      cbn [listeners remove set_bodyChildren setAttribute set_attributes] in Hin;
      by rewrite listeners_setProperty in Hin.
Qed.

Lemma invoke_routed d h s s' :
  routed s → invoke d h s = Normal s' → routed s'.
Proof.
  intros Hr. unfold invoke.
  destruct h, d; try (by intros [= <-]).
  - unfold trapKeyDown. destruct Hr as [(tr & Htr & Hesc & Hact) Hnone].
    rewrite Htr.
    destruct (FocusTrap.handleKeyDown e tr (world s)) as [[[tr1 w1] eff]|] eqn:Hk;
      [|done].
    simpl. intros [= <-].
    destruct (handleKeyDown_trap _ _ _ _ _ _ Hk) as [Ha1 He1].
    apply listeners_handleKeyDown in Hk.
    assert (routed (mkSystem (set_focusTrap (Some tr1) (modal s)) w1 (tasks s))) as Hr1.
    { split; [|simpl; by rewrite Hk]. exists tr1. simpl.
      rewrite He1, Ha1. done. }
    destruct (FocusTrap.escapeInvoked eff); [by apply close_routed | done].
  - unfold trapFocusOut. destruct Hr as [(tr & Htr & Hesc & Hact) Hnone].
    rewrite Htr. pose proof (listeners_handleFocusOut relatedTarget tr (world s)) as Hl.
    assert (Htr1 : (FocusTrap.handleFocusOut relatedTarget tr (world s)).1.1 = tr).
    { unfold FocusTrap.handleFocusOut. by repeat case_match. }
    destruct (FocusTrap.handleFocusOut _ _ _) as [[tr1 w1] eff]. simpl in *.
    intros [= <-]. subst tr1. split; [by exists tr|]. simpl. by rewrite Hl.
  - unfold handleBackdropClick. intros [= <-].
    destruct (_ && _); [by apply close_routed | done].
  - unfold handleEscapeKey. intros [= <-].
    destruct (_ && _); [by apply close_routed | done].
Qed.

Lemma callListeners_routed d snapshot s s' :
  routed s → callListeners d snapshot s = Normal s' → routed s'.
Proof.
  revert s. induction snapshot as [|r rest IH]; intros s Hr; simpl.
  - by intros [= <-].
  - case_bool_decide; [|by apply IH].
    destruct (invoke d (reg_listener r) s) as [s1|] eqn:Hinv; [|done]. simpl.
    apply IH. by eapply invoke_routed.
Qed.

Lemma closeTail_routed s : routed s → routed (closeTail s).
Proof.
  intros Hr. apply (routed_weaken s); try done.
  - unfold closeTail, unlockBodyScroll, cleanUpListeners, removeBackdrop, hideModal.
    cbn [modal world tasks]. by destruct (backdropElement (modal s)).
  - unfold closeTail, unlockBodyScroll, cleanUpListeners, removeBackdrop, hideModal.
    cbn [modal world tasks]. by destruct (backdropElement (modal s)).
  - intros r. unfold closeTail, unlockBodyScroll, cleanUpListeners,
      removeBackdrop, hideModal. cbn [modal world tasks].
    rewrite listeners_announce.
    destruct (backdropElement (modal s)); cbn [modal world tasks];
      cbn [unlockScroll cleanupListeners set_cleanupListeners set_backdropElement];
      destruct (unlockScroll (modal s)); rewrite ?listeners_unlock;
      rewrite elem_of_listeners_runCleanups; intros [Hin _];
      cbn [listeners remove set_bodyChildren setAttribute set_attributes] in Hin;
      by rewrite listeners_setProperty in Hin.
Qed.

Lemma step_routed ev s s' :
  isBrowser (world s) = true → trapFocus (options (modal s)) = true →
  routed s → step ev s = Normal s' → routed s'.
Proof.
  intros Hb Htrap Hr. destruct ev as [| | | | |d|task]; simpl.
  - intros [= <-]. by apply open_routed.
  - intros [= <-]. by apply close_routed.
  - intros [= <-]. unfold toggle.
    destruct (isOpen (modal s)); [by apply close_routed | by apply open_routed].
  - intros [= <-]. unfold update.
    destruct Hr as [(tr & Htr & Hesc & Hact) Hnone]. rewrite Htr.
    split; [|done]. by eexists.
  - intros [= <-]. unfold destroy.
    set (s1 := if isOpen (modal s) then immediateClose s else s).
    assert (routed s1) as Hr1
      by (subst s1; destruct (isOpen (modal s)); [by apply immediateClose_routed | done]).
    by apply (routed_weaken s1).
  - by apply callListeners_routed.
  - case_bool_decide; [|by intros [= <-]].
    set (s1 := mkSystem (modal s) (world s) (dequeue task (tasks s))).
    assert (routed s1) as Hr1 by done.
    destruct task; simpl.
    + intros [= <-]. apply (routed_weaken s1); try done.
      intros r. unfold animateInFrame. cbn [world].
      rewrite !listeners_setProperty.
      destruct (backdropElement _); [|done].
      destruct (backdropBlur _); by rewrite !listeners_setProperty.
    + destruct (focusTrap (modal s)) as [tr|]; [|by intros [= <-]].
      destruct (FocusTrap.initialFocusFrame tr (world s)) as [w1|] eqn:Hf; [|done].
      simpl. intros [= <-]. apply listeners_initialFocusFrame in Hf.
      apply (routed_weaken s1); try done. simpl. by rewrite Hf.
    + intros [= <-]. by apply closeTail_routed.
Qed.

Lemma createModal_routed element opts w s0 :
  createModal element opts w = Some s0 →
  trapFocus opts = true → closeOnEscape opts = true →
  escapeRegistration ∉ listeners w →
  routed s0.
Proof.
  unfold createModal. destruct (isBrowser w); [|done]. simpl.
  intros [= <-] Htrap Hesc Hnone. rewrite Htrap, Hesc. split.
  - eexists. simpl. split; [reflexivity|]. by split.
  - simpl. autorewrite with listeners.
    destruct (ariaLabel opts) as [l|]; [case_match|];
      simpl; by autorewrite with listeners.
Qed.

Lemma reachable_routed s0 s :
  isBrowser (world s0) = true → trapFocus (options (modal s0)) = true →
  routed s0 → reachable s0 s → routed s.
Proof.
  intros Hb Htrap Hr0. induction 1 as [|s ev s' Hreach IH Hstep]; [done|].
  pose proof (reachable_setting _ _ Hreach) as Hset.
  unfold setting in Hset. injection Hset as Hbs Hopts.
  eapply step_routed; [| |exact IH|exact Hstep]; congruence.
Qed.

(** C6. For a modal created with trapFocus and closeOnEscape, at every
    state it can reach: the document-level Escape listener is not
    registered, neither before nor after a call of [open()]; and when the
    modal is closed, [open()] followed by one Escape keydown makes
    exactly one call of [close()]. *)
Theorem Modal_escape_is_routed_through_the_trap_once
    (element : Elem) (opts : ModalOptions) (w : World) (s0 s : System)
    (e : FocusTrap.KeyboardEvent) :
  createModal element opts w = Some s0 →
  trapFocus opts = true →
  closeOnEscape opts = true →
  escapeRegistration ∉ listeners w →
  reachable s0 s →
  FocusTrap.key e = "Escape" →
  (escapeRegistration ∉ listeners (world s))
  ∧ (escapeRegistration ∉ listeners (world (open s)))
  ∧ (isOpen (modal s) = false →
       ∃ s', dispatch (KeyDownEv e) (open s) = Normal s'
         ∧ closeCalls (modal s') = S (closeCalls (modal (open s)))).
Proof.
  intros Hcreate Htrap Hesc Hnone Hreach Hkey.
  destruct (createModal_initial _ _ _ _ Hcreate) as (Hb0 & Hopt0 & _).
  pose proof (createModal_routed _ _ _ _ Hcreate Htrap Hesc Hnone) as Hr0.
  rewrite <- Hopt0 in Htrap.
  pose proof (reachable_routed _ _ Hb0 Htrap Hr0 Hreach) as Hr.
  pose proof (reachable_setting _ _ Hreach) as Hset.
  unfold setting in Hset. injection Hset as Hb Hopts.
  rewrite <- Hb in Hb0. rewrite <- Hopts in Htrap.
  pose proof (open_routed s Hb0 Htrap Hr) as Hro.
  split; [by destruct Hr|]. split; [by destruct Hro|].
  intros Ho. destruct Hr as [(tr & Htr & Hesc' & Hact) _].
  assert (FocusTrap.isActive tr = false) as Hinactive.
  { destruct (FocusTrap.isActive tr); [|done]. by rewrite Hact in Ho. }
  destruct (open_arms s tr Hb0 Htrap Ho Htr Hinactive Hesc') as [Harmed _].
  apply dispatch_escape; [done | done | by destruct Hro].
Qed.

(** C6 for the default modal of the example page. *)
Lemma Modal_escape_is_routed_through_the_trap_once_witness :
  createModal 10 defaultOptions Examples.page = Some Examples.pageModal
  ∧ trapFocus defaultOptions = true
  ∧ closeOnEscape defaultOptions = true
  ∧ (escapeRegistration ∉ listeners Examples.page)
  ∧ reachable Examples.pageModal Examples.pageModal
  ∧ ∃ s', dispatch (KeyDownEv (FocusTrap.mkKey "Escape" false))
                   (open Examples.pageModal) = Normal s'
      ∧ closeCalls (modal s') = S (closeCalls (modal (open Examples.pageModal))).
Proof.
  assert (Hcreate : createModal 10 defaultOptions Examples.page
                    = Some Examples.pageModal) by (vm_compute; reflexivity).
  assert (Hnone : escapeRegistration ∉ listeners Examples.page)
    by (simpl; apply not_elem_of_nil).
  split; [exact Hcreate|]. split; [reflexivity|]. split; [reflexivity|].
  split; [exact Hnone|]. split; [constructor|].
  apply (Modal_escape_is_routed_through_the_trap_once 10 defaultOptions
           Examples.page Examples.pageModal Examples.pageModal
           (FocusTrap.mkKey "Escape" false)
           Hcreate eq_refl eq_refl Hnone (reachable_init _) eq_refl).
  reflexivity.
Defined.
End ModalEscape.

(** ** Scroll lock *)
Section ScrollLock.
Import Dom.

(** C9. In a browser [lockScroll()] captures [window.scrollY] and the
    body's inline style string as they are before it pins the body, and
    pins it at minus the captured offset; whatever happens in between,
    calling the returned closure writes the captured string back and
    scrolls to (0, captured offset); so unlocking right after locking
    leaves the body's inline style and the vertical scroll position as
    they were before the lock. *)
Theorem lockScroll_unlock_restores (w : World) :
  isBrowser w = true →
  (lockScroll w).1 = Some (scrollY w, bodyCssText w)
  ∧ (∃ before after,
       bodyCssText (lockScroll w).2
       = before +:+ "position: fixed;" +:+ after
       ∧ bodyCssText (lockScroll w).2
         = String (Ascii.ascii_of_nat 10) "    position: fixed;"
           +:+ String (Ascii.ascii_of_nat 10) "    top: -"
           +:+ pretty (scrollY w) +:+ "px;"
           +:+ String (Ascii.ascii_of_nat 10) "    left: 0;"
           +:+ String (Ascii.ascii_of_nat 10) "    right: 0;"
           +:+ String (Ascii.ascii_of_nat 10) "    overflow: hidden;"
           +:+ String (Ascii.ascii_of_nat 10) "  ")
  ∧ (∀ w', bodyCssText (unlock (lockScroll w).1 w') = bodyCssText w
           ∧ scrollY (unlock (lockScroll w).1 w') = scrollY w
           ∧ scrollX (unlock (lockScroll w).1 w') = 0%Z)
  ∧ bodyCssText (unlock (lockScroll w).1 (lockScroll w).2) = bodyCssText w
  ∧ scrollY (unlock (lockScroll w).1 (lockScroll w).2) = scrollY w.
Proof.
  intros Hb. unfold lockScroll, getDocument. rewrite Hb. simpl.
  repeat split.
  eexists (String (Ascii.ascii_of_nat 10) "    "), _. split; reflexivity.
Qed.

(** C9 on the example page, scrolled to 120px. *)
Lemma lockScroll_unlock_restores_witness :
  isBrowser Examples.page = true
  ∧ bodyCssText (unlock (lockScroll Examples.page).1 (lockScroll Examples.page).2)
    = "margin: 0px;"
  ∧ scrollY (unlock (lockScroll Examples.page).1 (lockScroll Examples.page).2)
    = 120%Z.
Proof.
  split; [reflexivity|].
  destruct (lockScroll_unlock_restores Examples.page eq_refl)
    as (_ & _ & _ & Hcss & Hy).
  split; [exact Hcss | exact Hy].
Defined.
End ScrollLock.

(** ** Dropdown: ArrowDown moves the roving focus *)
Section DropdownFacts.
Import Dom Dropdown.
Implicit Types (s : System).

Lemma listeners_clearFocusIndicators d w :
  listeners (clearFocusIndicators d w) = listeners w.
Proof.
  unfold clearFocusIndicators. generalize (menuItems d). intros l. revert w.
  induction l as [|x l IH]; intros w; [done|]. simpl. by rewrite IH.
Qed.

(** [open()] on a closed dropdown. *)
Lemma open_resets pos s :
  isOpen (dropdown s) = false →
  menuItems (dropdown (open pos s)) = getMenuItems (dropdown s) (world s)
  ∧ focusedIndex (dropdown (open pos s)) = (-1)%Z
  ∧ menu (dropdown (open pos s)) = menu (dropdown s)
  ∧ menuRegistration s ∈ listeners (world (open pos s)).
Proof.
  intros Ho. unfold open. rewrite Ho. unfold updateMenuItems.
  cbn [dropdown world tasks animateIn]. repeat split.
  unfold menuRegistration.
  do 3 (match goal with |- context [addListener ?a ?b ?c ?d] =>
          let H := fresh "Hadd" in
          pose proof (λ r, elem_of_listeners_addListener r a b c d) as H;
          destruct (addListener a b c d) as [? ?]; cbn [snd] in H
        end).
  cbn [world menu set_focusedIndex set_menuItems set_isOpen set_cleanupListeners].
  rewrite !listeners_setProperty.
  apply Hadd1. left. apply Hadd0. by right.
Qed.

(** [focusItem(index)] once the index is within the items. *)
Lemma focusItem_in_range (i : Z) item s :
  (0 ≤ i)%Z →
  menuItems (dropdown s) !! Z.to_nat i = Some item →
  focusItem i s
  = Normal (mkSystem (set_focusedIndex i (dropdown s))
              (focus item (classList_add item "atlas-dropdown-focused"
                             (clearFocusIndicators (dropdown s) (world s))))
              (tasks s)).
Proof.
  intros Hi Hitem. unfold focusItem.
  assert (Z.to_nat i < length (menuItems (dropdown s))) as Hlt
    by (by eapply lookup_lt_Some).
  rewrite bool_decide_eq_false_2 by lia.
  rewrite (bool_decide_eq_false_2 (i < 0)%Z) by lia.
  rewrite bool_decide_eq_false_2 by lia.
  unfold at_index. cbn [focusedIndex set_focusedIndex menuItems].
  rewrite (bool_decide_eq_false_2 (i < 0)%Z) by lia.
  by rewrite Hitem.
Qed.

(** [focusItem(length)] wraps to the first item. *)
Lemma focusItem_wraps item s :
  menuItems (dropdown s) !! 0 = Some item →
  focusItem (Z.of_nat (length (menuItems (dropdown s)))) s
  = Normal (mkSystem (set_focusedIndex 0 (dropdown s))
              (focus item (classList_add item "atlas-dropdown-focused"
                             (clearFocusIndicators (dropdown s) (world s))))
              (tasks s)).
Proof.
  intros Hitem. unfold focusItem.
  assert (0 < length (menuItems (dropdown s))) as Hlt
    by (by eapply lookup_lt_Some).
  rewrite bool_decide_eq_false_2 by lia.
  rewrite (bool_decide_eq_false_2 (Z.of_nat _ < 0)%Z) by lia.
  rewrite bool_decide_eq_true_2 by lia.
  unfold at_index. cbn [focusedIndex set_focusedIndex menuItems].
  rewrite bool_decide_eq_false_2 by lia.
  change (Z.to_nat 0) with 0. by rewrite Hitem.
Qed.

(** One ArrowDown on a menu holding the listener [open()] registered. *)
Lemma ArrowDown_moves (next : Z) item s :
  menuRegistration s ∈ listeners (world s) →
  menuItems (dropdown s) !! Z.to_nat next = Some item →
  (next = focusedIndex (dropdown s) + 1 ∧ 0 ≤ next
   ∨ next = 0 ∧ focusedIndex (dropdown s) + 1
                = Z.of_nat (length (menuItems (dropdown s))))%Z →
  ∃ s', sendKeyToMenu ArrowDown s = Normal s'
    ∧ focusedIndex (dropdown s') = next
    ∧ activeElement (world s') = Some item
    ∧ menuItems (dropdown s') = menuItems (dropdown s)
    ∧ menuRegistration s' ∈ listeners (world s').
Proof.
  intros Hreg Hitem Hnext. unfold sendKeyToMenu.
  rewrite bool_decide_eq_true_2 by done.
  unfold handleMenuKeyDown. simpl.
  assert (focusItem (focusedIndex (dropdown s) + 1) s
          = Normal (mkSystem (set_focusedIndex next (dropdown s))
              (focus item (classList_add item "atlas-dropdown-focused"
                             (clearFocusIndicators (dropdown s) (world s))))
              (tasks s))) as ->.
  { destruct Hnext as [[-> Hpos]|[-> ->]].
    - by apply focusItem_in_range.
    - by apply focusItem_wraps. }
  simpl. eexists. split; [reflexivity|]. simpl. repeat split.
  unfold menuRegistration. simpl. by rewrite listeners_clearFocusIndicators.
Qed.

(** C7, as the code has it. Open a closed dropdown whose menu holds
    exactly three enabled items: the focused index is reset to -1; the
    first three ArrowDown presses focus the items 0, 1 and 2 in turn, and
    it is the fourth press that wraps back to item 0. *)
Theorem Dropdown_ArrowDown_wraps_on_fourth_press
    (pos : Position) (s : System) (a b c : Elem) :
  isOpen (dropdown s) = false →
  getMenuItems (dropdown s) (world s) = [a; b; c] →
  focusedIndex (dropdown (open pos s)) = (-1)%Z
  ∧ ∃ s1 s2 s3 s4,
      sendKeyToMenu ArrowDown (open pos s) = Normal s1
      ∧ focusedIndex (dropdown s1) = 0%Z ∧ activeElement (world s1) = Some a
      ∧ sendKeyToMenu ArrowDown s1 = Normal s2
      ∧ focusedIndex (dropdown s2) = 1%Z ∧ activeElement (world s2) = Some b
      ∧ sendKeyToMenu ArrowDown s2 = Normal s3
      ∧ focusedIndex (dropdown s3) = 2%Z ∧ activeElement (world s3) = Some c
      ∧ sendKeyToMenu ArrowDown s3 = Normal s4
      ∧ focusedIndex (dropdown s4) = 0%Z ∧ activeElement (world s4) = Some a.
Proof.
  intros Ho Hitems.
  destruct (open_resets pos s Ho) as (Hm0 & Hi0 & Hmenu & Hr0).
  rewrite Hitems in Hm0. split; [exact Hi0|].
  assert (Hr0' : menuRegistration (open pos s) ∈ listeners (world (open pos s)))
    by (unfold menuRegistration in *; by rewrite Hmenu).
  destruct (ArrowDown_moves 0 a (open pos s) Hr0') as (s1 & H1 & Hi1 & Ha1 & Hm1 & Hr1).
  { by rewrite Hm0. }
  { left. rewrite Hi0. lia. }
  destruct (ArrowDown_moves 1 b s1 Hr1) as (s2 & H2 & Hi2 & Ha2 & Hm2 & Hr2).
  { by rewrite Hm1, Hm0. }
  { left. rewrite Hi1. lia. }
  destruct (ArrowDown_moves 2 c s2 Hr2) as (s3 & H3 & Hi3 & Ha3 & Hm3 & Hr3).
  { by rewrite Hm2, Hm1, Hm0. }
  { left. rewrite Hi2. lia. }
  destruct (ArrowDown_moves 0 a s3 Hr3) as (s4 & H4 & Hi4 & Ha4 & Hm4 & Hr4).
  { by rewrite Hm3, Hm2, Hm1, Hm0. }
  { right. rewrite Hi3, Hm3, Hm2, Hm1, Hm0. simpl. lia. }
  exists s1, s2, s3, s4. repeat split; assumption.
Qed.

(** C7 fails as stated: on the example menu the third ArrowDown after
    [open()] leaves the focused index at 2, not back at 0. *)
Lemma Dropdown_third_ArrowDown_focuses_index_2 :
  getMenuItems (dropdown Examples.pageDropdown) (world Examples.pageDropdown)
  = [21%positive; 22%positive; 23%positive]
  ∧ (s1 ← sendKeyToMenu ArrowDown (open Examples.menuPosition Examples.pageDropdown);
     s2 ← sendKeyToMenu ArrowDown s1;
     s3 ← sendKeyToMenu ArrowDown s2;
     Normal (focusedIndex (dropdown s1), focusedIndex (dropdown s2),
             focusedIndex (dropdown s3)))
    = Normal (0%Z, 1%Z, 2%Z)
  ∧ 2%Z ≠ 0%Z.
Proof. vm_compute. repeat split; done. Qed.

(** The amended C7 on the example menu. *)
Lemma Dropdown_ArrowDown_wraps_on_fourth_press_witness :
  isOpen (dropdown Examples.pageDropdown) = false
  ∧ getMenuItems (dropdown Examples.pageDropdown) (world Examples.pageDropdown)
    = [21%positive; 22%positive; 23%positive]
  ∧ focusedIndex (dropdown (open Examples.menuPosition Examples.pageDropdown))
    = (-1)%Z.
Proof.
  assert (Hitems : getMenuItems (dropdown Examples.pageDropdown)
                     (world Examples.pageDropdown)
                   = [21%positive; 22%positive; 23%positive])
    by (vm_compute; reflexivity).
  split; [reflexivity|]. split; [exact Hitems|].
  exact (proj1 (Dropdown_ArrowDown_wraps_on_fourth_press Examples.menuPosition
                  Examples.pageDropdown 21 22 23 eq_refl Hitems)).
Defined.
End DropdownFacts.

(** * Further properties *)

Section FilterFacts.
Context {A : Type} (P : A → Prop) `{!∀ x, Decision (P x)}.

Lemma filter_all (l : list A) : Forall P l → filter P l = l.
Proof.
  induction 1 as [|x l Hx _ IH]; [done|].
  by rewrite filter_cons_True, IH.
Qed.

Lemma filter_none (l : list A) : Forall (λ x, ¬ P x) l → filter P l = [].
Proof.
  induction 1 as [|x l Hx _ IH]; [done|].
  by rewrite filter_cons_False.
Qed.
End FilterFacts.

(** ** [ensurePositioned] *)
Section StyleUtilsFacts.
Import Dom StyleManager StyleUtils.
Implicit Types (e : Elem) (p v : string) (w : World) (sm : StyleManager.t).

Lemma getPropertyValue_removeProperty_elem e e' p q w :
  e ≠ e' → getPropertyValue e' q (removeProperty e p w) = getPropertyValue e' q w.
Proof.
  intros Hne. unfold getPropertyValue, removeProperty.
  by rewrite styleOf_set_inlineStyle_ne.
Qed.

Lemma getPropertyValue_setProperty_elem e e' p q v w :
  e ≠ e' → getPropertyValue e' q (setProperty e p v w) = getPropertyValue e' q w.
Proof.
  intros Hne. unfold setProperty. case_decide.
  - by apply getPropertyValue_removeProperty_elem.
  - unfold getPropertyValue. by rewrite styleOf_set_inlineStyle_ne.
Qed.

(** X3. [ensurePositioned]: an element whose computed position is static
    gets the inline position [relative], any other element is left alone;
    the returned cleanup gives every inline property of every element its
    earlier value. *)
Theorem ensurePositioned_cleanup_restores
    (computedPosition : string) (element : Elem) (w : World) :
  getPropertyValue element "position" (ensurePositioned computedPosition element w).2
  = (if bool_decide (computedPosition = "static") then "relative"
     else getPropertyValue element "position" w)
  ∧ ∀ e p,
      getPropertyValue e p
        (runPositionCleanup element (ensurePositioned computedPosition element w).1
           (ensurePositioned computedPosition element w).2)
      = getPropertyValue e p w.
Proof.
  unfold ensurePositioned. case_bool_decide; simpl; [|done]. split.
  - by rewrite getPropertyValue_setProperty_eq.
  - intros e p. destruct (decide (element = e)) as [<-|Hne].
    + destruct (decide (p = "position")) as [->|Hp].
      * by rewrite getPropertyValue_setProperty_eq.
      * rewrite !getPropertyValue_setProperty_ne by done. done.
    + by rewrite !getPropertyValue_setProperty_elem.
Qed.
End StyleUtilsFacts.

(** ** What cosmetic writes leave alone *)
Section PageFrame.
Import Dom Page.
Implicit Types (w : World) (e : Elem) (r : Registration).

Lemma layout_setProperty e p v w : layout (setProperty e p v w) = layout w.
Proof. unfold setProperty. by case_decide. Qed.

Lemma layout_assignStyles e styles w : layout (assignStyles e styles w) = layout w.
Proof.
  unfold assignStyles. revert w.
  induction styles as [|[p v] styles IH]; intros w; [done|].
  simpl. by rewrite IH, layout_setProperty.
Qed.

Lemma layout_setAttributes e kvs w : layout (setAttributes e kvs w) = layout w.
Proof.
  unfold setAttributes. revert w.
  induction kvs as [|[k v] kvs IH]; intros w; [done|].
  simpl. by rewrite IH.
Qed.

Lemma layout_announce msg w : layout (announce msg w) = layout w.
Proof. unfold announce. by destruct (isBrowser w). Qed.

Lemma layout_addListener tg ty h w : layout (addListener tg ty h w).2 = layout w.
Proof. unfold addListener. simpl. by case_bool_decide. Qed.

Lemma layout_runCleanups rs w : layout (runCleanups rs w) = layout w.
Proof.
  unfold runCleanups. revert w. induction rs as [|r rs IH]; intros w; [done|].
  simpl. by rewrite IH.
Qed.

(** The registry as a list: a fresh triple goes to the end, cleanups
    filter. *)
Lemma listeners_addListener_fresh tg ty h w :
  mkReg tg ty h ∉ listeners w →
  addListener tg ty h w
  = (mkReg tg ty h, set_listeners (listeners w ++ [mkReg tg ty h]) w).
Proof. intros Hfresh. unfold addListener. by rewrite bool_decide_eq_false_2. Qed.

Lemma listeners_runCleanups rs w :
  listeners (runCleanups rs w) = filter (λ r, r ∉ rs) (listeners w).
Proof.
  unfold runCleanups. revert w. induction rs as [|r rs IH]; intros w; simpl.
  - symmetry. apply filter_all, Forall_forall. intros x _. apply not_elem_of_nil.
  - rewrite IH. unfold cleanup. simpl. rewrite list_filter_filter.
    apply list_filter_iff. intros x. rewrite not_elem_of_cons. tauto.
Qed.

Lemma filter_added (l rs : list Registration) :
  (∀ r, r ∈ rs → r ∉ l) → filter (λ r, r ∉ rs) (l ++ rs) = l.
Proof.
  intros Hfresh. rewrite filter_app, filter_all, filter_none.
  - apply app_nil_r.
  - apply Forall_forall. intros x Hx Hn. done.
  - apply Forall_forall. intros x Hx Hn. by apply (Hfresh x).
Qed.

Lemma attributes_runCleanups rs w : attributes (runCleanups rs w) = attributes w.
Proof.
  unfold runCleanups. revert w. induction rs as [|r rs IH]; intros w; [done|].
  simpl. by rewrite IH.
Qed.

Lemma getAttribute_removeAttribute e k w :
  getAttribute e k (removeAttribute e k w) = None.
Proof.
  unfold getAttribute, removeAttribute, attrsOf. simpl.
  by rewrite lookup_insert_eq; simpl; rewrite lookup_delete_eq.
Qed.
End PageFrame.

(** ** shared/dom.ts: nested scroll locks *)
Section ScrollLockNesting.
Import Dom.

(** X4. Two overlays lock the scroll one after the other, the second
    while the body is still pinned by the first.  Unlocking in reverse
    order gives the body its first inline style and scroll offset back;
    unlocking in the order of locking leaves the body pinned at the first
    lock's offset, for the second closure wrote back what it had seen. *)
Theorem lockScroll_unlock_order_matters (w w1 w2 : World) :
  isBrowser w = true →
  isBrowser w1 = true →
  bodyCssText w1 = bodyCssText (lockScroll w).2 →
  (bodyCssText (unlock (lockScroll w).1 (unlock (lockScroll w1).1 w2)) = bodyCssText w
   ∧ scrollY (unlock (lockScroll w).1 (unlock (lockScroll w1).1 w2)) = scrollY w)
  ∧ bodyCssText (unlock (lockScroll w1).1 (unlock (lockScroll w).1 w2))
    = bodyCssText (lockScroll w).2.
Proof.
  intros Hb Hb1 Hcss. unfold lockScroll, getDocument in *.
  rewrite Hb in *. rewrite Hb1. simpl in *. by repeat split.
Qed.

(** X4 on the example page: the second lock is taken right after the
    first. *)
Lemma lockScroll_unlock_order_matters_witness :
  bodyCssText
    (unlock (lockScroll (lockScroll Examples.page).2).1
       (unlock (lockScroll Examples.page).1 (lockScroll (lockScroll Examples.page).2).2))
  = bodyCssText (lockScroll Examples.page).2.
Proof.
  apply (lockScroll_unlock_order_matters Examples.page (lockScroll Examples.page).2
           (lockScroll (lockScroll Examples.page).2).2); reflexivity.
Defined.
End ScrollLockNesting.

(** ** Focus trap: what a whole activation leaves behind *)
Section FocusTrapCycle.
Import Dom FocusTrap.
Implicit Types (w : World) (tr : FocusTrap.t).

Lemma activate_fresh tr w :
  isBrowser w = true →
  isActive tr = false →
  mkReg Document keydown TrapKeyDown ∉ listeners w →
  mkReg (Node (container tr)) focusout TrapFocusOut ∉ listeners w →
  activate tr w
  = (set_cleanupListeners
       (cleanupListeners tr
        ++ [mkReg Document keydown TrapKeyDown;
            mkReg (Node (container tr)) focusout TrapFocusOut])
       (updateElements
          (set_previouslyFocused (activeElement w) (set_isActive true tr)) w),
     set_listeners
       (listeners w
        ++ [mkReg Document keydown TrapKeyDown;
            mkReg (Node (container tr)) focusout TrapFocusOut]) w,
     true).
Proof.
  intros Hb Hact Hkd Hfo. unfold activate, getDocument. rewrite Hact, Hb.
  cbn [negb]. rewrite listeners_addListener_fresh by done.
  rewrite listeners_addListener_fresh.
  - simpl. by rewrite <- app_assoc.
  - simpl. rewrite elem_of_app, list_elem_of_singleton.
    by intros [Hin|[=]].
Qed.

(** X5. A trap that is not active and holds no cleanup, on a page where
    its two listeners are not registered: [activate()] registers the
    keydown listener on the document and the focusout listener on the
    container, in this order, after the ones already there; and
    [deactivate()], whatever the handlers did to the trap and the page in
    between, as long as the registry was not touched, leaves the registry
    as it was before [activate()], the trap inactive, with no cleanup and
    no remembered element. *)
Theorem FocusTrap_activation_leaves_no_listener tr w tr' w' :
  isBrowser w = true →
  isActive tr = false →
  cleanupListeners tr = [] →
  mkReg Document keydown TrapKeyDown ∉ listeners w →
  mkReg (Node (container tr)) focusout TrapFocusOut ∉ listeners w →
  isActive tr' = true →
  cleanupListeners tr' = cleanupListeners (activate tr w).1.1 →
  listeners w' = listeners (activate tr w).1.2 →
  listeners (activate tr w).1.2
  = listeners w ++ [mkReg Document keydown TrapKeyDown;
                    mkReg (Node (container tr)) focusout TrapFocusOut]
  ∧ isActive (activate tr w).1.1 = true
  ∧ listeners (deactivate tr' w').2 = listeners w
  ∧ isActive (deactivate tr' w').1 = false
  ∧ cleanupListeners (deactivate tr' w').1 = []
  ∧ previouslyFocused (deactivate tr' w').1 = None.
Proof.
  intros Hb Hact Hcl Hkd Hfo Hact' Hcl' Hl'.
  rewrite activate_fresh in * by done. simpl in Hcl', Hl'. rewrite Hcl in Hcl'.
  simpl in Hcl'. split; [done|]. split; [done|].
  unfold deactivate. rewrite Hact'. cbn [negb]. cbv zeta. split; [|done].
  cbn [cleanupListeners set_isActive set_cleanupListeners container returnFocus
       previouslyFocused].
  rewrite Hcl'.
  set (w1 := runCleanups _ w').
  assert (Hw1 : listeners w1 = listeners w).
  { subst w1. rewrite listeners_runCleanups, Hl'. apply filter_added.
    intros r [->|[->|[]%elem_of_nil]%elem_of_cons]%elem_of_cons; done. }
  rewrite <- Hw1. repeat case_match; done.
Qed.

(** X5 on the example page: the dialog's trap, deactivated right after
    its activation. *)
Lemma FocusTrap_activation_leaves_no_listener_witness :
  listeners
    (deactivate (activate (createFocusTrap 10 None None false) Examples.page).1.1
       (activate (createFocusTrap 10 None None false) Examples.page).1.2).2
  = listeners Examples.page.
Proof.
  apply (FocusTrap_activation_leaves_no_listener
           (createFocusTrap 10 None None false) Examples.page
           (activate (createFocusTrap 10 None None false) Examples.page).1.1
           (activate (createFocusTrap 10 None None false) Examples.page).1.2);
    try reflexivity; apply not_elem_of_nil.
Defined.

(** X6. The key handler's own statements never throw, for an empty list
    of focusable elements as for any other. It calls [onEscape] exactly
    when the trap is active, the key is Escape and a callback was
    supplied; on Escape of an active trap the default is prevented first
    and the page and the trap are as they were when the callback is
    reached. Whenever the callback is not called, the handler leaves the
    registry alone and moves focus only on Tab, only with the default
    prevented, and only to a rendered descendant of the container that
    matches the focusable selector at the time of the key press. What the
    callback itself does is its owner's business and is not part of
    this statement. *)
Theorem FocusTrap_keydown_moves_focus_only_inside
    (e : KeyboardEvent) tr w :
  ∃ tr' w' eff,
    handleKeyDown e tr w = Normal (tr', w', eff)
    ∧ escapeInvoked eff
      = isActive tr && bool_decide (key e = "Escape") && onEscape tr
    ∧ (isActive tr = true → key e = "Escape" →
         defaultPrevented eff = true ∧ tr' = tr ∧ w' = w)
    ∧ (escapeInvoked eff = false →
         listeners w' = listeners w
         ∧ (activeElement w' = activeElement w
            ∨ (key e = "Tab" ∧ defaultPrevented eff = true
               ∧ ∃ el, activeElement w' = Some el
                       ∧ el ∈ descendantsOf (container tr) w
                       ∧ el ∈ rendered w
                       ∧ matchesFocusable el w = true))).
Proof.
  destruct (handleKeyDown_returns e tr w) as (tr' & w' & eff & Hk & _).
  exists tr', w', eff. split; [done|].
  assert (Hl : listeners w' = listeners w)
    by apply (listeners_handleKeyDown _ _ _ _ _ _ Hk).
  revert Hk. unfold handleKeyDown.
  destruct (isActive tr); cbn [negb andb];
    [|intros [= <- <- <-]; split; [done|]; split; [done|]; split; [done | by left]].
  case_bool_decide as Hesc;
    [intros [= <- <- <-]; split; [done|]; split; [done|]; split; [done | by left]|].
  cbn [andb].
  case_bool_decide as Htab;
    [|intros [= <- <- <-]; split; [done|]; split; [done|]; split; [done | by left]].
  assert (Hin : ∀ i el, focusableElements (updateElements tr w) !! i = Some el →
            el ∈ descendantsOf (container tr) w ∧ el ∈ rendered w
            ∧ matchesFocusable el w = true).
  { intros i el Hi. apply list_elem_of_lookup_2 in Hi. simpl in Hi.
    unfold getFocusableElements in Hi. apply list_elem_of_filter in Hi.
    tauto. }
  cbv zeta. repeat case_match; unfold focusOrThrow;
    try (intros [= <- <- <-]; split; [done|]; split; [done|]; split; [done | by left]);
    repeat case_match; simpl; try done;
    intros [= <- <- <-]; (split; [done|]); (split; [done|]); intros _;
    (split; [done|]); right; (split; [done|]); (split; [done|]);
    eexists; (split; [reflexivity|]); eapply Hin; eassumption.
Qed.

(** X7. [deactivate()] of an active trap removes the container's
    [tabindex] exactly when it is [-1], whoever set it: a container that
    carried [tabindex="-1"] of its own loses it as well; any other value
    is kept. *)
Theorem FocusTrap_deactivate_drops_tabindex_minus_one tr w :
  isActive tr = true →
  getAttribute (container tr) "tabindex" (deactivate tr w).2
  = if bool_decide (getAttribute (container tr) "tabindex" w = Some "-1")
    then None else getAttribute (container tr) "tabindex" w.
Proof.
  intros Hact. unfold deactivate. rewrite Hact. cbn [negb]. cbv zeta.
  cbn [container set_isActive set_cleanupListeners cleanupListeners returnFocus
       previouslyFocused snd].
  set (w1 := runCleanups _ w).
  assert (Hw1 : ∀ k, getAttribute (container tr) k w1
                     = getAttribute (container tr) k w).
  { intros k. subst w1. unfold getAttribute, attrsOf.
    by rewrite attributes_runCleanups. }
  rewrite <- (Hw1 "tabindex").
  assert (Hfocus : ∀ el w2 k, getAttribute (container tr) k (focus el w2)
                              = getAttribute (container tr) k w2) by done.
  case_bool_decide as Hm.
  - repeat case_match; rewrite ?Hfocus; apply getAttribute_removeAttribute.
  - repeat case_match; by rewrite ?Hfocus.
Qed.

(** X7 on the example page: the dialog carries [tabindex="-1"] in its
    markup; after one activation it is gone. *)
Lemma FocusTrap_deactivate_drops_tabindex_minus_one_witness :
  getAttribute 10 "tabindex"
    (deactivate
       (activate (createFocusTrap 10 None None false)
          (setAttribute 10 "tabindex" "-1" Examples.page)).1.1
       (activate (createFocusTrap 10 None None false)
          (setAttribute 10 "tabindex" "-1" Examples.page)).1.2).2
  = None.
Proof.
  apply (FocusTrap_deactivate_drops_tabindex_minus_one
           (activate (createFocusTrap 10 None None false)
              (setAttribute 10 "tabindex" "-1" Examples.page)).1.1
           (activate (createFocusTrap 10 None None false)
              (setAttribute 10 "tabindex" "-1" Examples.page)).1.2).
  reflexivity.
Defined.
End FocusTrapCycle.

(** ** Modal: whole cycles *)
Section ModalCycleFacts.
Import Dom Modal ModalCycle.
Implicit Types (w : World) (e : Elem) (r : Registration) (m : Modal.t)
  (ts : list Task) (L : list Registration) (B : list Elem) (a : option Elem)
  (css : string) (x y : Z) (n : Elem).

(** *** The view through the DOM primitives *)

Lemma view_setProperty e p v w : view (setProperty e p v w) = view w.
Proof. unfold setProperty. by case_decide. Qed.

Lemma view_announce msg w : view (announce msg w) = view w.
Proof. unfold announce. by destruct (isBrowser w). Qed.

Lemma view_createElement tag cls attrs styles w L a B css x y n :
  view w = (true, L, (a, B, css, x, y, n)) →
  ∃ w', createElement tag cls attrs styles w = (Some n, w')
        ∧ view w' = (true, L, (a, B, css, x, y, Pos.succ n)).
Proof.
  unfold view, Page.layout. intros [= Hb HL Ha HB Hcss Hx Hy Hn].
  unfold createElement, getDocument. rewrite Hb. eexists. split.
  - by rewrite Hn.
  - pose proof layout_assignStyles as H1. pose proof layout_setAttributes as H2.
    unfold Page.layout in H1, H2.
    rewrite isBrowser_assignStyles, listeners_assignStyles, H1.
    rewrite isBrowser_setAttributes, listeners_setAttributes, H2.
    destruct cls; simpl; congruence.
Qed.

Lemma view_addListener tg ty h w L lay :
  view w = (true, L, lay) → mkReg tg ty h ∉ L →
  ∃ w', addListener tg ty h w = (mkReg tg ty h, w')
        ∧ view w' = (true, L ++ [mkReg tg ty h], lay).
Proof.
  unfold view. intros [= Hb HL Hlay] Hfresh. rewrite <- HL in Hfresh.
  rewrite listeners_addListener_fresh by done. eexists. split; [done|].
  change (Page.layout (set_listeners ?l w)) with (Page.layout w).
  simpl. congruence.
Qed.

Lemma view_runCleanups rs w (b : bool) L lay :
  view w = (b, L, lay) →
  view (runCleanups rs w) = (b, filter (λ r, r ∉ rs) L, lay).
Proof.
  unfold view. intros [= Hb HL Hlay].
  by rewrite isBrowser_runCleanups, listeners_runCleanups, layout_runCleanups,
    Hb, HL, Hlay.
Qed.

(** *** The blocks of [open()] *)

Lemma lockBodyScroll_cycle m w ts L a B css x y n :
  view w = (true, L, (a, B, css, x, y, n)) →
  ∃ w' pinned,
    lockBodyScroll (mkSystem m w ts)
    = mkSystem (set_unlockScroll (Some (Some (y, css))) m) w' ts
    ∧ view w' = (true, L, (a, B, pinned, x, y, n))
    ∧ pinned = bodyCssText (lockScroll w).2.
Proof.
  unfold view, Page.layout. intros [= Hb HL Ha HB Hcss Hx Hy Hn].
  unfold lockBodyScroll, lockScroll, getDocument. cbn [world modal tasks].
  rewrite Hb, Hy, Hcss. eexists _, _. split; [reflexivity|].
  simpl. by rewrite Hb, HL, Ha, HB, Hx, Hy, Hn.
Qed.

Lemma mountBackdrop_cycle m w ts L a B css x y n :
  view w = (true, L, (a, B, css, x, y, n)) →
  mkReg (Node n) click OverlayBackdropClick ∉ L →
  ∃ w',
    mountBackdrop (mkSystem m w ts)
    = mkSystem
        (set_cleanupListeners
           (cleanupListeners m ++ backdropListeners (options m) n)
           (set_backdropElement
              (if backdrop (options m) then Some n else backdropElement m) m))
        w' ts
    ∧ view w'
      = (true, L ++ backdropListeners (options m) n,
         (a, B ++ (if backdrop (options m) then [n] else []), css, x, y,
          if backdrop (options m) then Pos.succ n else n)).
Proof.
  intros Hv Hfresh. unfold mountBackdrop, backdropListeners.
  cbn [modal world tasks].
  destruct (backdrop (options m)) eqn:Hbd; cbn [andb].
  - unfold createBackdropElement. rewrite Hbd. cbn [negb].
    match goal with |- context [createElement ?t ?c ?at' ?st w] =>
      destruct (view_createElement t c at' st w _ _ _ _ _ _ _ Hv) as (w1 & -> & Hv1)
    end.
    cbn [options set_backdropElement].
    assert (Hv2 : view (appendToBody n w1)
                  = (true, L, (a, B ++ [n], css, x, y, Pos.succ n))).
    { revert Hv1. unfold view, Page.layout.
      intros [= Hb HL Ha HB Hcss Hx Hy Hn]. simpl. congruence. }
    destruct (closeOnBackdrop (options m)).
    + destruct (view_addListener (Node n) click OverlayBackdropClick _ _ _ Hv2 Hfresh)
        as (w3 & -> & Hv3).
      eexists. split; [|exact Hv3]. done.
    + eexists. split; [|by rewrite app_nil_r]. destruct m; simpl.
      by rewrite app_nil_r.
  - exists w. split; [|by rewrite !app_nil_r]. destruct m; simpl.
    by rewrite app_nil_r.
Qed.

Lemma showModal_cycle m w ts :
  ∃ w', showModal (mkSystem m w ts) = mkSystem m w' ts ∧ view w' = view w.
Proof.
  unfold showModal. eexists. split; [reflexivity|]. cbn [modal world].
  change (view (setAttribute ?e ?k ?v ?w0)) with (view w0).
  by rewrite !view_setProperty.
Qed.

Lemma addEscapeListener_cycle m w ts L lay :
  view w = (true, L, lay) →
  escapeRegistration ∉ L →
  ∃ w',
    addEscapeListener (mkSystem m w ts)
    = mkSystem
        (set_cleanupListeners (cleanupListeners m ++ escapeListeners (options m)) m)
        w' ts
    ∧ view w' = (true, L ++ escapeListeners (options m), lay).
Proof.
  intros Hv Hfresh. unfold addEscapeListener, escapeListeners.
  cbn [modal world tasks].
  destruct (closeOnEscape (options m) && negb (trapFocus (options m))).
  - destruct (view_addListener Document keydown OverlayEscapeKey _ _ _ Hv Hfresh)
      as (w1 & -> & Hv1).
    eexists. split; [|exact Hv1]. done.
  - exists w. split; [|by rewrite app_nil_r]. destruct m; simpl.
    by rewrite app_nil_r.
Qed.

Lemma animateIn_cycle m w ts :
  animateIn (mkSystem m w ts)
  = mkSystem m w (ts ++ if backdropElement m is Some _ then [AnimateInFrame] else []).
Proof.
  unfold animateIn. cbn [modal world tasks].
  destruct (backdropElement m); [done|]. by rewrite app_nil_r.
Qed.

Lemma activateTrap_cycle m w ts L a B css x y n :
  view w = (true, L, (a, B, css, x, y, n)) →
  (∀ r, r ∈ trapListeners (focusTrap m) → r ∉ L) →
  match focusTrap m with
  | Some tr =>
      FocusTrap.isActive tr = false
      ∧ FocusTrap.cleanupListeners tr = []
      ∧ FocusTrap.returnFocus tr = FocusTrap.ReturnPrevious
  | None => True
  end →
  ∃ w' ft',
    activateTrap (mkSystem m w ts)
    = mkSystem (set_focusTrap ft' m) w'
        (ts ++ if focusTrap m is Some _ then [InitialFocusFrame] else [])
    ∧ view w' = (true, L ++ trapListeners (focusTrap m), (a, B, css, x, y, n))
    ∧ trapListeners ft' = trapListeners (focusTrap m)
    ∧ match ft' with
      | Some tr' =>
          FocusTrap.isActive tr' = true
          ∧ FocusTrap.cleanupListeners tr' = trapListeners (focusTrap m)
          ∧ FocusTrap.returnFocus tr' = FocusTrap.ReturnPrevious
          ∧ FocusTrap.previouslyFocused tr' = a
          ∧ Some (FocusTrap.onEscape tr') = FocusTrap.onEscape <$> focusTrap m
      | None => focusTrap m = None
      end.
Proof.
  intros Hv Hfresh Htrap. unfold activateTrap. cbn [modal world tasks].
  destruct (focusTrap m) as [tr|] eqn:Htr.
  - destruct Htrap as (Hact & Hcl & Hret).
    revert Hv. unfold view, Page.layout.
    intros [= Hb HL Ha HB Hcss Hx Hy Hn].
    rewrite activate_fresh; try done.
    + eexists _, (Some _). split; [reflexivity|].
      split; [simpl; congruence|]. simpl. by rewrite Hcl, Ha.
    + rewrite HL. apply Hfresh. apply list_elem_of_here.
    + rewrite HL. apply Hfresh. apply list_elem_of_further, list_elem_of_here.
  - exists w, None. rewrite !app_nil_r. split; [|done]. by destruct m; simpl in *; subst.
Qed.

Lemma own_fresh L r : Forall (λ r, own r = false) L → own r = true → r ∉ L.
Proof.
  rewrite Forall_forall. intros Hown Hr Hin. apply Hown in Hin. congruence.
Qed.

Lemma not_elem_of_app_own L rs r :
  r ∉ L → r ∉ rs → r ∉ L ++ rs.
Proof. intros ? ?. rewrite elem_of_app. tauto. Qed.

Lemma backdropListeners_handler o n r :
  r ∈ backdropListeners o n → r = mkReg (Node n) click OverlayBackdropClick.
Proof.
  unfold backdropListeners. destruct (backdrop o && closeOnBackdrop o).
  - by intros ->%list_elem_of_singleton.
  - by intros ?%elem_of_nil.
Qed.

Lemma escapeListeners_handler o r : r ∈ escapeListeners o → r = escapeRegistration.
Proof.
  unfold escapeListeners. destruct (closeOnEscape o && negb (trapFocus o)).
  - by intros ->%list_elem_of_singleton.
  - by intros ?%elem_of_nil.
Qed.

Lemma trapListeners_handler ft r :
  r ∈ trapListeners ft →
  reg_listener r = TrapKeyDown ∨ reg_listener r = TrapFocusOut.
Proof.
  destruct ft as [tr|]; simpl; [|by intros ?%elem_of_nil].
  intros [->|[->|[]%elem_of_nil]%elem_of_cons]%elem_of_cons; auto.
Qed.

(** *** [open()] on a closed modal *)
Lemma open_cycle m w ts L a B css x y n :
  view w = (true, L, (a, B, css, x, y, n)) →
  Forall (λ r, own r = false) L →
  isOpen m = false →
  backdropElement m = None →
  cleanupListeners m = [] →
  match focusTrap m with
  | Some tr =>
      FocusTrap.isActive tr = false
      ∧ FocusTrap.cleanupListeners tr = []
      ∧ FocusTrap.returnFocus tr = FocusTrap.ReturnPrevious
  | None => True
  end →
  ∃ w' pinned ft',
    open (mkSystem m w ts)
    = mkSystem
        (Modal.mk (options m) (element m) true
           (if backdrop (options m) then Some n else None)
           ft' (Some (Some (y, css)))
           (backdropListeners (options m) n ++ escapeListeners (options m))
           (closeCalls m)
           (if onOpen (options m) then S (onOpenCalls m) else onOpenCalls m)
           (onCloseCalls m))
        w'
        ((ts ++ (if backdrop (options m) then [AnimateInFrame] else []))
         ++ if focusTrap m is Some _ then [InitialFocusFrame] else [])
    ∧ view w'
      = (true,
         ((L ++ backdropListeners (options m) n) ++ escapeListeners (options m))
         ++ trapListeners (focusTrap m),
         (a, B ++ (if backdrop (options m) then [n] else []), pinned, x, y,
          if backdrop (options m) then Pos.succ n else n))
    ∧ trapListeners ft' = trapListeners (focusTrap m)
    ∧ match ft' with
      | Some tr' =>
          FocusTrap.isActive tr' = true
          ∧ FocusTrap.cleanupListeners tr' = trapListeners (focusTrap m)
          ∧ FocusTrap.returnFocus tr' = FocusTrap.ReturnPrevious
          ∧ FocusTrap.previouslyFocused tr' = a
          ∧ Some (FocusTrap.onEscape tr') = FocusTrap.onEscape <$> focusTrap m
      | None => focusTrap m = None
      end
    ∧ pinned = bodyCssText (lockScroll w).2.
Proof.
  intros Hv Hown Ho Hbd Hcl Htrap. unfold open. cbn [modal world tasks].
  rewrite Ho.
  destruct (lockBodyScroll_cycle (set_isOpen true m) w ts _ _ _ _ _ _ _ Hv)
    as (w1 & pinned & -> & Hv1 & Hpinned).
  destruct (mountBackdrop_cycle (set_unlockScroll (Some (Some (y, css)))
                                   (set_isOpen true m)) w1 ts _ _ _ _ _ _ _ Hv1)
    as (w2 & -> & Hv2).
  { by apply own_fresh. }
  match goal with |- context [showModal (mkSystem ?m2 w2 ts)] =>
    destruct (showModal_cycle m2 w2 ts) as (w3 & -> & Hv3);
    rewrite Hv2 in Hv3;
    destruct (addEscapeListener_cycle m2 w3 ts _ _ Hv3) as (w4 & -> & Hv4)
  end.
  { cbn [options set_cleanupListeners set_backdropElement set_unlockScroll set_isOpen].
    apply not_elem_of_app_own; [by apply own_fresh|].
    by intros [=]%backdropListeners_handler. }
  rewrite animateIn_cycle.
  cbn [options cleanupListeners backdropElement focusTrap set_cleanupListeners
       set_backdropElement set_unlockScroll set_isOpen] in *.
  match goal with |- context [activateTrap (mkSystem ?m5 w4 ?ts5)] =>
    destruct (activateTrap_cycle m5 w4 ts5 _ _ _ _ _ _ _ Hv4)
      as (w5 & ft' & -> & Hv5 & Htl & Hft)
  end.
  { cbn [focusTrap]. intros r Hr.
    apply trapListeners_handler in Hr.
    repeat apply not_elem_of_app_own.
    - apply own_fresh; [done|]. unfold own. by destruct Hr as [-> | ->].
    - intros ->%backdropListeners_handler. by destruct Hr.
    - intros ->%escapeListeners_handler. by destruct Hr. }
  { exact Htrap. }
  cbn [focusTrap] in *. exists (announce "Dialog opened" w5), pinned, ft'.
  split.
  - unfold call_onOpen. cbn. rewrite Hcl, Hbd.
    destruct (backdrop (options m)); reflexivity.
  - rewrite view_announce. done.
Qed.

(** *** The two frames *)

Lemma animateInFrame_cycle m w ts :
  ∃ w', animateInFrame (mkSystem m w ts) = mkSystem m w' ts ∧ view w' = view w.
Proof.
  unfold animateInFrame. eexists. split; [reflexivity|]. cbn [modal world].
  rewrite !view_setProperty.
  destruct (backdropElement m); [|done].
  destruct (backdropBlur (options m)); by rewrite !view_setProperty.
Qed.

Lemma view_initialFocusFrame (tr : FocusTrap.t) w (b : bool) L a B css x y n :
  view w = (b, L, (a, B, css, x, y, n)) →
  ∃ w' a', FocusTrap.initialFocusFrame tr w = Normal w'
           ∧ view w' = (b, L, (a', B, css, x, y, n)).
Proof.
  unfold view, Page.layout. intros [= Hb HL Ha HB Hcss Hx Hy Hn].
  unfold FocusTrap.initialFocusFrame.
  destruct (FocusTrap.initialFocus tr) as [| |el0].
  - case_bool_decide as Hlen.
    + destruct (lookup_lt_is_Some_2 (FocusTrap.focusableElements tr) 0 Hlen)
        as [el Hel].
      rewrite Hel. exists (focus el w), (Some el). split; [reflexivity|].
      simpl. congruence.
    + exists w, a. split; [reflexivity|]. congruence.
  - eexists _, (Some (FocusTrap.container tr)). split; [reflexivity|].
    simpl. congruence.
  - exists (focus el0 w), (Some el0). split; [reflexivity|]. simpl. congruence.
Qed.

Lemma frames_cycle m w (mounted : bool) L a B css x y n :
  view w = (true, L, (a, B, css, x, y, n)) →
  ∃ w' a',
    run [Run AnimateInFrame; Run InitialFocusFrame]
      (mkSystem m w
         (([] ++ (if mounted then [AnimateInFrame] else []))
          ++ if focusTrap m is Some _ then [InitialFocusFrame] else []))
    = Normal (mkSystem m w' [])
    ∧ view w' = (true, L, (a', B, css, x, y, n))
    ∧ (focusTrap m = None → a' = a).
Proof.
  intros Hv.
  assert (Hframe : ∀ w0, view w0 = (true, L, (a, B, css, x, y, n)) →
            ∃ w' a',
              step (Run InitialFocusFrame)
                (mkSystem m w0
                   (if focusTrap m is Some _ then [InitialFocusFrame] else []))
              = Normal (mkSystem m w' [])
              ∧ view w' = (true, L, (a', B, css, x, y, n))
              ∧ (focusTrap m = None → a' = a)).
  { intros w0 Hv0. destruct (focusTrap m) as [tr|] eqn:Htr.
    - destruct (view_initialFocusFrame tr w0 _ _ _ _ _ _ _ _ Hv0)
        as (w' & a' & Hf & Hv').
      exists w', a'. split; [|by split].
      unfold step. cbn [tasks modal world].
      rewrite bool_decide_eq_true_2 by apply list_elem_of_here.
      cbn [dequeue]. rewrite decide_True by done.
      unfold runTask. cbn [modal world tasks]. rewrite Htr, Hf. done.
    - exists w0, a. split; [|by split].
      unfold step. cbn [tasks modal world].
      rewrite bool_decide_eq_false_2 by apply not_elem_of_nil. done. }
  destruct mounted; cbn [app].
  - destruct (animateInFrame_cycle m w
                (if focusTrap m is Some _ then [InitialFocusFrame] else []))
      as (w1 & Ha & Hv1).
    rewrite Hv in Hv1. destruct (Hframe w1 Hv1) as (w' & a' & Hs & Hv' & Hnone).
    exists w', a'. split; [|by split].
    assert (Hfirst : step (Run AnimateInFrame)
              (mkSystem m w
                 (AnimateInFrame
                  :: (if focusTrap m is Some _ then [InitialFocusFrame] else [])))
            = Normal (mkSystem m w1
                 (if focusTrap m is Some _ then [InitialFocusFrame] else []))).
    { unfold step. cbn [tasks modal world].
      rewrite bool_decide_eq_true_2 by apply list_elem_of_here.
      cbn [dequeue]. rewrite decide_True by done.
      unfold runTask. by rewrite Ha. }
    cbn [run]. rewrite Hfirst. cbn [mbind Completion_bind]. by rewrite Hs.
  - destruct (Hframe w Hv) as (w' & a' & Hs & Hv' & Hnone).
    exists w', a'. split; [|by split].
    assert (Hfirst : step (Run AnimateInFrame)
              (mkSystem m w
                 (if focusTrap m is Some _ then [InitialFocusFrame] else []))
            = Normal (mkSystem m w
                 (if focusTrap m is Some _ then [InitialFocusFrame] else []))).
    { unfold step. cbn [tasks modal world].
      rewrite bool_decide_eq_false_2; [done|].
      destruct (focusTrap m); [|apply not_elem_of_nil].
      by intros [=]%list_elem_of_singleton. }
    cbn [run]. rewrite Hfirst. cbn [mbind Completion_bind]. by rewrite Hs.
Qed.

(** *** [close()] on an open modal, and its tail *)

Lemma animateOut_cycle m w ts :
  ∃ w', animateOut (mkSystem m w ts) = mkSystem m w' (ts ++ [CloseTail])
        ∧ view w' = view w.
Proof.
  unfold animateOut. eexists. split; [reflexivity|]. cbn [modal world].
  rewrite !view_setProperty.
  destruct (backdropElement m); [|done].
  destruct (backdropBlur (options m)); by rewrite !view_setProperty.
Qed.

Lemma close_cycle m w ts L a' (a0 : positive) B css x y n :
  isOpen m = true →
  view w = (true, L ++ trapListeners (focusTrap m), (a', B, css, x, y, n)) →
  (∀ r, r ∈ trapListeners (focusTrap m) → r ∉ L) →
  match focusTrap m with
  | Some tr =>
      FocusTrap.isActive tr = true
      ∧ FocusTrap.cleanupListeners tr = trapListeners (focusTrap m)
      ∧ FocusTrap.returnFocus tr = FocusTrap.ReturnPrevious
      ∧ FocusTrap.previouslyFocused tr = Some a0
  | None => a' = Some a0
  end →
  ∃ w' ft',
    close (mkSystem m w ts)
    = mkSystem
        (Modal.mk (options m) (element m) false (backdropElement m) ft'
           (unlockScroll m) (cleanupListeners m) (S (closeCalls m))
           (onOpenCalls m) (onCloseCalls m))
        w' (ts ++ [CloseTail])
    ∧ view w' = (true, L, (Some a0, B, css, x, y, n))
    ∧ match ft' with
      | Some tr' =>
          FocusTrap.isActive tr' = false
          ∧ FocusTrap.cleanupListeners tr' = []
          ∧ FocusTrap.returnFocus tr' = FocusTrap.ReturnPrevious
      | None => True
      end
    ∧ trapListeners ft' = trapListeners (focusTrap m).
Proof.
  intros Ho Hv Hfresh Htrap. unfold close. cbn [modal world tasks count_close isOpen].
  rewrite Ho. cbn [negb]. unfold deactivateTrap.
  cbn [modal world tasks set_isOpen focusTrap count_close].
  destruct (focusTrap m) as [tr|] eqn:Htr.
  - destruct Htrap as (Hact & Hcl & Hret & Hprev).
    unfold FocusTrap.deactivate. rewrite Hact. cbn [negb]. cbv zeta.
    cbn [FocusTrap.cleanupListeners FocusTrap.set_isActive FocusTrap.container
         FocusTrap.set_cleanupListeners FocusTrap.returnFocus
         FocusTrap.previouslyFocused].
    rewrite Hret, Hprev, Hcl.
    pose proof (view_runCleanups (trapListeners (Some tr)) w _ _ _ Hv) as Hv1.
    rewrite filter_added in Hv1 by exact Hfresh.
    set (w1 := runCleanups _ w) in *.
    match goal with |- context [focus a0 ?w2] =>
      assert (Hv2 : view (focus a0 w2) = (true, L, (Some a0, B, css, x, y, n)))
    end.
    { revert Hv1. unfold view, Page.layout.
      intros [= Hb HL Ha HB Hcss Hx Hy Hn].
      case_bool_decide; simpl; congruence. }
    match goal with |- context [animateOut (mkSystem ?m1 ?w3 ts)] =>
      destruct (animateOut_cycle m1 w3 ts) as (w4 & -> & Hv4)
    end.
    rewrite Hv2 in Hv4. eexists w4, (Some _). split; [reflexivity|].
    split; [exact Hv4|]. simpl. done.
  - subst a'. simpl in Hv. rewrite app_nil_r in Hv.
    match goal with |- context [animateOut (mkSystem ?m1 ?w3 ts)] =>
      destruct (animateOut_cycle m1 w3 ts) as (w4 & -> & Hv4)
    end.
    rewrite Hv in Hv4. exists w4, None. split; [|done].
    destruct m; simpl in *; by subst.
Qed.

Lemma closeTail_cycle m w ts L a B pinned x y n y0 css0 :
  view w
  = (true, L ++ cleanupListeners m,
     (a, B ++ (if backdropElement m is Some b then [b] else []), pinned, x, y, n)) →
  (∀ b, backdropElement m = Some b → b ∉ B) →
  (∀ r, r ∈ cleanupListeners m → r ∉ L) →
  unlockScroll m = Some (Some (y0, css0)) →
  ∃ w',
    closeTail (mkSystem m w ts)
    = mkSystem
        (Modal.mk (options m) (element m) (isOpen m) None (focusTrap m) None []
           (closeCalls m) (onOpenCalls m)
           (if onClose (options m) then S (onCloseCalls m) else onCloseCalls m))
        w' ts
    ∧ view w' = (true, L, (a, B, css0, 0%Z, y0, n)).
Proof.
  intros Hv Hbd Hfresh Hu. unfold closeTail, hideModal. cbn [modal world tasks].
  set (w1 := setAttribute _ _ _ _).
  assert (Hv1 : view w1 = view w).
  { subst w1. change (view (setAttribute ?e ?k ?v ?w0)) with (view w0).
    by rewrite view_setProperty. }
  rewrite Hv in Hv1. clearbody w1.
  unfold removeBackdrop. cbn [modal world tasks].
  assert (∃ w2, (match backdropElement m with
                 | Some b => mkSystem (set_backdropElement None m) (remove b w1) ts
                 | None => mkSystem m w1 ts
                 end) = mkSystem (set_backdropElement None m) w2 ts
                ∧ view w2 = (true, L ++ cleanupListeners m, (a, B, pinned, x, y, n)))
    as (w2 & -> & Hv2).
  { destruct (backdropElement m) as [b|] eqn:Hb.
    - exists (remove b w1). split; [done|]. revert Hv1. unfold view, Page.layout.
      intros [= Hbr HL Ha HB Hcss Hx Hy Hn]. unfold remove. simpl.
      rewrite HB, Hbr, HL, Ha, Hcss, Hx, Hy, Hn.
      rewrite filter_app, filter_all, filter_none, app_nil_r; [done| |].
      + apply Forall_forall. intros e ->%list_elem_of_singleton. by intros ?.
      + apply Forall_forall. intros e He ->. by apply (Hbd b).
    - exists w1. split; [|by rewrite app_nil_r in Hv1].
      destruct m; simpl in *; by subst. }
  unfold cleanUpListeners, unlockBodyScroll.
  cbn [modal world tasks set_backdropElement set_cleanupListeners cleanupListeners
       unlockScroll set_unlockScroll].
  rewrite Hu.
  pose proof (view_runCleanups (cleanupListeners m) w2 _ _ _ Hv2) as Hv3.
  rewrite filter_added in Hv3 by exact Hfresh.
  eexists. split; [reflexivity|]. rewrite view_announce.
  revert Hv3. unfold view, Page.layout.
  intros [= Hbr HL Ha HB Hcss Hx Hy Hn]. simpl. congruence.
Qed.

(** *** One cycle, and any number of them *)

Lemma run_app (evs1 evs2 : list Event) (s : System) :
  run (evs1 ++ evs2) s = s' ← run evs1 s; run evs2 s'.
Proof.
  revert s. induction evs1 as [|ev evs1 IH]; intros s; [done|].
  cbn [app run]. destruct (step ev s) as [s1|]; [|done].
  cbn [mbind Completion_bind]. apply IH.
Qed.

Lemma cycle_idle (s : System) :
  idle s →
  ∃ s', run cycle s = Normal s'
    ∧ idle s'
    ∧ footprint s' = footprint s
    ∧ options (modal s') = options (modal s)
    ∧ closeCalls (modal s') = S (closeCalls (modal s))
    ∧ onOpenCalls (modal s')
      = (if onOpen (options (modal s)) then S (onOpenCalls (modal s))
         else onOpenCalls (modal s))
    ∧ onCloseCalls (modal s')
      = (if onClose (options (modal s)) then S (onCloseCalls (modal s))
         else onCloseCalls (modal s)).
Proof.
  destruct s as [m w ts]. unfold idle. cbn [modal world tasks].
  intros (Hb & Ho & Hbd & Hcl & -> & Htrap & Hown & Hbody & [a0 Ha0]).
  assert (Hv : view w = (true, listeners w,
                         (Some a0, bodyChildren w, bodyCssText w, scrollX w,
                          scrollY w, nextId w))).
  { unfold view, Page.layout. by rewrite Hb, Ha0. }
  destruct (open_cycle m w [] _ _ _ _ _ _ _ Hv Hown Ho Hbd Hcl Htrap)
    as (w1 & pinned & ft1 & Hopen & Hv1 & Htl & Hft & _).
  set (m1 := Modal.mk _ _ _ _ _ _ _ _ _ _) in Hopen.
  assert (Hsame : (if focusTrap m is Some _ then [InitialFocusFrame] else [])
                  = (if focusTrap m1 is Some _ then [InitialFocusFrame] else [])).
  { subst m1. cbn [focusTrap]. destruct ft1, (focusTrap m); done. }
  rewrite Hsame in Hopen.
  destruct (frames_cycle m1 w1 (backdrop (options m)) _ _ _ _ _ _ _ Hv1)
    as (w2 & a2 & Hframes & Hv2 & Hnone).
  assert (Hfresh : ∀ r, r ∈ trapListeners (focusTrap m1) →
            r ∉ (listeners w ++ backdropListeners (options m) (nextId w))
                ++ escapeListeners (options m)).
  { intros r Hr. apply trapListeners_handler in Hr.
    repeat apply not_elem_of_app_own.
    - apply own_fresh; [done|]. unfold own. by destruct Hr as [-> | ->].
    - intros ->%backdropListeners_handler. by destruct Hr.
    - intros ->%escapeListeners_handler. by destruct Hr. }
  assert (Htl1 : trapListeners (focusTrap m1) = trapListeners (focusTrap m))
    by exact Htl.
  rewrite <- Htl1 in Hv2.
  destruct (close_cycle m1 w2 [] _ a2 a0 _ _ _ _ _ eq_refl Hv2 Hfresh)
    as (w3 & ft3 & Hclose & Hv3 & Hft3 & _).
  { subst m1. cbn [focusTrap] in *. destruct ft1 as [tr1|].
    - destruct Hft as (? & ? & ? & ? & _). by rewrite Htl.
    - by apply Hnone. }
  set (m3 := Modal.mk _ _ _ _ _ _ _ _ _ _) in Hclose.
  destruct (closeTail_cycle m3 w3 [] (listeners w) (Some a0) (bodyChildren w)
              pinned (scrollX w) (scrollY w)
              (if backdrop (options m) then Pos.succ (nextId w) else nextId w)
              (scrollY w) (bodyCssText w))
    as (w4 & Htail & Hv4).
  { subst m3 m1. cbn [cleanupListeners backdropElement].
    rewrite Hv3, app_assoc. by destruct (backdrop (options m)). }
  { subst m3 m1. cbn [backdropElement]. intros b Hsome Hin.
    destruct (backdrop (options m)); [|done]. injection Hsome as <-.
    rewrite Forall_forall in Hbody. apply Hbody in Hin. lia. }
  { subst m3 m1. cbn [cleanupListeners]. intros r Hr.
    apply own_fresh; [done|].
    apply elem_of_app in Hr as [->%backdropListeners_handler
                               | ->%escapeListeners_handler]; done. }
  { done. }
  eexists. split.
  - change cycle with ([Open] ++ [Run AnimateInFrame; Run InitialFocusFrame]
                       ++ [Close; Run CloseTail]).
    rewrite run_app. cbn [run step mbind Completion_bind]. rewrite Hopen.
    rewrite run_app, Hframes. cbn [run mbind Completion_bind].
    change (step Close (mkSystem m1 w2 []))
      with (Normal (close (mkSystem m1 w2 []))).
    rewrite Hclose. cbn [mbind Completion_bind app].
    unfold step. cbn [tasks modal world].
    rewrite bool_decide_eq_true_2 by apply list_elem_of_here.
    cbn [dequeue]. rewrite decide_True by done.
    unfold runTask. rewrite Htail. reflexivity.
  - revert Hv4. unfold view, Page.layout.
    intros [= Hb4 HL4 Ha4 HB4 Hcss4 Hx4 Hy4 Hn4].
    subst m3 m1. unfold idle, footprint. cbn [modal world tasks isOpen
      backdropElement cleanupListeners focusTrap options closeCalls onOpenCalls
      onCloseCalls].
    rewrite Hb4, HL4, Ha4, HB4, Hcss4, Hy4, Hn4.
    split; [|split; [by rewrite Ha0|done]].
    do 5 (split; [done|]). split; [exact Hft3|]. split; [done|].
    split; [|by eexists].
    eapply Forall_impl; [exact Hbody|]. intros b Hlt. simpl in Hlt.
    destruct (backdrop (options m)); lia.
Qed.

(** Any number of cycles from an idle state, in terms of [footprint]. *)
Lemma cycles_idle (s : System) (k : nat) :
  idle s →
  ∃ s', run (cycles k) s = Normal s'
    ∧ idle s'
    ∧ footprint s' = footprint s
    ∧ closeCalls (modal s') = closeCalls (modal s) + k
    ∧ onOpenCalls (modal s')
      = onOpenCalls (modal s) + (if onOpen (options (modal s)) then k else 0)
    ∧ onCloseCalls (modal s')
      = onCloseCalls (modal s) + (if onClose (options (modal s)) then k else 0).
Proof.
  revert s. induction k as [|k IH]; intros s Hidle.
  - exists s. cbn [cycles run].
    do 3 (split; [done|]).
    destruct (onOpen (options (modal s))), (onClose (options (modal s)));
      repeat split; lia.
  - destruct (cycle_idle s Hidle)
      as (s1 & Hrun1 & Hidle1 & Hfp1 & Hopt1 & Hcc1 & Hoo1 & Hoc1).
    destruct (IH s1 Hidle1) as (s' & Hrun & Hidle' & Hfp & Hcc & Hoo & Hoc).
    exists s'. cbn [cycles]. rewrite run_app, Hrun1. cbn [mbind Completion_bind].
    split; [exact Hrun|]. split; [exact Hidle'|]. split; [congruence|].
    rewrite Hcc, Hoo, Hoc, Hopt1, Hcc1, Hoo1, Hoc1.
    destruct (onOpen (options (modal s))), (onClose (options (modal s)));
      repeat split; lia.
Qed.

(** X8. A closed modal with nothing pending, on a page that holds none
    of an overlay's listeners: any number of cycles of [open()], its two
    frames, [close()] and the rest of [close()] run to the end and leave
    the modal closed with no backdrop held, and the listener registry,
    the focused element, the body's inline style and the vertical scroll
    offset as they were. Every earlier child of the body is still there,
    in the same order, and no node of class [atlas-modal-backdrop] is in
    the body that was not there before: none of the backdrops mounted on
    the way is left. [close()] was entered once per cycle, and [onOpen]
    and [onClose], where supplied, were called once per cycle. Nothing is
    said of other nodes that may have joined the body, such as the live
    regions of [announce]. *)
Theorem Modal_cycles_give_the_page_back (s : System) (k : nat) :
  idle s →
  ∃ s', run (cycles k) s = Normal s'
    ∧ isOpen (modal s') = false
    ∧ backdropElement (modal s') = None
    ∧ listeners (world s') = listeners (world s)
    ∧ activeElement (world s') = activeElement (world s)
    ∧ bodyCssText (world s') = bodyCssText (world s)
    ∧ scrollY (world s') = scrollY (world s)
    ∧ bodyChildren (world s) `sublist_of` bodyChildren (world s')
    ∧ (∀ b, b ∈ bodyChildren (world s') →
         "atlas-modal-backdrop" ∈ classesOf b (world s') →
         b ∈ bodyChildren (world s))
    ∧ closeCalls (modal s') = closeCalls (modal s) + k
    ∧ onOpenCalls (modal s')
      = onOpenCalls (modal s) + (if onOpen (options (modal s)) then k else 0)
    ∧ onCloseCalls (modal s')
      = onCloseCalls (modal s) + (if onClose (options (modal s)) then k else 0).
Proof.
  intros Hidle.
  destruct (cycles_idle s k Hidle) as (s' & Hrun & Hidle' & Hfp & Hcc & Hoo & Hoc).
  exists s'. split; [exact Hrun|].
  destruct Hidle' as (_ & Ho & Hbd & _).
  revert Hfp. unfold footprint. intros [= HL Ha HB Hcss Hy].
  rewrite HB. do 6 (split; [done|]). split; [reflexivity|].
  split; [by intros b Hb _|]. done.
Qed.

(** *** [createModal] *)

Lemma view_setAttributes e kvs w : view (setAttributes e kvs w) = view w.
Proof.
  unfold view.
  by rewrite isBrowser_setAttributes, listeners_setAttributes, layout_setAttributes.
Qed.

Lemma createModal_view element opts w s :
  createModal element opts w = Some s → view (world s) = view w.
Proof.
  unfold createModal. destruct (isBrowser w) eqn:Hb; [|done]. cbn [negb].
  unfold Shared.generateId. cbv zeta. intros [= <-]. cbn [world].
  rewrite view_setProperty.
  change (view (setAttribute ?e ?k ?v ?w0)) with (view w0).
  assert (Hinner : ∀ w0, view w0 = view w →
            view (match ariaLabel opts with
                  | Some l => if Shared.truthy (Some l)
                              then setAttribute element "aria-label" l w0 else w0
                  | None => w0
                  end) = view w).
  { intros w0 Hw0. destruct (ariaLabel opts); [case_match|]; done. }
  apply Hinner. rewrite view_setAttributes. done.
Qed.

Lemma createModal_idle element opts w s :
  createModal element opts w = Some s →
  Forall (λ r, own r = false) (listeners w) →
  Forall (λ b, (b < nextId w)%positive) (bodyChildren w) →
  is_Some (activeElement w) →
  idle s.
Proof.
  intros Hc Hown Hbody Hact. pose proof (createModal_view _ _ _ _ Hc) as Hv.
  revert Hv. unfold view, Page.layout. intros [= Hb HL Ha HB Hcss Hx Hy Hn].
  unfold idle. rewrite Hb, HL, Ha, HB, Hn.
  revert Hc. unfold createModal. destruct (isBrowser w) eqn:Hbw; [|done].
  cbn [negb]. unfold Shared.generateId. cbv zeta. intros [= <-].
  cbn [modal tasks isOpen backdropElement cleanupListeners focusTrap].
  do 5 (split; [done|]). split; [|done].
  by destruct (trapFocus opts).
Qed.

(** X8 on the example page: two cycles of its modal. *)
Lemma Modal_cycles_give_the_page_back_witness :
  ∃ s', run (cycles 2) Examples.pageModal = Normal s'
        ∧ listeners (world s') = listeners (world Examples.pageModal)
        ∧ bodyChildren (world Examples.pageModal)
          `sublist_of` bodyChildren (world s').
Proof.
  destruct (Modal_cycles_give_the_page_back Examples.pageModal 2)
    as (s' & Hrun & _ & _ & HL & _ & _ & _ & Hsub & _).
  - apply (createModal_idle 10%positive defaultOptions Examples.page).
    + vm_compute. reflexivity.
    + apply Forall_nil_2.
    + apply Forall_nil_2.
    + by eexists.
  - exists s'. split; [exact Hrun|]. split; [exact HL | exact Hsub].
Defined.
End ModalCycleFacts.

(** ** Dropdown: focus, keys and selection *)
Section DropdownNavigation.
Import Dom Dropdown.
Implicit Types (s : System) (d : Dropdown.t) (w : World) (x item : positive)
  (c : string).

Lemma classesOf_classList_remove x item c w :
  classesOf x (classList_remove item c w)
  = if decide (x = item) then classesOf item w ∖ {[c]} else classesOf x w.
Proof.
  unfold classesOf at 1, classList_remove. simpl. case_decide as Hx.
  - subst x. by rewrite lookup_insert_eq.
  - by rewrite lookup_insert_ne.
Qed.

Lemma classesOf_classList_add x item c w :
  classesOf x (classList_add item c w)
  = if decide (x = item) then {[c]} ∪ classesOf item w else classesOf x w.
Proof.
  unfold classesOf at 1, classList_add. simpl. case_decide as Hx.
  - subst x. by rewrite lookup_insert_eq.
  - by rewrite lookup_insert_ne.
Qed.

Lemma clearFocusIndicators_clears d w x :
  ("atlas-dropdown-focused" ∈ classesOf x w → x ∈ menuItems d) →
  "atlas-dropdown-focused" ∉ classesOf x (clearFocusIndicators d w).
Proof.
  unfold clearFocusIndicators. generalize (menuItems d). intros l. revert w.
  induction l as [|y l IH]; intros w Hin.
  - simpl. intros Hc. by apply Hin, elem_of_nil in Hc.
  - simpl. apply IH. rewrite classesOf_classList_remove. case_decide as Hx.
    + intros Hc. apply elem_of_difference in Hc as [_ Hc].
      exfalso. apply Hc. by apply elem_of_singleton.
    + intros Hc. apply Hin in Hc. apply elem_of_cons in Hc as [?|?]; done.
Qed.

Lemma activeElement_clearFocusIndicators d w :
  activeElement (clearFocusIndicators d w) = activeElement w.
Proof.
  unfold clearFocusIndicators. generalize (menuItems d). intros l. revert w.
  induction l as [|y l IH]; intros w; [done|]. simpl. by rewrite IH.
Qed.

(** The index [focusItem] settles on. *)
Lemma focusItem_returns (index : Z) s :
  menuItems (dropdown s) ≠ [] →
  ∃ (i : nat) item,
    i < length (menuItems (dropdown s))
    ∧ menuItems (dropdown s) !! i = Some item
    ∧ Z.of_nat i
      = (if bool_decide (index < 0)%Z
         then Z.of_nat (length (menuItems (dropdown s))) - 1
         else if bool_decide (index >= Z.of_nat (length (menuItems (dropdown s))))%Z
              then 0 else index)%Z
    ∧ focusItem index s
      = Normal (mkSystem (set_focusedIndex (Z.of_nat i) (dropdown s))
                  (focus item (classList_add item "atlas-dropdown-focused"
                                 (clearFocusIndicators (dropdown s) (world s))))
                  (tasks s)).
Proof.
  intros Hne.
  assert (0 < length (menuItems (dropdown s))) as Hlen.
  { destruct (menuItems (dropdown s)); [done | simpl; lia]. }
  set (len := Z.of_nat (length (menuItems (dropdown s)))).
  set (target := (if bool_decide (index < 0)%Z then len - 1
                  else if bool_decide (index >= len)%Z then 0 else index)%Z).
  assert (0 ≤ target < len)%Z as Hrange.
  { subst target len. repeat case_bool_decide; lia. }
  destruct (lookup_lt_is_Some_2 (menuItems (dropdown s)) (Z.to_nat target))
    as [item Hitem]; [subst len; lia|].
  exists (Z.to_nat target), item. split; [subst len; lia|]. split; [done|].
  split; [lia|].
  unfold focusItem. rewrite bool_decide_eq_false_2 by lia.
  fold len.
  assert ((if bool_decide
                ((if bool_decide (index < 0)%Z then (len - 1)%Z else index) >= len)%Z
           then 0%Z
           else if bool_decide (index < 0)%Z then (len - 1)%Z else index) = target)
    as ->.
  { subst target. repeat case_bool_decide; lia. }
  unfold at_index. cbn [focusedIndex set_focusedIndex menuItems].
  rewrite bool_decide_eq_false_2 by lia. rewrite Hitem.
  by rewrite Z2Nat.id by lia.
Qed.

(** X9. [focusItem(index)] does nothing on an empty menu; on any other it
    returns for every integer, with [focusedIndex] inside the list, the
    item at that index focused, and the focus class on that item and on
    no other item of the menu. *)
Theorem Dropdown_focusItem_marks_one_item (index : Z) s :
  match menuItems (dropdown s) with
  | [] => focusItem index s = Normal s
  | _ :: _ =>
      ∃ s' item,
        focusItem index s = Normal s'
        ∧ menuItems (dropdown s') = menuItems (dropdown s)
        ∧ (0 ≤ focusedIndex (dropdown s')
           < Z.of_nat (length (menuItems (dropdown s))))%Z
        ∧ menuItems (dropdown s) !! Z.to_nat (focusedIndex (dropdown s')) = Some item
        ∧ activeElement (world s') = Some item
        ∧ ∀ x, x ∈ menuItems (dropdown s) →
               ("atlas-dropdown-focused" ∈ classesOf x (world s') ↔ x = item)
  end.
Proof.
  destruct (menuItems (dropdown s)) as [|y l] eqn:Hitems.
  - unfold focusItem. by rewrite Hitems.
  - destruct (focusItem_returns index s) as (i & item & Hi & Hitem & _ & ->);
      [by rewrite Hitems|].
    rewrite Hitems in Hi, Hitem.
    eexists _, item. split; [reflexivity|].
    cbn [dropdown world focusedIndex set_focusedIndex menuItems].
    split; [done|]. split; [lia|]. rewrite Nat2Z.id. split; [done|].
    split; [done|]. intros x Hx.
    change (classesOf x (focus item ?w0)) with (classesOf x w0).
    rewrite classesOf_classList_add. case_decide as Hxi.
    + split; [done|]. intros _. apply elem_of_union_l. by apply elem_of_singleton.
    + split; [|done]. intros Hc. exfalso.
      revert Hc. apply clearFocusIndicators_clears. intros _. by rewrite Hitems.
Qed.

(** X10. On a menu with items whose [focusedIndex] is [-1] (no item
    focused since [open()]) or the index of an item, the four navigation
    keys are prevented and move the focus index by modular arithmetic:
    ArrowDown to the next index modulo the number of items, ArrowUp to the
    previous one modulo the number of items (to the last item when none
    was focused), Home to 0 and End to the last index. *)
Theorem Dropdown_arrow_keys_step_modulo (shift : bool) s :
  menuItems (dropdown s) ≠ [] →
  (-1 ≤ focusedIndex (dropdown s) < Z.of_nat (length (menuItems (dropdown s))))%Z →
  (∃ s', handleMenuKeyDown (FocusTrap.mkKey "ArrowDown" shift) s = Normal (s', true)
         ∧ focusedIndex (dropdown s')
           = ((focusedIndex (dropdown s) + 1)
              `mod` Z.of_nat (length (menuItems (dropdown s))))%Z)
  ∧ (∃ s', handleMenuKeyDown (FocusTrap.mkKey "ArrowUp" shift) s = Normal (s', true)
           ∧ focusedIndex (dropdown s')
             = ((Z.max (focusedIndex (dropdown s)) 0 - 1)
                `mod` Z.of_nat (length (menuItems (dropdown s))))%Z)
  ∧ (∃ s', handleMenuKeyDown (FocusTrap.mkKey "Home" shift) s = Normal (s', true)
           ∧ focusedIndex (dropdown s') = 0%Z)
  ∧ (∃ s', handleMenuKeyDown (FocusTrap.mkKey "End" shift) s = Normal (s', true)
           ∧ focusedIndex (dropdown s')
             = (Z.of_nat (length (menuItems (dropdown s))) - 1)%Z).
Proof.
  intros Hne Hrange.
  assert (0 < Z.of_nat (length (menuItems (dropdown s))))%Z as Hpos.
  { destruct (menuItems (dropdown s)); [done | simpl; lia]. }
  set (n := Z.of_nat (length (menuItems (dropdown s)))) in *.
  set (i := focusedIndex (dropdown s)) in *.
  assert (Hkey : ∀ index target,
            (if bool_decide (index < 0)%Z then n - 1
             else if bool_decide (index >= n)%Z then 0 else index)%Z = target →
            ∃ s', focusItem index s = Normal s'
                  ∧ focusedIndex (dropdown s') = target).
  { intros index target Ht.
    destruct (focusItem_returns index s Hne) as (k & item & _ & _ & Hk & ->).
    eexists. split; [reflexivity|]. cbn [dropdown focusedIndex set_focusedIndex].
    fold n in Hk. congruence. }
  unfold handleMenuKeyDown. cbn [FocusTrap.key]. fold i n.
  split; [|split; [|split]].
  - destruct (Hkey (i + 1)%Z ((i + 1) `mod` n)%Z) as (s' & -> & Hi).
    { repeat case_bool_decide; try lia.
      - apply (Z.mod_unique _ _ 1); lia.
      - apply (Z.mod_unique _ _ 0); lia. }
    by exists s'.
  - destruct (Hkey (i - 1)%Z ((Z.max i 0 - 1) `mod` n)%Z) as (s' & -> & Hi).
    { repeat case_bool_decide; try lia.
      - apply (Z.mod_unique _ _ (-1)); lia.
      - apply (Z.mod_unique _ _ 0); lia. }
    by exists s'.
  - destruct (Hkey 0%Z 0%Z) as (s' & -> & Hi).
    { repeat case_bool_decide; lia. }
    by exists s'.
  - destruct (Hkey (n - 1)%Z (n - 1)%Z) as (s' & -> & Hi).
    { repeat case_bool_decide; lia. }
    by exists s'.
Qed.

(** X10 on the example menu of three items, just opened: ArrowDown goes
    from no focus to index 0. *)
Lemma Dropdown_arrow_keys_step_modulo_witness :
  ∃ s', handleMenuKeyDown ArrowDown
          (open Examples.menuPosition Examples.pageDropdown) = Normal (s', true)
        ∧ focusedIndex (dropdown s') = 0%Z.
Proof.
  assert (menuItems (dropdown (open Examples.menuPosition Examples.pageDropdown))
          ≠ []) as Hne by (vm_compute; discriminate).
  assert (-1 ≤ focusedIndex (dropdown (open Examples.menuPosition
                                         Examples.pageDropdown))
          < Z.of_nat (length (menuItems (dropdown (open Examples.menuPosition
                                                     Examples.pageDropdown)))))%Z
    as Hrange by (vm_compute; split; [discriminate | reflexivity]).
  destruct (Dropdown_arrow_keys_step_modulo false _ Hne Hrange)
    as [(s' & Hs & Hi) _].
  exists s'. split; [exact Hs|]. vm_compute in Hi. exact Hi.
Defined.

Lemma indexOf_lookup (l : list positive) (k : nat) item :
  NoDup l → l !! k = Some item → indexOf item l = Z.of_nat k.
Proof.
  intros Hnd. revert k. induction Hnd as [|y l Hy Hnd IH]; intros k Hk; [done|].
  destruct k as [|k]; simpl in *.
  - injection Hk as ->. by rewrite decide_True.
  - rewrite decide_False.
    + rewrite (IH k Hk). rewrite bool_decide_eq_false_2 by lia. lia.
    + intros ->. apply Hy. by eapply list_elem_of_lookup_2.
Qed.

Lemma close_counts s :
  onSelectCalls (dropdown (close s)) = onSelectCalls (dropdown s)
  ∧ closeCalls (dropdown (close s)) = S (closeCalls (dropdown s))
  ∧ isOpen (dropdown (close s)) = false.
Proof.
  unfold close. cbn [dropdown world tasks count_close isOpen].
  by destruct (isOpen (dropdown s)) eqn:Ho.
Qed.

(** X11. Enter or Space on the menu is always prevented.  With an item
    focused in a menu without repeated items, [onSelect], where supplied,
    is called once with that item and its index, and [close()] is entered
    exactly when [closeOnSelect] is set; with no item focused nothing
    else happens. *)
Theorem Dropdown_Enter_selects_the_focused_item (e : FocusTrap.KeyboardEvent) s :
  FocusTrap.key e = "Enter" ∨ FocusTrap.key e = " " →
  NoDup (menuItems (dropdown s)) →
  match at_index (menuItems (dropdown s)) (focusedIndex (dropdown s)) with
  | Some item =>
      ∃ s', handleMenuKeyDown e s = Normal (s', true)
        ∧ onSelectCalls (dropdown s')
          = onSelectCalls (dropdown s)
            ++ (if onSelect (options (dropdown s))
                then [(item, focusedIndex (dropdown s))] else [])
        ∧ closeCalls (dropdown s')
          = (if closeOnSelect (options (dropdown s))
             then S (closeCalls (dropdown s)) else closeCalls (dropdown s))
        ∧ isOpen (dropdown s')
          = isOpen (dropdown s) && negb (closeOnSelect (options (dropdown s)))
  | None => handleMenuKeyDown e s = Normal (s, true)
  end.
Proof.
  intros Hkey Hnd. unfold handleMenuKeyDown.
  assert (Hsel : bool_decide (FocusTrap.key e = "Enter")
                 || bool_decide (FocusTrap.key e = " ") = true).
  { destruct Hkey as [-> | ->]; done. }
  assert (Hnot : ∀ k, k ≠ "Enter" → k ≠ " " →
                       bool_decide (FocusTrap.key e = k) = false).
  { intros k H1 H2. apply bool_decide_eq_false_2. destruct Hkey as [-> | ->]; done. }
  rewrite !Hnot by done. rewrite Hsel.
  destruct (at_index _ _) as [item|] eqn:Hat; [|done].
  unfold at_index in Hat. case_bool_decide as Hneg; [done|].
  rewrite bool_decide_eq_true_2 by lia.
  eexists. split; [reflexivity|]. unfold selectItem.
  rewrite (indexOf_lookup _ _ _ Hnd Hat), Z2Nat.id by lia.
  cbn [dropdown world tasks call_onSelect options].
  destruct (closeOnSelect (options (dropdown s))).
  - match goal with |- context [close ?s1] =>
      destruct (close_counts s1) as (-> & -> & ->)
    end.
    unfold call_onSelect. cbn [dropdown onSelectCalls closeCalls options].
    rewrite ?andb_false_r.
    destruct (onSelect (options (dropdown s))); by rewrite ?app_nil_r.
  - unfold call_onSelect. cbn [dropdown onSelectCalls closeCalls isOpen options].
    rewrite andb_true_r.
    destruct (onSelect (options (dropdown s))); by rewrite ?app_nil_r.
Qed.

(** X11 on the example menu with its second item focused. *)
Lemma Dropdown_Enter_selects_the_focused_item_witness :
  ∃ s', handleMenuKeyDown (FocusTrap.mkKey "Enter" false)
          (mkSystem (set_focusedIndex 1
                       (dropdown (open Examples.menuPosition Examples.pageDropdown)))
             (world (open Examples.menuPosition Examples.pageDropdown)) [])
        = Normal (s', true)
        ∧ isOpen (dropdown s') = false.
Proof.
  pose proof (Dropdown_Enter_selects_the_focused_item (FocusTrap.mkKey "Enter" false)
                (mkSystem (set_focusedIndex 1
                             (dropdown (open Examples.menuPosition Examples.pageDropdown)))
                   (world (open Examples.menuPosition Examples.pageDropdown)) []))
    as Hsel.
  assert (NoDup (menuItems
                   (set_focusedIndex 1
                      (dropdown (open Examples.menuPosition Examples.pageDropdown)))))
    as Hnd.
  { vm_compute. repeat constructor; intros Hin;
      repeat (apply elem_of_cons in Hin as [Hin|Hin]; [discriminate Hin|]);
      by apply elem_of_nil in Hin. }
  specialize (Hsel (or_introl eq_refl) Hnd). vm_compute in Hsel.
  destruct Hsel as (s' & Hs & _ & _ & Ho).
  exists s'. split; [|exact Ho]. vm_compute. exact Hs.
Defined.
End DropdownNavigation.

(** ** Dropdown: opening and closing *)
Section DropdownCycle.
Import Dom Dropdown.
Implicit Types (s : System) (d : Dropdown.t) (w : World).

Lemma listeners_applyItemAria w (item : positive) :
  listeners (applyItemAria w item) = listeners w.
Proof.
  unfold applyItemAria. generalize (Shared.getMenuItemAttributes false).
  intros kvs. revert w. induction kvs as [|[k v] kvs IH]; intros w; [done|].
  simpl. rewrite IH. by destruct (negb _).
Qed.

Lemma listeners_updateMenuItems d w :
  listeners (updateMenuItems d w).2 = listeners w.
Proof.
  unfold updateMenuItems. cbn [snd]. generalize (getMenuItems d w). intros l.
  revert w. induction l as [|x l IH]; intros w; [done|].
  simpl. by rewrite IH, listeners_applyItemAria.
Qed.

(** The three listeners [open()] registers. *)
Lemma open_listeners pos s :
  isOpen (dropdown s) = false →
  mkReg Document click DropdownClickOutside ∉ listeners (world s) →
  mkReg (Node (menu (dropdown s))) keydown DropdownMenuKeyDown ∉ listeners (world s) →
  mkReg (Node (menu (dropdown s))) click DropdownItemClick ∉ listeners (world s) →
  listeners (world (open pos s))
  = listeners (world s)
    ++ [mkReg Document click DropdownClickOutside;
        mkReg (Node (menu (dropdown s))) keydown DropdownMenuKeyDown;
        mkReg (Node (menu (dropdown s))) click DropdownItemClick]
  ∧ cleanupListeners (dropdown (open pos s))
    = cleanupListeners (dropdown s)
      ++ [mkReg Document click DropdownClickOutside;
          mkReg (Node (menu (dropdown s))) keydown DropdownMenuKeyDown;
          mkReg (Node (menu (dropdown s))) click DropdownItemClick].
Proof.
  intros Ho H1 H2 H3. unfold open. rewrite Ho.
  pose proof (listeners_updateMenuItems (set_isOpen true (dropdown s)) (world s))
    as Hl0.
  destruct (updateMenuItems (set_isOpen true (dropdown s)) (world s))
    as [d1 w1] eqn:Hupd.
  assert (Hmenu : menu d1 = menu (dropdown s)).
  { unfold updateMenuItems in Hupd. by injection Hupd as <- _. }
  assert (Hcl : cleanupListeners d1 = cleanupListeners (dropdown s)).
  { unfold updateMenuItems in Hupd. by injection Hupd as <- _. }
  cbn [snd] in Hl0. cbv zeta.
  cbn [menu set_focusedIndex cleanupListeners].
  set (w2 := positionMenu _ _ _).
  assert (Hl2 : listeners w2 = listeners (world s)).
  { subst w2. unfold positionMenu, updateTriggerAria.
    by rewrite !listeners_setProperty, listeners_setAttributes. }
  rewrite Hmenu, Hcl.
  rewrite (listeners_addListener_fresh Document click) by (by rewrite Hl2).
  rewrite (listeners_addListener_fresh (Node (menu (dropdown s))) keydown).
  2:{ cbn [listeners set_listeners]. rewrite Hl2, elem_of_app, list_elem_of_singleton.
      by intros [?|[=]]. }
  rewrite (listeners_addListener_fresh (Node (menu (dropdown s))) click).
  2:{ cbn [listeners set_listeners].
      rewrite Hl2, !elem_of_app, !list_elem_of_singleton.
      by intros [[?|[=]]|[=]]. }
  unfold animateIn. cbn [dropdown world tasks call_onOpen cleanupListeners
                         set_cleanupListeners menu set_focusedIndex].
  rewrite !listeners_setProperty. cbn [listeners set_listeners].
  rewrite Hl2, <- !app_assoc. done.
Qed.

(** X12. A closed dropdown without pending cleanups, on a page where its
    three menu listeners are not registered: [open()] registers the
    click-outside listener on the document and the keydown and click
    listeners on the menu, after those already there; [close()], whatever
    the dropdown did in between as long as the registry was left alone,
    leaves the registry exactly as before [open()], the dropdown closed
    with no item index focused and no cleanup left, and the focus class on
    none of its items. *)
Theorem Dropdown_open_close_leaves_no_listener pos s s1 :
  isOpen (dropdown s) = false →
  cleanupListeners (dropdown s) = [] →
  mkReg Document click DropdownClickOutside ∉ listeners (world s) →
  mkReg (Node (menu (dropdown s))) keydown DropdownMenuKeyDown ∉ listeners (world s) →
  mkReg (Node (menu (dropdown s))) click DropdownItemClick ∉ listeners (world s) →
  isOpen (dropdown s1) = true →
  cleanupListeners (dropdown s1) = cleanupListeners (dropdown (open pos s)) →
  listeners (world s1) = listeners (world (open pos s)) →
  listeners (world (open pos s))
  = listeners (world s)
    ++ [mkReg Document click DropdownClickOutside;
        mkReg (Node (menu (dropdown s))) keydown DropdownMenuKeyDown;
        mkReg (Node (menu (dropdown s))) click DropdownItemClick]
  ∧ listeners (world (close s1)) = listeners (world s)
  ∧ isOpen (dropdown (close s1)) = false
  ∧ focusedIndex (dropdown (close s1)) = (-1)%Z
  ∧ cleanupListeners (dropdown (close s1)) = []
  ∧ ∀ x, x ∈ menuItems (dropdown s1) →
         "atlas-dropdown-focused" ∉ classesOf x (world (close s1)).
Proof.
  intros Ho Hcl H1 H2 H3 Ho1 Hcl1 Hl1.
  destruct (open_listeners pos s Ho H1 H2 H3) as [Hlo Hclo].
  rewrite Hlo in Hl1. rewrite Hclo, Hcl in Hcl1. cbn [app] in Hcl1.
  split; [exact Hlo|].
  unfold close. cbn [dropdown world tasks count_close isOpen]. rewrite Ho1.
  cbn [negb]. unfold animateOut.
  cbn [dropdown world tasks set_isOpen set_focusedIndex set_cleanupListeners
       cleanupListeners isOpen focusedIndex menu count_close menuItems options
       trigger menuId].
  rewrite !listeners_setProperty, listeners_runCleanups, Hcl1.
  rewrite listeners_clearFocusIndicators. unfold updateTriggerAria.
  rewrite listeners_setAttributes, Hl1.
  split.
  { apply filter_added.
    intros r [->|[->|[->|[]%elem_of_nil]%elem_of_cons]%elem_of_cons]%elem_of_cons;
      done. }
  do 3 (split; [done|]). intros x Hx.
  assert (Hstyle : ∀ e p v w0, classesOf x (setProperty e p v w0) = classesOf x w0).
  { intros e p v w0. unfold setProperty. by case_decide. }
  rewrite !Hstyle.
  assert (Hrun : ∀ rs w0, classesOf x (runCleanups rs w0) = classesOf x w0).
  { intros rs. unfold runCleanups. induction rs as [|r rs IH]; intros w0; [done|].
    simpl. by rewrite IH. }
  rewrite Hrun.
  match goal with |- context [clearFocusIndicators ?d0 ?w0] =>
    apply (clearFocusIndicators_clears d0 w0 x)
  end.
  intros _. exact Hx.
Qed.

(** X12 on the example menu: closed right after it was opened. *)
Lemma Dropdown_open_close_leaves_no_listener_witness :
  listeners (world (close (open Examples.menuPosition Examples.pageDropdown)))
  = listeners (world Examples.pageDropdown).
Proof.
  apply (Dropdown_open_close_leaves_no_listener Examples.menuPosition
           Examples.pageDropdown
           (open Examples.menuPosition Examples.pageDropdown));
    try reflexivity;
    vm_compute; intros Hin;
    repeat (apply elem_of_cons in Hin as [Hin|Hin]; [discriminate Hin|]);
    by apply elem_of_nil in Hin.
Defined.

(** X13. The timer of a [close()] is not cancelled by a following
    [open()]: after [open(); close(); open()] the dropdown is open with
    the menu visible and the first close's timer still pending, and when
    that timer fires the menu is hidden and takes no pointer events while
    the dropdown still reports open. *)
Theorem Dropdown_stale_close_timer_hides_the_reopened_menu pos pos' s :
  CloseTail ∈ tasks (open pos' (close (open pos s)))
  ∧ isOpen (dropdown (open pos' (close (open pos s)))) = true
  ∧ getPropertyValue (menu (dropdown s)) "visibility"
      (world (open pos' (close (open pos s)))) = "visible"
  ∧ isOpen (dropdown (closeTail (open pos' (close (open pos s))))) = true
  ∧ getPropertyValue (menu (dropdown s)) "visibility"
      (world (closeTail (open pos' (close (open pos s))))) = "hidden"
  ∧ getPropertyValue (menu (dropdown s)) "pointer-events"
      (world (closeTail (open pos' (close (open pos s))))) = "none".
Proof.
  assert (Hopen : ∀ p s0, isOpen (dropdown s0) = false →
            isOpen (dropdown (open p s0)) = true
            ∧ menu (dropdown (open p s0)) = menu (dropdown s0)
            ∧ tasks (open p s0) = tasks s0 ++ [AnimateInFrame]
            ∧ getPropertyValue (menu (dropdown s0)) "visibility" (world (open p s0))
              = "visible").
  { intros p s0 Ho. unfold open. rewrite Ho. unfold updateMenuItems. cbv zeta.
    cbn [fst snd].
    do 3 (match goal with |- context [addListener ?a ?b ?c ?d] =>
            destruct (addListener a b c d) as [? ?]
          end).
    unfold animateIn.
    cbn [dropdown world tasks call_onOpen isOpen menu set_cleanupListeners
         set_focusedIndex set_menuItems set_isOpen].
    do 3 (split; [done|]).
    rewrite !getPropertyValue_setProperty_ne by done.
    by rewrite getPropertyValue_setProperty_eq. }
  assert (Hopened : isOpen (dropdown (open pos s)) = true
                    ∧ menu (dropdown (open pos s)) = menu (dropdown s)).
  { destruct (isOpen (dropdown s)) eqn:Ho.
    - unfold open. by rewrite Ho.
    - by destruct (Hopen pos s Ho) as (? & ? & _). }
  destruct Hopened as [Ho1 Hm1].
  assert (Hclose : isOpen (dropdown (close (open pos s))) = false
                   ∧ menu (dropdown (close (open pos s))) = menu (dropdown s)
                   ∧ CloseTail ∈ tasks (close (open pos s))).
  { unfold close. cbn [dropdown world tasks count_close isOpen]. rewrite Ho1.
    cbn [negb]. unfold animateOut.
    cbn [dropdown world tasks menu isOpen set_cleanupListeners set_focusedIndex
         set_isOpen].
    split; [done|]. split; [done|].
    rewrite elem_of_app, list_elem_of_singleton. by right. }
  destruct Hclose as (Ho2 & Hm2 & Ht2).
  destruct (Hopen pos' _ Ho2) as (Ho3 & Hm3 & Ht3 & Hv3).
  rewrite Hm2 in Hv3, Hm3.
  split; [rewrite Ht3, elem_of_app; by left|].
  split; [exact Ho3|]. split; [exact Hv3|].
  unfold closeTail. cbn [dropdown world tasks call_onClose isOpen].
  split; [exact Ho3|]. rewrite Hm3. split.
  - rewrite getPropertyValue_setProperty_ne by done.
    by rewrite getPropertyValue_setProperty_eq.
  - by rewrite getPropertyValue_setProperty_eq.
Qed.
End DropdownCycle.

(** ** Modal: events on a modal just opened *)
Section ModalEventsFacts.
Import Dom Modal ModalCycle ModalEvents.
Implicit Types (s : System) (r : Registration) (ev : DomEvent).

Lemma callListeners_app ev (l1 l2 : list Registration) s :
  callListeners ev (l1 ++ l2) s = s' ← callListeners ev l1 s; callListeners ev l2 s'.
Proof.
  revert s. induction l1 as [|r l1 IH]; intros s; [done|].
  cbn [app callListeners]. case_bool_decide; [|apply IH].
  destruct (invoke ev (reg_listener r) s) as [s1|]; [|done].
  cbn [mbind Completion_bind]. apply IH.
Qed.

(** Listeners of other components do not touch the modal. *)
Lemma callListeners_others ev (l : list Registration) s :
  Forall (λ r, own r = false) l → callListeners ev l s = Normal s.
Proof.
  induction 1 as [|r l Hr _ IH]; [done|].
  cbn [callListeners]. case_bool_decide; [|exact IH].
  destruct r as [tg ty h]. unfold own in Hr. cbn [reg_listener] in *.
  destruct h; try done; destruct ev; exact IH.
Qed.

Lemma createModal_consistent element opts w s :
  createModal element opts w = Some s → consistent s.
Proof.
  unfold createModal. destruct (isBrowser w); [|done]. cbn [negb].
  unfold Shared.generateId. cbv zeta. intros [= <-].
  unfold consistent. cbn [modal focusTrap options].
  by destruct (trapFocus opts).
Qed.

(** The registry of a modal just opened, as the event sees it. *)
Lemma dispatch_opened ev (m : Modal.t) w ts (L bl el tl : list Registration) :
  listeners w = ((L ++ bl) ++ el) ++ tl →
  Forall (λ r, own r = false) L →
  dispatch ev (mkSystem m w ts)
  = callListeners ev
      (filter (λ r, reg_type r = eventType ev
                    ∧ onPath ev (mkSystem m w ts) (reg_target r) = true)
         ((bl ++ el) ++ tl))
      (mkSystem m w ts).
Proof.
  intros Hl Hown. unfold dispatch. cbn [world]. rewrite Hl, <- !app_assoc.
  rewrite filter_app, callListeners_app, callListeners_others.
  - done.
  - apply Forall_forall. intros r [_ Hr]%list_elem_of_filter.
    rewrite Forall_forall in Hown. by apply Hown.
Qed.

Lemma filter_trapListeners_click target (s1 : System) ft :
  filter (λ r, reg_type r = eventType (ClickEv target)
               ∧ onPath (ClickEv target) s1 (reg_target r) = true)
    (trapListeners ft) = [].
Proof.
  apply filter_none, Forall_forall. intros r Hr [Hty _].
  destruct ft as [tr|]; [|by apply elem_of_nil in Hr]. simpl in Hr.
  apply elem_of_cons in Hr as [->|[->|[]%elem_of_nil]%elem_of_cons]; done.
Qed.

Lemma filter_escapeListeners_click target (s1 : System) o :
  filter (λ r, reg_type r = eventType (ClickEv target)
               ∧ onPath (ClickEv target) s1 (reg_target r) = true)
    (escapeListeners o) = [].
Proof.
  apply filter_none, Forall_forall.
  intros r ->%escapeListeners_handler [Hty _]. done.
Qed.

(** X14. A click dispatched to a modal just opened from a closed, idle
    state enters [close()] exactly when a backdrop was mounted with
    [closeOnBackdrop] set and the click's target is the backdrop node
    itself; any other click leaves the modal as it is. *)
Theorem Modal_only_a_backdrop_click_closes (s : System) (target : positive) :
  idle s →
  dispatch (ClickEv target) (open s)
  = Normal (if backdrop (options (modal s)) && closeOnBackdrop (options (modal s))
               && bool_decide (target = nextId (world s))
            then close (open s) else open s).
Proof.
  destruct s as [m w ts]. unfold idle. cbn [modal world tasks].
  intros (Hb & Ho & Hbd & Hcl & -> & Htrap & Hown & Hbody & [a0 Ha0]).
  assert (Hv : view w = (true, listeners w,
                         (Some a0, bodyChildren w, bodyCssText w, scrollX w,
                          scrollY w, nextId w))).
  { unfold view, Page.layout. by rewrite Hb, Ha0. }
  destruct (open_cycle m w [] _ _ _ _ _ _ _ Hv Hown Ho Hbd Hcl Htrap)
    as (w1 & pinned & ft1 & -> & Hv1 & Htl & _).
  set (m1 := Modal.mk _ _ _ _ _ _ _ _ _ _).
  set (T1 := (_ ++ _) ++ _).
  assert (Hl1 : listeners w1
                = ((listeners w ++ backdropListeners (options m) (nextId w))
                   ++ escapeListeners (options m)) ++ trapListeners (focusTrap m)).
  { revert Hv1. unfold view. by intros [= _ -> _]. }
  rewrite (dispatch_opened _ _ _ _ _ _ _ _ Hl1 Hown).
  rewrite !filter_app, filter_trapListeners_click, filter_escapeListeners_click.
  rewrite !app_nil_r. unfold backdropListeners.
  destruct (backdrop (options m)) eqn:Hbk; cbn [andb]; [|done].
  destruct (closeOnBackdrop (options m)) eqn:Hcb; cbn [andb]; [|done].
  case_bool_decide as Ht.
  - subst target. rewrite filter_cons_True.
    2:{ split; [done|]. cbn [onPath reg_target]. by apply bool_decide_eq_true_2. }
    cbn [filter list_filter callListeners].
    rewrite bool_decide_eq_true_2.
    2:{ cbn [world]. rewrite Hl1. unfold backdropListeners. rewrite Hbk, Hcb.
        cbn [andb]. rewrite !elem_of_app. left. left. right.
        apply list_elem_of_here. }
    cbn [reg_listener invoke mbind Completion_bind].
    unfold handleBackdropClick. subst m1. cbn [modal options backdropElement].
    rewrite ?Hbk, ?Hcb. cbn [andb]. by rewrite bool_decide_eq_true_2.
  - rewrite filter_cons_False; [done|].
    intros [_ Hp]. cbn [onPath reg_target] in Hp.
    apply bool_decide_eq_true_1 in Hp. congruence.
Qed.

(** X14 on the example page: a click on the backdrop node (100) closes. *)
Lemma Modal_only_a_backdrop_click_closes_witness :
  dispatch (ClickEv 100) (open Examples.pageModal)
  = Normal (close (open Examples.pageModal)).
Proof.
  assert (idle Examples.pageModal) as Hidle.
  { apply (createModal_idle 10%positive defaultOptions Examples.page).
    - vm_compute. reflexivity.
    - apply Forall_nil_2.
    - apply Forall_nil_2.
    - by eexists. }
  pose proof (Modal_only_a_backdrop_click_closes Examples.pageModal 100 Hidle)
    as Hclick.
  assert (backdrop (options (modal Examples.pageModal))
          && closeOnBackdrop (options (modal Examples.pageModal))
          && bool_decide (100%positive = nextId (world Examples.pageModal)) = true)
    as Hcond by (vm_compute; reflexivity).
  rewrite Hcond in Hclick. exact Hclick.
Defined.

(** X15. Escape on a modal just opened from a closed, idle state, built
    as [createModal] builds it: [close()] is entered once when
    [closeOnEscape] is set, through the trap when there is one and
    through the document listener otherwise, and not at all when
    [closeOnEscape] is off. *)
Theorem Modal_Escape_closes_exactly_when_closeOnEscape
    (s : System) (e : FocusTrap.KeyboardEvent) :
  idle s → consistent s → FocusTrap.key e = "Escape" →
  dispatch (KeyDownEv e) (open s)
  = Normal (if closeOnEscape (options (modal s)) then close (open s) else open s).
Proof.
  destruct s as [m w ts]. unfold idle, consistent. cbn [modal world tasks].
  intros (Hb & Ho & Hbd & Hcl & -> & Htrap & Hown & Hbody & [a0 Ha0]) Hcons Hkey.
  assert (Hv : view w = (true, listeners w,
                         (Some a0, bodyChildren w, bodyCssText w, scrollX w,
                          scrollY w, nextId w))).
  { unfold view, Page.layout. by rewrite Hb, Ha0. }
  destruct (open_cycle m w [] _ _ _ _ _ _ _ Hv Hown Ho Hbd Hcl Htrap)
    as (w1 & pinned & ft1 & -> & Hv1 & Htl & Hft & _).
  set (m1 := Modal.mk _ _ _ _ _ _ _ _ _ _).
  set (T1 := (_ ++ _) ++ _).
  assert (Hl1 : listeners w1
                = ((listeners w ++ backdropListeners (options m) (nextId w))
                   ++ escapeListeners (options m)) ++ trapListeners (focusTrap m)).
  { revert Hv1. unfold view. by intros [= _ -> _]. }
  rewrite (dispatch_opened _ _ _ _ _ _ _ _ Hl1 Hown).
  rewrite !filter_app.
  assert (Hbl : filter (λ r, reg_type r = eventType (KeyDownEv e)
                  ∧ onPath (KeyDownEv e) (mkSystem m1 w1 T1) (reg_target r) = true)
                  (backdropListeners (options m) (nextId w)) = []).
  { apply filter_none, Forall_forall.
    by intros r ->%backdropListeners_handler [Hty _]. }
  rewrite Hbl. cbn [app].
  destruct (focusTrap m) as [tr|] eqn:Htr.
  - destruct Hcons as [Htf Hesc]. destruct ft1 as [tr1|]; [|done].
    destruct Hft as (Hact & _ & _ & _ & Hesc1). cbn [fmap option_fmap option_map] in Hesc1.
    injection Hesc1 as Hesc1.
    unfold escapeListeners. rewrite Htf, andb_false_r. cbn [app trapListeners].
    rewrite filter_cons_True by done. rewrite filter_cons_False by (by intros [? _]).
    cbn [filter list_filter app callListeners].
    rewrite bool_decide_eq_true_2.
    2:{ cbn [world]. rewrite Hl1. cbn [trapListeners]. rewrite !elem_of_app. right.
        apply list_elem_of_here. }
    cbn [reg_listener invoke]. unfold trapKeyDown.
    subst m1. cbn [modal world tasks focusTrap].
    unfold FocusTrap.handleKeyDown. rewrite Hact, Hkey. cbn [negb].
    rewrite bool_decide_eq_true_2 by done.
    cbn [mbind Completion_bind FocusTrap.escapeInvoked].
    rewrite Hesc1, Hesc. cbn [set_focusTrap options element isOpen backdropElement
      unlockScroll cleanupListeners closeCalls onOpenCalls onCloseCalls].
    by destruct (closeOnEscape (options m)).
  - cbn [trapListeners]. rewrite app_nil_r. unfold escapeListeners.
    rewrite Hcons. cbn [negb]. rewrite andb_true_r.
    destruct (closeOnEscape (options m)) eqn:Hce; [|done].
    rewrite filter_cons_True by done.
    cbn [filter list_filter app callListeners].
    rewrite bool_decide_eq_true_2.
    2:{ cbn [world]. rewrite Hl1. unfold escapeListeners.
        rewrite Hce, Hcons. cbn [negb andb trapListeners].
        rewrite !elem_of_app. left. right. apply list_elem_of_here. }
    unfold escapeRegistration.
    cbn [reg_listener invoke mbind Completion_bind]. unfold handleEscapeKey.
    subst m1. cbn [modal options isOpen]. rewrite ?Hce, Hkey.
    by rewrite bool_decide_eq_true_2.
Qed.

(** X15 on the example page, whose modal has every default. *)
Lemma Modal_Escape_closes_exactly_when_closeOnEscape_witness :
  dispatch (KeyDownEv Escape) (open Examples.pageModal)
  = Normal (close (open Examples.pageModal)).
Proof.
  assert (idle Examples.pageModal) as Hidle.
  { apply (createModal_idle 10%positive defaultOptions Examples.page).
    - vm_compute. reflexivity.
    - apply Forall_nil_2.
    - apply Forall_nil_2.
    - by eexists. }
  assert (consistent Examples.pageModal) as Hcons.
  { apply (createModal_consistent 10%positive defaultOptions Examples.page).
    vm_compute. reflexivity. }
  pose proof (Modal_Escape_closes_exactly_when_closeOnEscape Examples.pageModal
                Escape Hidle Hcons eq_refl) as Hesc.
  assert (closeOnEscape (options (modal Examples.pageModal)) = true)
    as Hcond by (vm_compute; reflexivity).
  rewrite Hcond in Hesc. exact Hesc.
Defined.
End ModalEventsFacts.

(** ** Modal: [destroy()] while open *)
Section ModalDestroyFacts.
Import Dom Modal ModalCycle.
Implicit Types (w : World) (m : Modal.t) (ts : list Task)
  (L : list Registration) (B : list positive) (css : string) (x y : Z)
  (n : positive).

Lemma view_remove (e : positive) w (b : bool) L (a : option positive) B css x y n :
  view w = (b, L, (a, B ++ [e], css, x, y, n)) → e ∉ B →
  view (remove e w) = (b, L, (a, B, css, x, y, n)).
Proof.
  unfold view, Page.layout. intros [= Hb HL Ha HB Hcss Hx Hy Hn] He.
  unfold remove. simpl. rewrite HB, Hb, HL, Ha, Hcss, Hx, Hy, Hn.
  rewrite filter_app, filter_all, filter_none, app_nil_r; [done| |].
  - apply Forall_forall. intros e' ->%list_elem_of_singleton. by intros ?.
  - apply Forall_forall. by intros e' He' ->.
Qed.

Lemma view_unlock w (b : bool) L (a : option positive) B css x y n (y0 : Z) css0 :
  view w = (b, L, (a, B, css, x, y, n)) →
  view (unlock (Some (y0, css0)) w) = (b, L, (a, B, css0, 0%Z, y0, n)).
Proof.
  unfold view, Page.layout. intros [= Hb HL Ha HB Hcss Hx Hy Hn].
  simpl. congruence.
Qed.

Lemma inlineStyle_runCleanups (rs : list Registration) w :
  inlineStyle (runCleanups rs w) = inlineStyle w.
Proof.
  unfold runCleanups. revert w. induction rs as [|r rs IH]; intros w; [done|].
  simpl. by rewrite IH.
Qed.

Lemma getAttribute_removeAttribute_ne (e : positive) (k k' : string) w :
  k ≠ k' → getAttribute e k' (removeAttribute e k w) = getAttribute e k' w.
Proof.
  intros Hne. unfold getAttribute, removeAttribute, attrsOf. simpl.
  rewrite lookup_insert_eq. simpl. by rewrite lookup_delete_ne.
Qed.

Lemma deactivateTrap_cycle m w ts L (a' : option positive) (a0 : positive)
    B css x y n :
  view w = (true, L ++ trapListeners (focusTrap m), (a', B, css, x, y, n)) →
  (∀ r, r ∈ trapListeners (focusTrap m) → r ∉ L) →
  match focusTrap m with
  | Some tr =>
      FocusTrap.isActive tr = true
      ∧ FocusTrap.cleanupListeners tr = trapListeners (focusTrap m)
      ∧ FocusTrap.returnFocus tr = FocusTrap.ReturnPrevious
      ∧ FocusTrap.previouslyFocused tr = Some a0
  | None => a' = Some a0
  end →
  ∃ w' ft',
    deactivateTrap (mkSystem m w ts) = mkSystem (set_focusTrap ft' m) w' ts
    ∧ view w' = (true, L, (Some a0, B, css, x, y, n)).
Proof.
  intros Hv Hfresh Htrap. unfold deactivateTrap. cbn [modal world tasks].
  destruct (focusTrap m) as [tr|] eqn:Htr.
  - destruct Htrap as (Hact & Hcl & Hret & Hprev).
    unfold FocusTrap.deactivate. rewrite Hact. cbn [negb]. cbv zeta.
    cbn [FocusTrap.cleanupListeners FocusTrap.set_isActive FocusTrap.container
         FocusTrap.set_cleanupListeners FocusTrap.returnFocus
         FocusTrap.previouslyFocused].
    rewrite Hret, Hprev, Hcl.
    pose proof (view_runCleanups (trapListeners (Some tr)) w _ _ _ Hv) as Hv1.
    rewrite filter_added in Hv1 by exact Hfresh.
    set (w1 := runCleanups _ w) in *.
    eexists _, (Some _). split; [reflexivity|].
    revert Hv1. unfold view, Page.layout.
    intros [= Hb HL Ha HB Hcss Hx Hy Hn].
    case_bool_decide; simpl; congruence.
  - subst a'. simpl in Hv. rewrite app_nil_r in Hv. exists w, None.
    split; [|done]. destruct m; simpl in *; by subst.
Qed.

(** [immediateClose] and the two [removeAttribute] calls after it. *)
Lemma destroy_open_cycle m w ts L (a' : option positive) (a0 : positive)
    B pinned x y n (y0 : Z) css0 :
  isOpen m = true →
  view w
  = (true, (L ++ cleanupListeners m) ++ trapListeners (focusTrap m),
     (a', B ++ (if backdropElement m is Some b then [b] else []), pinned, x, y, n)) →
  (∀ r, r ∈ trapListeners (focusTrap m) → r ∉ L ++ cleanupListeners m) →
  (∀ r, r ∈ cleanupListeners m → r ∉ L) →
  (∀ b, backdropElement m = Some b → b ∉ B) →
  unlockScroll m = Some (Some (y0, css0)) →
  match focusTrap m with
  | Some tr =>
      FocusTrap.isActive tr = true
      ∧ FocusTrap.cleanupListeners tr = trapListeners (focusTrap m)
      ∧ FocusTrap.returnFocus tr = FocusTrap.ReturnPrevious
      ∧ FocusTrap.previouslyFocused tr = Some a0
  | None => a' = Some a0
  end →
  ∃ w' ft',
    destroy (mkSystem m w ts) = mkSystem (set_focusTrap ft' m) w' ts
    ∧ view w' = (true, L, (Some a0, B, css0, 0%Z, y0, n))
    ∧ getPropertyValue (element m) "display" w' = "none"
    ∧ getAttribute (element m) "aria-hidden" w' = None
    ∧ getAttribute (element m) "aria-modal" w' = None.
Proof.
  intros Ho Hv Hfresh Hfresh' Hbd Hu Htrap. unfold destroy.
  cbn [modal world tasks]. rewrite Ho. unfold immediateClose.
  destruct (deactivateTrap_cycle m w ts _ _ a0 _ _ _ _ _ Hv Hfresh Htrap)
    as (w1 & ft' & -> & Hv1).
  cbn [modal world tasks element backdropElement cleanupListeners unlockScroll
       set_focusTrap].
  rewrite Hu.
  set (w2 := setAttribute _ "aria-hidden" "true" (setProperty _ "display" "none" w1)).
  assert (Hv2 : view w2
                = (true, L ++ cleanupListeners m,
                   (Some a0,
                    B ++ (if backdropElement m is Some b then [b] else []),
                    pinned, x, y, n))).
  { subst w2. change (view (setAttribute ?e ?k ?v ?w0)) with (view w0).
    by rewrite view_setProperty. }
  assert (Hd2 : getPropertyValue (element m) "display" w2 = "none").
  { subst w2. change (getPropertyValue ?e ?p (setAttribute ?e' ?k ?v ?w0))
      with (getPropertyValue e p w0). apply getPropertyValue_setProperty_eq. }
  clearbody w2.
  set (w3 := match backdropElement m with Some b => remove b w2 | None => w2 end).
  assert (Hv3 : view w3
                = (true, L ++ cleanupListeners m, (Some a0, B, pinned, x, y, n))).
  { subst w3. destruct (backdropElement m) as [b|] eqn:Hb.
    - apply view_remove; [done|]. by apply Hbd.
    - by rewrite app_nil_r in Hv2. }
  assert (Hd3 : getPropertyValue (element m) "display" w3 = "none").
  { subst w3. by destruct (backdropElement m). }
  clearbody w3.
  pose proof (view_runCleanups (cleanupListeners m) w3 _ _ _ Hv3) as Hv4.
  rewrite filter_added in Hv4 by exact Hfresh'.
  assert (Hd4 : getPropertyValue (element m) "display"
                  (runCleanups (cleanupListeners m) w3) = "none").
  { rewrite <- Hd3. unfold getPropertyValue, styleOf.
    by rewrite inlineStyle_runCleanups. }
  set (w4 := runCleanups _ w3) in *. clearbody w4.
  pose proof (view_unlock w4 _ _ _ _ _ _ _ _ y0 css0 Hv4) as Hv5.
  eexists _, ft'. split; [reflexivity|].
  split; [exact Hv5|]. split; [exact Hd4|]. split.
  - apply getAttribute_removeAttribute.
  - rewrite getAttribute_removeAttribute_ne by done.
    apply getAttribute_removeAttribute.
Qed.

(** X16. [destroy()] on a modal opened from a closed, idle state, after
    the two frames [open()] asked for: the listener registry, the focused
    element, the body's inline style and the vertical scroll offset are
    as they were before [open()]; every earlier child of the body is
    still there, in the same order, and the backdrop node is no longer in
    the body; the element is hidden and has lost [aria-hidden] and
    [aria-modal]. Only the modal's own variables are left as they were
    while open: [isOpen] true, the reference to the detached backdrop and
    the unlock closure. Nothing is said of other nodes that may have
    joined the body, such as the live region of [announce]. *)
Theorem Modal_destroy_while_open_gives_the_page_back (s : System) :
  idle s →
  ∃ s', run [Open; Run AnimateInFrame; Run InitialFocusFrame; Destroy] s = Normal s'
    ∧ listeners (world s') = listeners (world s)
    ∧ activeElement (world s') = activeElement (world s)
    ∧ bodyCssText (world s') = bodyCssText (world s)
    ∧ scrollY (world s') = scrollY (world s)
    ∧ bodyChildren (world s) `sublist_of` bodyChildren (world s')
    ∧ (∀ b, backdropElement (modal s') = Some b → b ∉ bodyChildren (world s'))
    ∧ getPropertyValue (element (modal s)) "display" (world s') = "none"
    ∧ getAttribute (element (modal s)) "aria-hidden" (world s') = None
    ∧ getAttribute (element (modal s)) "aria-modal" (world s') = None
    ∧ isOpen (modal s') = true
    ∧ backdropElement (modal s')
      = (if backdrop (options (modal s)) then Some (nextId (world s)) else None)
    ∧ is_Some (unlockScroll (modal s')).
Proof.
  destruct s as [m w ts]. unfold idle. cbn [modal world tasks].
  intros (Hb & Ho & Hbd & Hcl & -> & Htrap & Hown & Hbody & [a0 Ha0]).
  assert (Hv : view w = (true, listeners w,
                         (Some a0, bodyChildren w, bodyCssText w, scrollX w,
                          scrollY w, nextId w))).
  { unfold view, Page.layout. by rewrite Hb, Ha0. }
  destruct (open_cycle m w [] _ _ _ _ _ _ _ Hv Hown Ho Hbd Hcl Htrap)
    as (w1 & pinned & ft1 & Hopen & Hv1 & Htl & Hft & _).
  set (m1 := Modal.mk _ _ _ _ _ _ _ _ _ _) in Hopen.
  assert (Hsame : (if focusTrap m is Some _ then [InitialFocusFrame] else [])
                  = (if focusTrap m1 is Some _ then [InitialFocusFrame] else [])).
  { subst m1. cbn [focusTrap]. destruct ft1, (focusTrap m); done. }
  rewrite Hsame in Hopen.
  destruct (frames_cycle m1 w1 (backdrop (options m)) _ _ _ _ _ _ _ Hv1)
    as (w2 & a2 & Hframes & Hv2 & Hnone).
  assert (Htl1 : trapListeners (focusTrap m1) = trapListeners (focusTrap m))
    by exact Htl.
  rewrite <- Htl1 in Hv2.
  destruct (destroy_open_cycle m1 w2 [] (listeners w) a2 a0 (bodyChildren w)
              pinned (scrollX w) (scrollY w)
              (if backdrop (options m) then Pos.succ (nextId w) else nextId w)
              (scrollY w) (bodyCssText w) eq_refl)
    as (w3 & ft3 & Hdestroy & Hv3 & Hd & Hah & Ham).
  { subst m1. cbn [cleanupListeners backdropElement focusTrap] in *.
    rewrite Hv2, app_assoc. by destruct (backdrop (options m)). }
  { intros r Hr. rewrite Htl1 in Hr. apply trapListeners_handler in Hr.
    subst m1. cbn [cleanupListeners]. rewrite app_assoc.
    repeat apply not_elem_of_app_own.
    - apply own_fresh; [done|]. unfold own. by destruct Hr as [-> | ->].
    - intros ->%backdropListeners_handler. by destruct Hr.
    - intros ->%escapeListeners_handler. by destruct Hr. }
  { subst m1. cbn [cleanupListeners]. intros r Hr.
    apply own_fresh; [done|].
    apply elem_of_app in Hr as [->%backdropListeners_handler
                               | ->%escapeListeners_handler]; done. }
  { subst m1. cbn [backdropElement]. intros b Hsome Hin.
    destruct (backdrop (options m)); [|done]. injection Hsome as <-.
    rewrite Forall_forall in Hbody. apply Hbody in Hin. lia. }
  { done. }
  { subst m1. cbn [focusTrap] in *. destruct ft1 as [tr1|].
    - destruct Hft as (? & ? & ? & ? & _). by rewrite Htl.
    - by apply Hnone. }
  eexists. split.
  - change [Open; Run AnimateInFrame; Run InitialFocusFrame; Destroy]
      with ([Open] ++ [Run AnimateInFrame; Run InitialFocusFrame] ++ [Destroy]).
    rewrite run_app. cbn [run step mbind Completion_bind]. rewrite Hopen.
    rewrite run_app, Hframes. cbn [run mbind Completion_bind].
    change (step Destroy (mkSystem m1 w2 []))
      with (Normal (destroy (mkSystem m1 w2 []))).
    rewrite Hdestroy. reflexivity.
  - revert Hv3. unfold view, Page.layout.
    intros [= Hb3 HL3 Ha3 HB3 Hcss3 Hx3 Hy3 Hn3].
    subst m1. cbn [modal world element isOpen backdropElement
      unlockScroll set_focusTrap] in *.
    rewrite HL3, Ha3, HB3, Hcss3, Hy3, Ha0.
    do 4 (split; [done|]). split; [reflexivity|]. split.
    { intros b Hsome Hin. destruct (backdrop (options m)); [|done].
      injection Hsome as <-. rewrite Forall_forall in Hbody.
      apply Hbody in Hin. lia. }
    do 5 (split; [done|]). by eexists.
Qed.

(** X16 on the example page. *)
Lemma Modal_destroy_while_open_gives_the_page_back_witness :
  ∃ s', run [Open; Run AnimateInFrame; Run InitialFocusFrame; Destroy]
          Examples.pageModal = Normal s'
        ∧ listeners (world s') = listeners (world Examples.pageModal)
        ∧ (∀ b, backdropElement (modal s') = Some b →
             b ∉ bodyChildren (world s')).
Proof.
  destruct (Modal_destroy_while_open_gives_the_page_back Examples.pageModal)
    as (s' & Hrun & HL & _ & _ & _ & _ & Hgone & _).
  - apply (createModal_idle 10%positive defaultOptions Examples.page).
    + vm_compute. reflexivity.
    + apply Forall_nil_2.
    + apply Forall_nil_2.
    + by eexists.
  - exists s'. split; [exact Hrun|]. split; [exact HL | exact Hgone].
Defined.
End ModalDestroyFacts.

(** ** Modal: [open()] again before a close has ended *)
Section ModalReopenFacts.
Import Dom Modal ModalCycle.
Implicit Types (w : World) (m : Modal.t) (ts : list Task)
  (L : list Registration) (B : list positive) (css : string) (x y : Z)
  (n : positive).

(** The document-level Escape listener registered a second time: the
    registry ignores it, the cleanup list does not. *)
Lemma addEscapeListener_again m w ts L
    (lay : option positive * list positive * string * Z * Z * positive) :
  view w = (true, L, lay) →
  (∀ r, r ∈ escapeListeners (options m) → r ∈ L) →
  ∃ w',
    addEscapeListener (mkSystem m w ts)
    = mkSystem
        (set_cleanupListeners (cleanupListeners m ++ escapeListeners (options m)) m)
        w' ts
    ∧ view w' = (true, L, lay).
Proof.
  intros Hv Hin. unfold addEscapeListener, escapeListeners in *.
  cbn [modal world tasks].
  destruct (closeOnEscape (options m) && negb (trapFocus (options m))).
  - exists w. split; [|done]. unfold addListener.
    rewrite bool_decide_eq_true_2; [done|].
    revert Hv. unfold view. intros [= _ -> _]. apply Hin, list_elem_of_here.
  - exists w. split; [|done]. destruct m; simpl. by rewrite app_nil_r.
Qed.

Lemma inlineStyle_announce msg w : inlineStyle (announce msg w) = inlineStyle w.
Proof. unfold announce. by destruct (isBrowser w). Qed.

Lemma attributes_announce msg w : attributes (announce msg w) = attributes w.
Proof. unfold announce. by destruct (isBrowser w). Qed.

Lemma inlineStyle_unlock u w : inlineStyle (unlock u w) = inlineStyle w.
Proof. by destruct u as [[y0 css0]|]. Qed.

Lemma attributes_unlock u w : attributes (unlock u w) = attributes w.
Proof. by destruct u as [[y0 css0]|]. Qed.

(** [open()] on a modal whose close has not ended yet. *)
Lemma reopen_cycle m w ts L (a : option positive) B css x y n (b0 : option positive) :
  view w = (true, L, (a, B, css, x, y, n)) →
  isOpen m = false →
  backdropElement m = b0 →
  mkReg (Node n) click OverlayBackdropClick ∉ L →
  (∀ r, r ∈ escapeListeners (options m) → r ∈ L) →
  (∀ r, r ∈ trapListeners (focusTrap m) →
        r ∉ L ++ backdropListeners (options m) n) →
  match focusTrap m with
  | Some tr =>
      FocusTrap.isActive tr = false
      ∧ FocusTrap.cleanupListeners tr = []
      ∧ FocusTrap.returnFocus tr = FocusTrap.ReturnPrevious
  | None => True
  end →
  ∃ w' pinned ft',
    open (mkSystem m w ts)
    = mkSystem
        (Modal.mk (options m) (element m) true
           (if backdrop (options m) then Some n else b0)
           ft' (Some (Some (y, css)))
           ((cleanupListeners m ++ backdropListeners (options m) n)
            ++ escapeListeners (options m))
           (closeCalls m)
           (if onOpen (options m) then S (onOpenCalls m) else onOpenCalls m)
           (onCloseCalls m))
        w'
        ((ts ++ (if (if backdrop (options m) then Some n else b0) is Some _
                 then [AnimateInFrame] else []))
         ++ if focusTrap m is Some _ then [InitialFocusFrame] else [])
    ∧ view w'
      = (true,
         (L ++ backdropListeners (options m) n) ++ trapListeners (focusTrap m),
         (a, B ++ (if backdrop (options m) then [n] else []), pinned, x, y,
          if backdrop (options m) then Pos.succ n else n)).
Proof.
  intros Hv Ho Hbd Hbc Hesc Htrapfresh Htrap. unfold open. cbn [modal world tasks].
  rewrite Ho.
  destruct (lockBodyScroll_cycle (set_isOpen true m) w ts _ _ _ _ _ _ _ Hv)
    as (w1 & pinned & -> & Hv1 & _).
  destruct (mountBackdrop_cycle (set_unlockScroll (Some (Some (y, css)))
                                   (set_isOpen true m)) w1 ts _ _ _ _ _ _ _ Hv1 Hbc)
    as (w2 & -> & Hv2).
  match goal with |- context [showModal (mkSystem ?m2 w2 ts)] =>
    destruct (showModal_cycle m2 w2 ts) as (w3 & -> & Hv3);
    rewrite Hv2 in Hv3;
    destruct (addEscapeListener_again m2 w3 ts _ _ Hv3) as (w4 & -> & Hv4)
  end.
  { cbn [options set_cleanupListeners set_backdropElement set_unlockScroll set_isOpen].
    intros r Hr. apply elem_of_app. left. by apply Hesc. }
  rewrite animateIn_cycle.
  cbn [options cleanupListeners backdropElement focusTrap set_cleanupListeners
       set_backdropElement set_unlockScroll set_isOpen] in *.
  match goal with |- context [activateTrap (mkSystem ?m5 w4 ?ts5)] =>
    destruct (activateTrap_cycle m5 w4 ts5 _ _ _ _ _ _ _ Hv4)
      as (w5 & ft' & -> & Hv5 & Htl & Hft)
  end.
  { exact Htrapfresh. }
  { exact Htrap. }
  cbn [focusTrap] in *. exists (announce "Dialog opened" w5), pinned, ft'.
  split.
  - unfold call_onOpen. cbn. rewrite Hbd. reflexivity.
  - by rewrite view_announce.
Qed.

(** X17. [open(); close(); open()] on a closed, idle modal, and then the
    timer of that [close()]: the rest of [close()] runs against the
    second opening.  The modal still reports open, but its element is
    hidden; it holds no backdrop, no unlock closure and no cleanup any
    more, while the first backdrop node is still a child of the body and
    the body still carries the pinned style of the scroll lock; of the
    modal's listeners only the trap's remain. *)
Theorem Modal_reopen_before_close_ends (s : System) :
  idle s →
  ∃ s', run [Open; Close; Open; Run CloseTail] s = Normal s'
    ∧ isOpen (modal s') = true
    ∧ getPropertyValue (element (modal s)) "display" (world s') = "none"
    ∧ getAttribute (element (modal s)) "aria-hidden" (world s') = Some "true"
    ∧ backdropElement (modal s') = None
    ∧ unlockScroll (modal s') = None
    ∧ cleanupListeners (modal s') = []
    ∧ bodyChildren (world s')
      = bodyChildren (world s)
        ++ (if backdrop (options (modal s)) then [nextId (world s)] else [])
    ∧ bodyCssText (world s') = bodyCssText (lockScroll (world s)).2
    ∧ listeners (world s')
      = listeners (world s) ++ trapListeners (focusTrap (modal s)).
Proof.
  destruct s as [m w ts]. unfold idle. cbn [modal world tasks].
  intros (Hb & Ho & Hbd & Hcl & -> & Htrap & Hown & Hbody & [a0 Ha0]).
  assert (Hv : view w = (true, listeners w,
                         (Some a0, bodyChildren w, bodyCssText w, scrollX w,
                          scrollY w, nextId w))).
  { unfold view, Page.layout. by rewrite Hb, Ha0. }
  (* the first open() *)
  destruct (open_cycle m w [] _ _ _ _ _ _ _ Hv Hown Ho Hbd Hcl Htrap)
    as (w1 & pinned & ft1 & Hopen & Hv1 & Htl & Hft & Hpinned).
  set (m1 := Modal.mk _ _ _ _ _ _ _ _ _ _) in Hopen.
  set (T1 := (_ ++ _) ++ _) in Hopen.
  set (bl := backdropListeners (options m) (nextId w)) in *.
  set (el := escapeListeners (options m)) in *.
  set (n1 := if backdrop (options m) then Pos.succ (nextId w) else nextId w) in *.
  set (bdl := if backdrop (options m) then [nextId w] else []) in *.
  assert (Hfresh : ∀ r, r ∈ trapListeners (focusTrap m1) →
                        r ∉ (listeners w ++ bl) ++ el).
  { intros r Hr. apply trapListeners_handler in Hr.
    repeat apply not_elem_of_app_own.
    - apply own_fresh; [done|]. unfold own. by destruct Hr as [-> | ->].
    - intros ->%backdropListeners_handler. by destruct Hr.
    - intros ->%escapeListeners_handler. by destruct Hr. }
  assert (Htl1 : trapListeners (focusTrap m1) = trapListeners (focusTrap m))
    by exact Htl.
  rewrite <- Htl1 in Hv1.
  (* close() *)
  destruct (close_cycle m1 w1 T1 _ (Some a0) a0 _ _ _ _ _ eq_refl Hv1 Hfresh)
    as (w2 & ft2 & Hclose & Hv2 & Hft2 & Htl2).
  { subst m1. cbn [focusTrap] in *. destruct ft1 as [tr1|]; [|done].
    destruct Hft as (? & ? & ? & ? & _). by rewrite Htl. }
  set (m2 := Modal.mk _ _ _ _ _ _ _ _ _ _) in Hclose.
  (* the second open() *)
  destruct (reopen_cycle m2 w2 (T1 ++ [CloseTail]) _ _ _ _ _ _ _
              (backdropElement m2) Hv2 eq_refl eq_refl)
    as (w3 & pinned3 & ft3 & Hreopen & Hv3).
  { apply not_elem_of_app_own; [apply not_elem_of_app_own|].
    - by apply own_fresh.
    - subst bl n1. unfold backdropListeners.
      destruct (backdrop (options m)); cbn [andb]; [|apply not_elem_of_nil].
      destruct (closeOnBackdrop (options m)); [|apply not_elem_of_nil].
      intros [= Hin]%list_elem_of_singleton. lia.
    - subst el. by intros [=]%escapeListeners_handler. }
  { subst m2 m1. cbn [options]. intros r Hr. rewrite elem_of_app. by right. }
  { subst m2 m1. cbn [options focusTrap]. intros r Hr.
    apply trapListeners_handler in Hr.
    repeat apply not_elem_of_app_own.
    - apply own_fresh; [done|]. unfold own. by destruct Hr as [-> | ->].
    - intros ->%backdropListeners_handler. by destruct Hr.
    - intros ->%escapeListeners_handler. by destruct Hr.
    - intros ->%backdropListeners_handler. by destruct Hr. }
  { subst m2. cbn [focusTrap]. exact Hft2. }
  set (m3 := Modal.mk _ _ _ _ _ _ _ _ _ _) in Hreopen.
  set (T3 := (_ ++ _) ++ _) in Hreopen.
  subst m2 m1. cbn [options element backdropElement focusTrap cleanupListeners
                    closeCalls onOpenCalls onCloseCalls] in *.
  fold bl el in m3, Hv3 |- *. fold n1 in Hv3.
  (* the timer of close() *)
  assert (Hin : CloseTail ∈ T3).
  { subst T3. rewrite !elem_of_app. left. left. right. apply list_elem_of_here. }
  set (T4 := dequeue CloseTail T3).
  set (w4 := setAttribute (element m) "aria-hidden" "true"
               (setProperty (element m) "display" "none" w3)).
  assert (Hv4 : view w4 = view w3).
  { subst w4. change (view (setAttribute ?e ?k ?v ?w0)) with (view w0).
    by rewrite view_setProperty. }
  rewrite Hv3 in Hv4.
  set (w5 := match backdropElement m3 with Some b => remove b w4 | None => w4 end).
  assert (Hv5 : view w5
                = (true,
                   (((listeners w ++ bl) ++ el) ++ backdropListeners (options m) n1)
                   ++ trapListeners ft2,
                   (Some a0, bodyChildren w ++ bdl, pinned3, scrollX w, scrollY w,
                    if backdrop (options m) then Pos.succ n1 else n1))).
  { subst w5 m3. cbn [backdropElement]. subst bdl.
    destruct (backdrop (options m)) eqn:Hbk.
    - apply view_remove; [exact Hv4|]. intros Hin'.
      apply elem_of_app in Hin' as [Hin'|Hin'%list_elem_of_singleton].
      + rewrite Forall_forall in Hbody. apply Hbody in Hin'. subst n1. lia.
      + subst n1. lia.
    - rewrite !app_nil_r in Hv4. rewrite app_nil_r. exact Hv4. }
  set (cl3 := ((bl ++ el) ++ backdropListeners (options m) n1) ++ el).
  pose proof (view_runCleanups cl3 w5 _ _ _ Hv5) as Hv6.
  assert (Hfilter : filter (λ r, r ∉ cl3)
                      ((((listeners w ++ bl) ++ el)
                        ++ backdropListeners (options m) n1) ++ trapListeners ft2)
                    = listeners w ++ trapListeners ft2).
  { rewrite !filter_app.
    rewrite (filter_all _ (listeners w)).
    2:{ apply Forall_forall. intros r Hr. subst cl3.
        rewrite !elem_of_app.
        intros [[[->%backdropListeners_handler| ->%escapeListeners_handler]
                | ->%backdropListeners_handler] | ->%escapeListeners_handler];
          rewrite Forall_forall in Hown; by apply Hown in Hr. }
    rewrite (filter_none _ bl), (filter_none _ el),
      (filter_none _ (backdropListeners (options m) n1)).
    2-4: apply Forall_forall; intros r Hr Hn; apply Hn; subst cl3;
         rewrite !elem_of_app; auto.
    rewrite (filter_all _ (trapListeners ft2)); [by rewrite !app_nil_r|].
    apply Forall_forall. intros r Hr%trapListeners_handler. subst cl3.
    rewrite !elem_of_app.
    intros [[[->%backdropListeners_handler| ->%escapeListeners_handler]
            | ->%backdropListeners_handler] | ->%escapeListeners_handler];
      by destruct Hr. }
  rewrite Hfilter in Hv6.
  pose proof (view_unlock _ _ _ _ _ _ _ _ _ (scrollY w) pinned Hv6) as Hv7.
  exists (mkSystem
            (Modal.mk (options m) (element m) true None ft3 None []
               (S (closeCalls m))
               (if onOpen (options m)
                then S (if onOpen (options m) then S (onOpenCalls m)
                        else onOpenCalls m)
                else (if onOpen (options m) then S (onOpenCalls m)
                      else onOpenCalls m))
               (if onClose (options m) then S (onCloseCalls m) else onCloseCalls m))
            (announce "Dialog closed"
               (unlock (Some (scrollY w, pinned)) (runCleanups cl3 w5)))
            T4).
  split.
  - cbn [run step mbind Completion_bind]. rewrite Hopen, Hclose, Hreopen.
    cbn [tasks modal world]. rewrite bool_decide_eq_true_2 by exact Hin.
    fold T4. unfold runTask, closeTail, hideModal, removeBackdrop,
      cleanUpListeners, unlockBodyScroll.
    cbn [modal world tasks element]. fold w4.
    subst m3. cbn [backdropElement]. subst w5. cbn [backdropElement].
    destruct (backdrop (options m)); reflexivity.
  - cbn [modal world isOpen backdropElement unlockScroll cleanupListeners].
    split; [done|].
    assert (Hstyle : inlineStyle (announce "Dialog closed"
                        (unlock (Some (scrollY w, pinned)) (runCleanups cl3 w5)))
                     = inlineStyle w4).
    { rewrite inlineStyle_announce, inlineStyle_unlock, inlineStyle_runCleanups.
      subst w5. by destruct (backdropElement m3). }
    assert (Hattrs : attributes (announce "Dialog closed"
                        (unlock (Some (scrollY w, pinned)) (runCleanups cl3 w5)))
                     = attributes w4).
    { rewrite attributes_announce, attributes_unlock, attributes_runCleanups.
      subst w5. by destruct (backdropElement m3). }
    split.
    { unfold getPropertyValue, styleOf. rewrite Hstyle. subst w4.
      change (inlineStyle (setAttribute ?e ?k ?v ?w0)) with (inlineStyle w0).
      apply getPropertyValue_setProperty_eq. }
    split.
    { unfold getAttribute, attrsOf. rewrite Hattrs. subst w4.
      unfold setAttribute. cbn [attributes set_attributes].
      rewrite lookup_insert_eq. cbn [default]. apply lookup_insert_eq. }
    do 3 (split; [done|]).
    assert (Hv8 : view (announce "Dialog closed"
                          (unlock (Some (scrollY w, pinned)) (runCleanups cl3 w5)))
                  = (true, listeners w ++ trapListeners ft2,
                     (Some a0, bodyChildren w ++ bdl, pinned, 0%Z, scrollY w,
                      if backdrop (options m) then Pos.succ n1 else n1)))
      by (by rewrite view_announce).
    set (w8 := announce _ _) in *. clearbody w8.
    revert Hv8. unfold view, Page.layout.
    intros [= _ HL8 _ HB8 Hcss8 _ _ _]. rewrite HL8, HB8, Hcss8.
    split; [done|]. split; [by rewrite Hpinned|]. f_equal.
    by rewrite Htl2, Htl1.
Qed.

(** X17 on the example page: the first backdrop (node 100) is left in the
    body. *)
Lemma Modal_reopen_before_close_ends_witness :
  ∃ s', run [Open; Close; Open; Run CloseTail] Examples.pageModal = Normal s'
        ∧ isOpen (modal s') = true
        ∧ backdropElement (modal s') = None
        ∧ bodyChildren (world s') = [100%positive].
Proof.
  destruct (Modal_reopen_before_close_ends Examples.pageModal)
    as (s' & Hrun & Ho & _ & _ & Hbd & _ & _ & HB & _).
  - apply (createModal_idle 10%positive defaultOptions Examples.page).
    + vm_compute. reflexivity.
    + apply Forall_nil_2.
    + apply Forall_nil_2.
    + by eexists.
  - exists s'. split; [exact Hrun|]. split; [exact Ho|]. split; [exact Hbd|].
    vm_compute in HB. exact HB.
Defined.
End ModalReopenFacts.

(** ** Drawer: the delayed activation of the trap *)
Section DrawerTrapFacts.
Import Dom Drawer.
Implicit Types (s : System) (r : Registration).

(** What [open()] leaves of a closed drawer. *)
Lemma Drawer_open_spec s :
  isOpen (drawer s) = false →
  isOpen (drawer (open s)) = true
  ∧ focusTrap (drawer (open s)) = focusTrap (drawer s)
  ∧ element (drawer (open s)) = element (drawer s)
  ∧ isBrowser (world (open s)) = isBrowser (world s)
  ∧ ActivateTrap ∈ tasks (open s)
  ∧ (∀ r, r ∈ cleanupListeners (drawer (open s)) →
          r ∈ cleanupListeners (drawer s)
          ∨ reg_listener r = OverlayBackdropClick
          ∨ reg_listener r = OverlayEscapeKey).
Proof.
  intros Ho. unfold open. rewrite Ho.
  pose proof (isBrowser_lockScroll (world s)) as Hb1.
  destruct (lockScroll (world s)) as [u w1]. cbn [snd] in Hb1.
  cbn [options set_unlockScroll set_isOpen set_backdropElement].
  destruct (backdrop (options (drawer s))) eqn:Hbd;
    [ unfold createBackdropElement;
      cbn [options set_unlockScroll set_isOpen]; rewrite Hbd; cbn [negb];
      match goal with |- context [createElement ?a ?b ?c ?d ?e] =>
        pose proof (isBrowser_createElement a b c d e) as Hbc;
        destruct (createElement a b c d e) as [[b0|] w']
      end; cbn [snd] in Hbc;
      cbn [options set_backdropElement set_unlockScroll set_isOpen];
      [destruct (closeOnBackdrop (options (drawer s)))|] | ];
    unfold addListener;
    cbn [options set_cleanupListeners set_backdropElement set_unlockScroll
         set_isOpen];
    destruct (closeOnEscape (options (drawer s))
              && negb (trapFocus (options (drawer s))));
    unfold animateIn;
    cbn [drawer world tasks call_onOpen isOpen focusTrap element cleanupListeners
         set_cleanupListeners set_backdropElement set_unlockScroll set_isOpen];
    (split; [done|]); (split; [done|]); (split; [done|]);
    (split;
     [rewrite isBrowser_announce, !isBrowser_setProperty;
      repeat case_bool_decide; simpl; congruence|]);
    (split; [rewrite elem_of_app; right; apply list_elem_of_here|]);
    intros r; rewrite ?elem_of_app, ?list_elem_of_singleton;
    intros Hr;
    repeat match goal with H : _ ∨ _ |- _ => destruct H end; subst; auto.
Qed.

(** X18. The drawer activates its trap on a 50 ms timer that [close()]
    does not cancel.  On a closed drawer with an inactive trap:
    after [open()] and [close()] the timer is still pending and the
    drawer reports closed; when the timer and then the end of the close
    animation have run, the drawer is hidden and reports closed, yet its
    trap is active and the trap's keydown listener is registered on the
    document. *)
Theorem Drawer_trap_activates_on_a_closed_drawer s (tr : FocusTrap.t) :
  isBrowser (world s) = true →
  isOpen (drawer s) = false →
  cleanupListeners (drawer s) = [] →
  focusTrap (drawer s) = Some tr →
  FocusTrap.isActive tr = false →
  ActivateTrap ∈ tasks (close (open s))
  ∧ isOpen (drawer (close (open s))) = false
  ∧ isOpen (drawer (closeTail (activateTrap (close (open s))))) = false
  ∧ (∃ tr', focusTrap (drawer (closeTail (activateTrap (close (open s))))) = Some tr'
            ∧ FocusTrap.isActive tr' = true)
  ∧ Modal.trapRegistration
    ∈ listeners (world (closeTail (activateTrap (close (open s)))))
  ∧ getPropertyValue (element (drawer s)) "visibility"
      (world (closeTail (activateTrap (close (open s))))) = "hidden".
Proof.
  intros Hb Ho Hcl Htr Hact.
  destruct (Drawer_open_spec s Ho) as (Ho1 & Hft1 & Hel1 & Hb1 & Ht1 & Hcl1).
  set (s1 := open s) in *.
  assert (Hclose : ∃ w2,
            close s1
            = mkSystem (set_focusTrap (Some tr)
                          (set_isOpen false (count_close (drawer s1))))
                w2 (tasks s1 ++ [CloseTail])
            ∧ isBrowser w2 = true).
  { unfold close. cbn [drawer world tasks count_close isOpen]. rewrite Ho1.
    cbn [negb]. unfold deactivateTrap.
    cbn [drawer world tasks focusTrap set_isOpen count_close].
    rewrite Hft1, Htr. unfold FocusTrap.deactivate. rewrite Hact. cbn [negb].
    unfold animateOut. cbn [drawer world tasks].
    eexists. split; [reflexivity|].
    rewrite !isBrowser_setProperty.
    destruct (backdropElement _); [|congruence].
    destruct (backdropBlur _); rewrite ?isBrowser_setProperty; congruence. }
  destruct Hclose as (w2 & -> & Hb2).
  cbn [drawer world tasks isOpen set_focusTrap set_isOpen].
  split; [rewrite elem_of_app; by left|]. split; [done|].
  unfold activateTrap. cbn [drawer world tasks focusTrap set_focusTrap].
  pose proof (activate_arms tr w2 Hact Hb2) as Harm. cbv zeta in Harm.
  destruct (FocusTrap.activate tr w2) as [[tr1 w3] frame].
  cbn [fst snd] in Harm. destruct Harm as (Ha1 & _ & _ & Hin1).
  unfold closeTail.
  cbn [drawer world tasks backdropElement cleanupListeners unlockScroll element
       set_focusTrap set_isOpen count_close].
  set (w4 := setAttribute _ "aria-hidden" "true" (setProperty _ "visibility" "hidden" w3)).
  assert (Hl4 : listeners w4 = listeners w3).
  { subst w4. change (listeners (setAttribute ?e ?k ?v ?w0)) with (listeners w0).
    apply listeners_setProperty. }
  assert (Hv4 : getPropertyValue (element (drawer s)) "visibility" w4 = "hidden").
  { subst w4. rewrite Hel1.
    change (getPropertyValue ?e ?p (setAttribute ?e' ?k ?v ?w0))
      with (getPropertyValue e p w0).
    apply getPropertyValue_setProperty_eq. }
  clearbody w4.
  assert (Hown : Modal.trapRegistration ∉ cleanupListeners (drawer s1)).
  { intros Hin. apply Hcl1 in Hin. rewrite Hcl in Hin.
    destruct Hin as [Hin%elem_of_nil|[Hin|Hin]]; done. }
  destruct (backdropElement (drawer s1)) as [b|];
    cbn [drawer world isOpen focusTrap call_onClose set_unlockScroll
         set_cleanupListeners set_backdropElement set_focusTrap set_isOpen
         count_close cleanupListeners unlockScroll];
    (split; [done|]); (split; [by exists tr1|]);
    (split;
     [rewrite listeners_announce;
      destruct (unlockScroll (drawer s1)) as [u|]; rewrite ?listeners_unlock;
      apply elem_of_listeners_runCleanups; (split; [|exact Hown]);
      cbn [listeners remove set_bodyChildren]; by rewrite Hl4|]);
    unfold getPropertyValue, styleOf in *;
    rewrite inlineStyle_announce;
    destruct (unlockScroll (drawer s1)) as [u|]; rewrite ?inlineStyle_unlock;
    rewrite inlineStyle_runCleanups; exact Hv4.
Qed.

(** X18 on the example page and its drawer with every default. *)
Lemma Drawer_trap_activates_on_a_closed_drawer_witness :
  isOpen (drawer (closeTail (activateTrap (close (open Examples.pageDrawer)))))
  = false
  ∧ ∃ tr', focusTrap (drawer (closeTail (activateTrap
                                            (close (open Examples.pageDrawer)))))
           = Some tr'
           ∧ FocusTrap.isActive tr' = true.
Proof.
  destruct (Drawer_trap_activates_on_a_closed_drawer Examples.pageDrawer
              (FocusTrap.createFocusTrap 10 (Some FocusTrap.InitialFirst)
                 (Some FocusTrap.ReturnPrevious) true))
    as (_ & _ & Ho & Htrap & _); try (vm_compute; reflexivity).
  split; [exact Ho | exact Htrap].
Defined.
End DrawerTrapFacts.

(** ** shared/aria.ts and shared/dom.ts: ids and the focusable selector *)
Section SharedFacts.
Import Dom Shared.
Implicit Types (w : World) (e : positive).

(** X19. [generateId] advances the counter by one, and two ids with the
    same prefix are equal exactly when they were made at the same counter
    value: the ids of successive calls are pairwise different. *)
Theorem generateId_distinguishes_counters (prefix : string) w w' :
  idCounter (generateId prefix w).2 = S (idCounter w)
  ∧ ((generateId prefix w).1 = (generateId prefix w').1
     ↔ idCounter w = idCounter w').
Proof.
  unfold generateId. cbn [fst snd]. split; [done|]. split.
  - intros Heq. do 3 apply String.app_inj in Heq.
    apply pretty_nat_inj in Heq. by injection Heq.
  - by intros ->.
Qed.

(** X20. The focusable selector takes a link with [href] and an enabled
    button, input, select or textarea whatever their [tabindex]: such a
    rendered descendant is in the list even with [tabindex="-1"]. *)
Theorem getFocusableElements_ignores_tabindex_of_controls
    (container e : positive) w :
  e ∈ descendantsOf container w →
  e ∈ rendered w →
  (tagOf e w = "a" ∧ hasAttribute e "href" w = true)
  ∨ ((tagOf e w = "button" ∨ tagOf e w = "input" ∨ tagOf e w = "select"
      ∨ tagOf e w = "textarea")
     ∧ hasAttribute e "disabled" w = false) →
  e ∈ getFocusableElements container w.
Proof.
  intros Hd Hr Hm. unfold getFocusableElements. apply list_elem_of_filter.
  split; [|done]. split; [|done]. unfold matchesFocusable. cbv zeta.
  destruct Hm as [[-> ->]|[Htag ->]]; [done|]. cbn [negb].
  destruct Htag as [-> | [-> | [-> | ->]]]; cbn; by rewrite ?orb_true_r.
Qed.

(** X20 on the example page with [tabindex="-1"] put on the dialog's
    first button. *)
Lemma getFocusableElements_ignores_tabindex_of_controls_witness :
  getAttribute 11 "tabindex" (setAttribute 11 "tabindex" "-1" Examples.page)
  = Some "-1"
  ∧ 11%positive
    ∈ getFocusableElements 10 (setAttribute 11 "tabindex" "-1" Examples.page).
Proof.
  split; [reflexivity|].
  apply (getFocusableElements_ignores_tabindex_of_controls 10 11
           (setAttribute 11 "tabindex" "-1" Examples.page)).
  - vm_compute. apply list_elem_of_here.
  - vm_compute. reflexivity.
  - right. split; [by left | reflexivity].
Defined.
End SharedFacts.

(** ** Dropdown: the ARIA of the items, and the keys on the trigger *)
Section DropdownItemsFacts.
Import Dom Dropdown.
Implicit Types (s : System) (d : Dropdown.t) (w : World) (e item : positive)
  (k v : string).

Lemma getAttribute_setAttribute e item k k' v w :
  getAttribute e k' (setAttribute item k v w)
  = if decide (e = item ∧ k' = k) then Some v else getAttribute e k' w.
Proof.
  unfold getAttribute, setAttribute, attrsOf. cbn [attributes set_attributes].
  destruct (decide (e = item)) as [->|He].
  - rewrite lookup_insert_eq. simpl.
    destruct (decide (k' = k)) as [->|Hk].
    + rewrite lookup_insert_eq. by rewrite decide_True.
    + rewrite lookup_insert_ne by done. rewrite decide_False; [done|]. tauto.
  - rewrite lookup_insert_ne by done. rewrite decide_False; [done|]. tauto.
Qed.

(** One guarded [setAttribute] of [applyItemAria]. *)
Lemma guarded_setAttribute_keeps e item k k' v w :
  is_Some (getAttribute e k' w) →
  getAttribute e k'
    (if negb (hasAttribute item k w) then setAttribute item k v w else w)
  = getAttribute e k' w.
Proof.
  intros Hsome. unfold hasAttribute. case_bool_decide as Hhas; cbn [negb]; [done|].
  rewrite getAttribute_setAttribute. case_decide as Heq; [|done].
  destruct Heq as [-> ->]. done.
Qed.

Lemma guarded_setAttribute_sets item k v w :
  is_Some (getAttribute item k
             (if negb (hasAttribute item k w) then setAttribute item k v w else w)).
Proof.
  unfold hasAttribute. case_bool_decide as Hhas; cbn [negb]; [done|].
  rewrite getAttribute_setAttribute, decide_True by done. by eexists.
Qed.

Lemma applyItemAria_keeps e item k' w :
  is_Some (getAttribute e k' w) →
  getAttribute e k' (applyItemAria w item) = getAttribute e k' w.
Proof.
  unfold applyItemAria. generalize (Shared.getMenuItemAttributes false).
  intros kvs. revert w. induction kvs as [|[k v] kvs IH]; intros w Hsome; [done|].
  cbn [fold_left]. rewrite IH.
  - by apply guarded_setAttribute_keeps.
  - by rewrite guarded_setAttribute_keeps.
Qed.

Lemma applyItemAria_sets item w :
  is_Some (getAttribute item "role" (applyItemAria w item))
  ∧ is_Some (getAttribute item "tabindex" (applyItemAria w item)).
Proof.
  unfold applyItemAria, Shared.getMenuItemAttributes. cbn [app fold_left].
  set (w1 := if negb (hasAttribute item "role" w)
             then setAttribute item "role" "menuitem" w else w).
  assert (Hrole : is_Some (getAttribute item "role" w1))
    by apply guarded_setAttribute_sets.
  split.
  - by rewrite guarded_setAttribute_keeps.
  - apply guarded_setAttribute_sets.
Qed.

Lemma updateMenuItems_keeps d e k' w :
  is_Some (getAttribute e k' w) →
  getAttribute e k' (updateMenuItems d w).2 = getAttribute e k' w.
Proof.
  unfold updateMenuItems. cbn [snd]. generalize (getMenuItems d w). intros l.
  revert w. induction l as [|x l IH]; intros w Hsome; [done|].
  cbn [fold_left]. rewrite IH.
  - by apply applyItemAria_keeps.
  - by rewrite applyItemAria_keeps.
Qed.

(** X21. [updateMenuItems()] takes as items the descendants of the menu
    that match the item selector and are not disabled, never changes an
    attribute that already has a value, on any element, and leaves every
    item with a [role] and a [tabindex]. *)
Theorem Dropdown_updateMenuItems_fills_only_missing_aria d w :
  menuItems (updateMenuItems d w).1 = getMenuItems d w
  ∧ (∀ e k, match getAttribute e k w with
            | Some v => getAttribute e k (updateMenuItems d w).2 = Some v
            | None => True
            end)
  ∧ Forall (λ item,
      is_Some (getAttribute item "role" (updateMenuItems d w).2)
      ∧ is_Some (getAttribute item "tabindex" (updateMenuItems d w).2))
      (getMenuItems d w).
Proof.
  split; [done|]. split.
  - intros e k. destruct (getAttribute e k w) as [v|] eqn:Hv; [|done].
    rewrite updateMenuItems_keeps; [done|]. by rewrite Hv.
  - unfold updateMenuItems. cbn [snd]. generalize (getMenuItems d w). intros l.
    revert w. induction l as [|x l IH]; intros w; [constructor|].
    cbn [fold_left]. constructor; [|apply IH].
    destruct (applyItemAria_sets x w) as [Hrole Htab].
    assert (Hkeep : ∀ (k : string) w0,
              is_Some (getAttribute x k w0) →
              is_Some (getAttribute x k (fold_left applyItemAria l w0))).
    { intros k. clear. induction l as [|y l IH]; intros w0 Hs; [done|].
      cbn [fold_left]. apply IH. by rewrite applyItemAria_keeps. }
    split; by apply Hkeep.
Qed.

(** X22. The opening keys on the trigger of a closed dropdown whose menu
    has items: ArrowDown, Enter and Space are prevented, open the
    dropdown and add to the pending callbacks exactly the animation frame
    of [open()] followed by the timer that focuses the first item;
    ArrowUp is prevented, opens it and adds exactly the animation frame
    followed by the timer that focuses the last item. Each of the two
    timers, when it fires, returns with the index and the focus on that
    item. *)
Theorem Dropdown_trigger_keys_open_and_focus pos (shift : bool) s :
  isOpen (dropdown s) = false →
  getMenuItems (dropdown s) (world s) ≠ [] →
  (∀ key, key = "ArrowDown" ∨ key = "Enter" ∨ key = " " →
     (handleTriggerKeyDown pos (FocusTrap.mkKey key shift) s).2 = true
     ∧ isOpen (dropdown (handleTriggerKeyDown pos (FocusTrap.mkKey key shift) s).1)
       = true
     ∧ tasks (handleTriggerKeyDown pos (FocusTrap.mkKey key shift) s).1
       = tasks s ++ [AnimateInFrame; FocusFirstTimer]
     ∧ ∃ s', runTask FocusFirstTimer
               (handleTriggerKeyDown pos (FocusTrap.mkKey key shift) s).1 = Normal s'
             ∧ focusedIndex (dropdown s') = 0%Z
             ∧ activeElement (world s') = getMenuItems (dropdown s) (world s) !! 0)
  ∧ (handleTriggerKeyDown pos (FocusTrap.mkKey "ArrowUp" shift) s).2 = true
  ∧ isOpen (dropdown (handleTriggerKeyDown pos (FocusTrap.mkKey "ArrowUp" shift) s).1)
    = true
  ∧ tasks (handleTriggerKeyDown pos (FocusTrap.mkKey "ArrowUp" shift) s).1
    = tasks s ++ [AnimateInFrame; FocusLastTimer]
  ∧ ∃ s', runTask FocusLastTimer
            (handleTriggerKeyDown pos (FocusTrap.mkKey "ArrowUp" shift) s).1
          = Normal s'
          ∧ focusedIndex (dropdown s')
            = (Z.of_nat (length (getMenuItems (dropdown s) (world s))) - 1)%Z
          ∧ activeElement (world s')
            = getMenuItems (dropdown s) (world s)
              !! (length (getMenuItems (dropdown s) (world s)) - 1).
Proof.
  intros Ho Hne.
  destruct (open_resets pos s Ho) as (Hitems & _ & _ & _).
  assert (Ho1 : isOpen (dropdown (open pos s)) = true).
  { unfold open. rewrite Ho. unfold updateMenuItems. cbv zeta. cbn [fst snd].
    do 3 (match goal with |- context [addListener ?a ?b ?c ?d] =>
            destruct (addListener a b c d) as [? ?]
          end).
    done. }
  assert (Hq : ∀ task, tasks (open pos s) ++ [task]
                       = tasks s ++ [AnimateInFrame; task]).
  { intros task. unfold open. rewrite Ho. unfold updateMenuItems. cbv zeta.
    cbn [fst snd].
    do 3 (match goal with |- context [addListener ?a ?b ?c ?d] =>
            destruct (addListener a b c d) as [? ?]
          end).
    unfold animateIn. cbn [tasks]. by rewrite <- app_assoc. }
  assert (Hfocus : ∀ (index : Z) task,
            ∃ (i : nat) item s',
              focusItem index
                (mkSystem (dropdown (open pos s)) (world (open pos s))
                   (tasks (open pos s) ++ [task])) = Normal s'
              ∧ getMenuItems (dropdown s) (world s) !! i = Some item
              ∧ Z.of_nat i
                = (if bool_decide (index < 0)%Z
                   then Z.of_nat (length (getMenuItems (dropdown s) (world s))) - 1
                   else if bool_decide
                             (index >= Z.of_nat (length (getMenuItems (dropdown s)
                                                           (world s))))%Z
                        then 0 else index)%Z
              ∧ focusedIndex (dropdown s') = Z.of_nat i
              ∧ activeElement (world s') = Some item).
  { intros index task.
    destruct (focusItem_returns index
                (mkSystem (dropdown (open pos s)) (world (open pos s))
                   (tasks (open pos s) ++ [task])))
      as (i & item & _ & Hitem & Hi & ->).
    { cbn [dropdown]. by rewrite Hitems. }
    cbn [dropdown] in Hitem, Hi. rewrite Hitems in Hitem, Hi.
    eexists i, item, _. split; [reflexivity|]. by repeat split. }
  assert (Hlen : 0 < length (getMenuItems (dropdown s) (world s))).
  { destruct (getMenuItems _ _); [done | simpl; lia]. }
  split.
  - intros key Hkey. unfold handleTriggerKeyDown. cbn [FocusTrap.key].
    assert (bool_decide (key = "Enter") || bool_decide (key = " ")
            || bool_decide (key = "ArrowDown") = true) as ->.
    { destruct Hkey as [-> | [-> | ->]]; done. }
    rewrite Ho. cbn [negb fst snd dropdown world tasks].
    split; [done|]. split; [exact Ho1|]. split; [apply Hq|].
    destruct (Hfocus 0%Z FocusFirstTimer) as (i & item & s' & Hs & Hitem & Hi & Hfi & Ha).
    rewrite bool_decide_eq_false_2 in Hi by lia.
    rewrite bool_decide_eq_false_2 in Hi by lia.
    assert (i = 0) as -> by lia.
    exists s'. unfold runTask. split; [exact Hs|]. split; [by rewrite Hfi|].
    by rewrite Ha, Hitem.
  - unfold handleTriggerKeyDown. cbn [FocusTrap.key].
    rewrite !(bool_decide_eq_false_2 ("ArrowUp" = _)) by done. cbn [orb].
    rewrite bool_decide_eq_true_2 by done.
    rewrite Ho. cbn [negb fst snd dropdown world tasks].
    split; [done|]. split; [exact Ho1|]. split; [apply Hq|].
    destruct (Hfocus (Z.of_nat (length (getMenuItems (dropdown s) (world s))) - 1)%Z
                FocusLastTimer)
      as (i & item & s' & Hs & Hitem & Hi & Hfi & Ha).
    rewrite bool_decide_eq_false_2 in Hi by lia.
    rewrite bool_decide_eq_false_2 in Hi by lia.
    exists s'. unfold runTask. cbn [dropdown]. rewrite Hitems.
    split; [exact Hs|]. split; [by rewrite Hfi|].
    rewrite Ha, <- Hitem. f_equal. lia.
Qed.

(** X22 on the example menu: ArrowUp on the trigger ends on the third
    item. *)
Lemma Dropdown_trigger_keys_open_and_focus_witness :
  tasks (handleTriggerKeyDown Examples.menuPosition
           (FocusTrap.mkKey "ArrowUp" false) Examples.pageDropdown).1
  = tasks Examples.pageDropdown ++ [AnimateInFrame; FocusLastTimer]
  ∧ ∃ s', runTask FocusLastTimer
          (handleTriggerKeyDown Examples.menuPosition
             (FocusTrap.mkKey "ArrowUp" false) Examples.pageDropdown).1
        = Normal s'
        ∧ focusedIndex (dropdown s') = 2%Z.
Proof.
  assert (isOpen (dropdown Examples.pageDropdown) = false) as Ho
    by (vm_compute; reflexivity).
  assert (getMenuItems (dropdown Examples.pageDropdown)
            (world Examples.pageDropdown) ≠ []) as Hne
    by (vm_compute; discriminate).
  destruct (Dropdown_trigger_keys_open_and_focus Examples.menuPosition false
              Examples.pageDropdown Ho Hne)
    as (_ & _ & _ & Hq & s' & Hs & Hi & _).
  split; [exact Hq|].
  exists s'. split; [exact Hs|]. vm_compute in Hi. exact Hi.
Defined.
End DropdownItemsFacts.
